(** * video-pipeline: resumable media pipeline and job orchestration

    A shallow embedding of [utils.py] (transport helpers, the Veo job client,
    the concatenation routine) and [main.py] (script, scenes and concat
    stages, the driver), followed by the properties of the pipeline.

    Conventions of the embedding.
    - Python values read from JSON are terms of [json]; dictionaries are
      association lists whose first binding of a key is the live one.
    - The artifact store is an association list from path to file.  Its
      order stands for the order in which the file system lists a
      directory, so nothing may depend on it.
    - A Python [str] is the string of the bytes of its UTF-8 encoding;
      slices such as [s[:400]] count characters, not bytes ([take_chars]).
    - Paths are the strings [str(Path(...))] yields, so a directory never
      ends in a slash unless it is the root; [path_join] is the operator
      [/] on a relative name, [path_parent] is [Path.parent].
    - Everything the program does to the outside world is appended to a
      [trace]: log records (which stand for both the console line and the
      line of [pipeline_log.txt]), HTTP requests, sleeps, media-tool runs,
      file writes and removals.  A write is recorded when the file is
      opened for writing, whether or not the open succeeds.
    - Directories are not part of the store: whether [open(path, "w")]
      succeeds (the directory exists and may be written) is an answer of
      the environment, like the replies of the services.
    - The clock counts milliseconds.  [time.sleep s] advances it by
      [1000 * s]; an HTTP exchange advances it by the duration the
      environment reports for that exchange.
    - Remote services and the media tool are an environment [Env]: total
      functions of the history so far, so that every reply of the
      services is covered by quantifying over the environment.  An
      exchange always ends (every request carries a timeout); a run of the
      media tool is assumed to end as well, although [subprocess.run] is
      called without a timeout: a tool that blocks is outside the model.
    - Python library functions with no counterpart in the Standard Library
      ([str.replace], [str.format], [json.loads], ...) are the fields of
      [PyLib].
    - HTTP headers (they only carry the API key) and console prints other
      than the debug dump of the submission payload are left out. *)

From Stdlib Require Import ZArith NArith QArith List String Ascii Bool Lia.
From Stdlib Require Import Permutation Sorting.Sorted DecimalString.
From Stdlib Require DecimalZ.
Import ListNotations.

Local Open Scope string_scope.
Local Open Scope Z_scope.
Local Set Warnings "-register-all".

(* ================================================================== *)
(** ** Values *)

Inductive json : Type :=
| JNull
| JBool (b : bool)
| JNum (z : Z)
| JReal (q : Q)          (* a number that is not an integer literal *)
| JStr (s : string)
| JArr (l : list json)
| JObj (kvs : list (string * json)).

(** Python truthiness ([if x:], [not x], [x or y]). *)
Definition truthy (j : json) : bool :=
  match j with
  | JNull => false
  | JBool b => b
  | JNum z => negb (z =? 0)
  | JReal q => negb (Qeq_bool q 0)
  | JStr s => negb (s =? "")%string
  | JArr l => match l with [] => false | _ :: _ => true end
  | JObj kvs => match kvs with [] => false | _ :: _ => true end
  end.

Fixpoint assoc {A : Type} (k : string) (kvs : list (string * A)) : option A :=
  match kvs with
  | [] => None
  | (k', v) :: rest => if (k =? k')%string then Some v else assoc k rest
  end.

(** [d[k]]; [None] when it raises (see [subscript_error]). *)
Definition dict_item (k : string) (d : json) : option json :=
  match d with
  | JObj kvs => assoc k kvs
  | _ => None
  end.

(** [l[n]] on a list. *)
Definition list_item (n : nat) (l : json) : option json :=
  match l with
  | JArr xs => nth_error xs n
  | _ => None
  end.

(** An integer as the format specification [:02d] and [== 1] see it:
    [bool] is a subclass of [int]. *)
Definition as_int (j : json) : option Z :=
  match j with
  | JNum z => Some z
  | JBool b => Some (if b then 1 else 0)
  | _ => None
  end.

(** [f"{n:02d}"]: decimal, sign included in the width, zero padded to two. *)
Definition fmt02d (n : Z) : string :=
  let s := NilZero.string_of_int (Z.to_int n) in
  if (String.length s <? 2)%nat then "0" ++ s else s.

(** A byte that continues a UTF-8 character. *)
Definition is_continuation (c : ascii) : bool :=
  let n := nat_of_ascii c in ((128 <=? n) && (n <? 192))%nat.

(** [s[:n]]: the first [n] characters of [s]. *)
Fixpoint take_chars (n : nat) (s : string) : string :=
  match s with
  | EmptyString => EmptyString
  | String c r =>
      if is_continuation c then String c (take_chars n r)
      else match n with
           | O => EmptyString
           | S n' => String c (take_chars n' r)
           end
  end.

(** [str.endswith]. *)
Definition endswith (suffix s : string) : bool :=
  let n := String.length s in
  let m := String.length suffix in
  (m <=? n)%nat && (substring (n - m) m s =? suffix)%string.

(** [str.startswith]. *)
Definition startswith (pre s : string) : bool := prefix pre s.

(** [str.lower] on ASCII letters. *)
Definition lower_ascii (c : ascii) : ascii :=
  let n := nat_of_ascii c in
  if ((65 <=? n) && (n <=? 90))%nat then ascii_of_nat (n + 32) else c.

Fixpoint lower (s : string) : string :=
  match s with
  | EmptyString => EmptyString
  | String c r => String (lower_ascii c) (lower r)
  end.

(* ================================================================== *)
(** ** Exceptions, events, the world *)

Inductive AIError : Type :=
| GetFailedAfter (url : string) (retries : Z)   (* "GET ... failed after n attempts" *)
| GetFailed (url : string)                      (* "GET ... failed: ..." *)
| UnexpectedText                                (* "Unexpected text response" *)
| NoOperationName                               (* "No operation name in response" *)
| TimedOut                                      (* "Veo operation timed out" *)
| MissingVideoURI.                              (* "Missing video URI" *)

Inductive Exn : Type :=
| AIRequestError (why : AIError)
| HTTPError              (* raise_for_status *)
| RequestException       (* connection errors, request timeouts, broken streams *)
| JSONDecodeError
| ValueError
| KeyError
| IndexError
| TypeError
| AttributeError
| UnboundLocalError
| CalledProcessError
| OSError.               (* FileNotFoundError and the like *)

(** What [f"{x:02d}"] raises on a value that is not an integer. *)
Definition format_error (j : json) : Exn :=
  match j with
  | JStr _ | JReal _ => ValueError
  | _ => TypeError
  end.

(** What [d[k]] raises when [d] has no item [k]: a dictionary lacks the
    key, anything else cannot be subscripted by a string. *)
Definition subscript_error (d : json) : Exn :=
  match d with
  | JObj _ => KeyError
  | _ => TypeError
  end.

(** Pure library functions taken as given. *)
Class PyLib : Type := {
  (** [s.replace(old, new)] as [str_replace s old new] *)
  str_replace : string -> string -> string -> string;
  (** [s.replace(old, new, 1)] *)
  str_replace_first : string -> string -> string -> string;
  (** [s.strip()] *)
  str_strip : string -> string;
  (** [s.strip(chars)] as [str_strip_chars s chars] *)
  str_strip_chars : string -> string -> string;
  (** [s.split(sep)] *)
  str_split : string -> string -> list string;
  (** [sub in s] as [str_contains sub s] *)
  str_contains : string -> string -> bool;
  (** [template.format] on keyword arguments, or the exception it raises
      ([KeyError] for a missing name, [ValueError] for a stray brace,
      [IndexError] for a positional field) *)
  str_format : string -> list (string * json) -> Exn + string;
  (** [json.loads]; [None] is [JSONDecodeError] *)
  json_loads : string -> option json;
  (** [json.dumps] / [str] of a value *)
  json_dumps : json -> string;
  (** [base64.b64encode(bytes).decode("utf-8")] *)
  b64encode : string -> string
}.

Inductive File : Type :=
| Text (s : string)      (* text and binary files alike *)
| Doc (j : json).        (* a file written by json.dump *)

Definition FS : Type := list (string * File).

Inductive Request : Type :=
| GET (url : string)
| GET_stream (url : string)
| POST (url : string) (payload : json)
| POST_stream (url : string) (payload : json).

Inductive Stage : Type := StScript | StScenes | StConcat | StAll.

Inductive Msg : Type :=
(* generate_full_script *)
| Phase1Search (topic : string)
| Phase1Saved (path : string)
| Phase2Start
| Phase2Saved (path : string)
| ScriptApiError (e : Exn)
| ScriptParseFailed
| RawOutput (text : string)
| ScriptUnexpected
(* extract_last_frame *)
| FrameExtractFailed (video_path : string)
(* process_scene *)
| SceneStarted (scene_id : json)
| SceneSkipped (scene_id : json)      (* "already exists. Skipping generation." *)
| TtsStart (scene_id : json)
| TtsDone (path : string)
| VeoStart (scene_id : json)
| VeoDone (path : string)
| FrameExtracted (scene_id : json)
| SceneError (scene_id : json) (e : Exn)
(* generate_scenes *)
| MissingScript (path : string)
| SceneSkippedErrors (scene_id : json)  (* "skipped due to errors." *)
| NoScenes                              (* "No scenes successfully generated." *)
| Completed (n : nat)                   (* "Completed n scenes." *)
(* concat_final *)
| MissingSceneOutputs                   (* "Missing scene outputs. Cannot concatenate." *)
| FinalCreated (path : string)
| ConcatError
(* driver *)
| Finished (stage : Stage)
(* traceback.format_exc() *)
| Traceback (e : Exn).

Inductive Event : Type :=
| ELog (m : Msg)
| EPrintPayload (payload : json)
| EHttp (r : Request)
| ESleep (secs : Z)
| EFfmpeg (args : list string)
| EWrite (path : string) (f : File)
| EUnlink (path : string).

Record World : Type := mkWorld {
  fs : FS;
  clock : Z;
  trace : list Event
}.

(** What one HTTP exchange yields. *)
Record Reply : Type := mkReply {
  elapsed : N;                 (* milliseconds the exchange took *)
  failure : option Exn;        (* raised by requests or by raise_for_status *)
  body_json : option json;     (* resp.json(); None when the body is not JSON *)
  chunks : list string;        (* resp.iter_content(...) *)
  complete : bool              (* false when the stream breaks after [chunks] *)
}.

Inductive FfStatus : Type := Exit0 | ExitNonzero | SpawnFailed.

Record FfReply : Type := mkFfReply {
  status : FfStatus;
  output : option string       (* what the run left at its output path *)
}.

Class Env : Type := {
  http : list Event -> Request -> Reply;
  ffmpeg : list Event -> FS -> list string -> FfReply;
  (** whether [open(path, "w")] succeeds *)
  can_write : list Event -> FS -> string -> bool
}.

(* ================================================================== *)
(** ** The artifact store *)

Definition fs_lookup (p : string) (s : FS) : option File := assoc p s.

Definition fs_exists (p : string) (s : FS) : bool :=
  match fs_lookup p s with Some _ => true | None => false end.

Definition fs_unlink (p : string) (s : FS) : FS :=
  filter (fun kv => negb (fst kv =? p)%string) s.

Definition fs_write (p : string) (f : File) (s : FS) : FS :=
  (p, f) :: fs_unlink p s.

(** [dir / name] for a relative [name]: the current directory is left out
    and the root brings its own slash. *)
Definition path_join (dir name : string) : string :=
  if (dir =? ".")%string || (dir =? "")%string then name
  else if (dir =? "/")%string then "/" ++ name
  else dir ++ "/" ++ name.

Fixpoint no_slash (s : string) : bool :=
  match s with
  | EmptyString => true
  | String c r => negb (c =? "/")%char && no_slash r
  end.

(** The name of [p] inside [dir] when [p] is an entry of [dir]. *)
Definition entry_name (dir p : string) : option string :=
  let d := dir ++ "/" in
  if prefix d p then
    let name := substring (String.length d) (String.length p - String.length d) p in
    if no_slash name then Some name else None
  else None.

(** [dir.glob(pre + "*" + suf)]: the entries of [dir] matching the pattern,
    in the order the store lists them. *)
Definition glob (dir pre suf : string) (s : FS) : list string :=
  filter
    (fun p =>
       match entry_name dir p with
       | Some name =>
           startswith pre name && endswith suf name
           && (String.length pre + String.length suf <=? String.length name)%nat
       | None => false
       end)
    (map fst s).

(** [sorted] on paths of one directory: insertion of each element into the
    sorted rest, by the code-point order of strings. *)
Fixpoint insert_sorted (x : string) (l : list string) : list string :=
  match l with
  | [] => [x]
  | y :: r => if String.leb x y then x :: l else y :: insert_sorted x r
  end.

Fixpoint sorted (l : list string) : list string :=
  match l with
  | [] => []
  | x :: r => insert_sorted x (sorted r)
  end.

(* ================================================================== *)
(** ** The effect monad *)

Inductive Res (A : Type) : Type :=
| Ret (a : A)
| Exc (e : Exn)
| Diverge.            (* the loop budget of the model ran out *)

Arguments Ret {A} a.
Arguments Exc {A} e.
Arguments Diverge {A}.

Definition M (A : Type) : Type := World -> Res A * World.

Definition ret {A} (a : A) : M A := fun w => (Ret a, w).

Definition bind {A B} (m : M A) (k : A -> M B) : M B :=
  fun w =>
    match m w with
    | (Ret a, w') => k a w'
    | (Exc e, w') => (Exc e, w')
    | (Diverge, w') => (Diverge, w')
    end.

Definition raise {A} (e : Exn) : M A := fun w => (Exc e, w).

Definition diverge {A} : M A := fun w => (Diverge, w).

Notation "x <- m ;; k" := (bind m (fun x => k))
  (at level 61, m at next level, right associativity).
Notation "m ;; k" := (bind m (fun _ => k))
  (at level 61, right associativity).

(** [try: body except Exception as e: handler e]. *)
Definition try_except {A} (body : M A) (handler : Exn -> M A) : M A :=
  fun w =>
    match body w with
    | (Exc e, w') => handler e w'
    | r => r
    end.

(** An optional value whose absence raises. *)
Definition or_raise {A} (o : option A) (e : Exn) : M A :=
  match o with
  | Some a => ret a
  | None => raise e
  end.

(** A library call that returns or raises. *)
Definition lift {A} (r : Exn + A) : M A :=
  match r with
  | inr a => ret a
  | inl e => raise e
  end.

Definition emit (e : Event) : M unit :=
  fun w => (Ret tt, mkWorld (fs w) (clock w) (trace w ++ [e])).

(** [log(msg)] of main.py. *)
Definition log (m : Msg) : M unit := emit (ELog m).

(** [time.time()], in milliseconds. *)
Definition now : M Z := fun w => (Ret (clock w), w).

(** [time.sleep(secs)]. *)
Definition sleep (secs : Z) : M unit :=
  fun w => (Ret tt, mkWorld (fs w) (clock w + 1000 * secs) (trace w ++ [ESleep secs])).

(** [path.exists()] / [os.path.exists(path)]. *)
Definition exists_ (p : string) : M bool :=
  fun w => (Ret (fs_exists p (fs w)), w).

(** [Path(p).unlink(missing_ok=True)]. *)
Definition unlink (p : string) : M unit :=
  fun w => (Ret tt, mkWorld (fs_unlink p (fs w)) (clock w) (trace w ++ [EUnlink p])).

Definition exec {A} (m : M A) (w : World) : World := snd (m w).
Definition result {A} (m : M A) (w : World) : Res A := fst (m w).

(** The events a run added to the history. *)
Definition appended {A} (m : M A) (w : World) : list Event :=
  skipn (List.length (trace w)) (trace (exec m w)).

Section WithLibrary.
Context {lib : PyLib}.

(** [open(p, encoding="utf-8").read()]. *)
Definition read_text (p : string) : M string :=
  fun w =>
    match fs_lookup p (fs w) with
    | Some (Text s) => (Ret s, w)
    | Some (Doc j) => (Ret (json_dumps j), w)
    | None => (Exc OSError, w)
    end.

(** [json.load(open(p))]. *)
Definition read_json (p : string) : M json :=
  fun w =>
    match fs_lookup p (fs w) with
    | Some (Doc j) => (Ret j, w)
    | Some (Text s) =>
        match json_loads s with
        | Some j => (Ret j, w)
        | None => (Exc JSONDecodeError, w)
        end
    | None => (Exc OSError, w)
    end.

End WithLibrary.

Section WithEnvironment.
Context {env : Env}.

(** One HTTP exchange: the request is recorded and the clock moves by the
    time the exchange took. *)
Definition request (r : Request) : M Reply :=
  fun w =>
    let rp := http (trace w) r in
    (Ret rp, mkWorld (fs w) (clock w + Z.of_N (elapsed rp)) (trace w ++ [EHttp r])).

(** [open(p, "w"/"wb")] followed by the writes and the close; the open
    fails with an [OSError] when the environment says so, and then nothing
    is written. *)
Definition write_file (p : string) (f : File) : M unit :=
  fun w =>
    if can_write (trace w) (fs w) p
    then (Ret tt, mkWorld (fs_write p f (fs w)) (clock w) (trace w ++ [EWrite p f]))
    else (Exc OSError, mkWorld (fs w) (clock w) (trace w ++ [EWrite p f])).

(** [subprocess.run(args, check=True)] of the media tool, which leaves
    [output] at [out]. *)
Definition run_ffmpeg (args : list string) (out : string) : M unit :=
  fun w =>
    let rp := ffmpeg (trace w) (fs w) args in
    let s' := match output rp with
              | Some o => fs_write out (Text o) (fs w)
              | None => fs w
              end in
    let w' := mkWorld s' (clock w) (trace w ++ [EFfmpeg args]) in
    match status rp with
    | Exit0 => (Ret tt, w')
    | ExitNonzero => (Exc CalledProcessError, w')
    | SpawnFailed => (Exc OSError, w')
    end.

(** A streamed response written to [out_path] chunk by chunk. *)
Definition stream_to_file (r : Request) (out_path : string) : M string :=
  rp <- request r ;;
  match failure rp with
  | Some e => raise e
  | None =>
      write_file out_path (Text (String.concat "" (chunks rp))) ;;
      if complete rp then ret out_path else raise RequestException
  end.

End WithEnvironment.

(* ================================================================== *)
(** ** utils.py *)

Module Utils.

Definition OPENAI_BASE : string := "https://api.thucchien.ai/v1".
Definition TTS_BASE : string := "https://api.thucchien.ai".
Definition GEMINI_V1BETA_BASE : string := "https://api.thucchien.ai/gemini/v1beta".
Definition GEMINI_DOWNLOAD_BASE : string := "https://api.thucchien.ai/gemini/download".

Definition DEFAULT_RETRIES : Z := 3.
Definition DEFAULT_BACKOFF : Z := 2.

Section Transport.
Context {lib : PyLib} {env : Env}.

(** [resp.raise_for_status(); return resp.json()]. *)
Definition json_of_reply (rp : Reply) : M json :=
  match failure rp with
  | Some e => raise e
  | None => or_raise (body_json rp) JSONDecodeError
  end.

(** A single POST; a failure is re-raised, never retried. *)
Definition _post_json (url : string) (payload : json) : M json :=
  rp <- request (POST url payload) ;;
  json_of_reply rp.

(** The body of [for attempt in range(1, retries + 1)]: [todo] iterations
    of the range are left, [attempt] is the loop variable. *)
Fixpoint get_json_loop (url : string) (retries : Z)
         (todo : nat) (attempt backoff : Z) : M json :=
  match todo with
  | O => raise (AIRequestError (GetFailed url))
  | S todo' =>
      try_except
        (rp <- request (GET url) ;; json_of_reply rp)
        (fun _ =>
           if attempt <? retries then
             sleep backoff ;;
             get_json_loop url retries todo' (attempt + 1) (backoff * 2)
           else raise (AIRequestError (GetFailedAfter url retries)))
  end.

Definition _get_json_with (url : string) (retries : Z) : M json :=
  get_json_loop url retries (Z.to_nat retries) 1 DEFAULT_BACKOFF.

Definition _get_json (url : string) : M json :=
  _get_json_with url DEFAULT_RETRIES.

(** [generate_text]; no caller passes [messages] or [system_prompt], so
    the conversation is the single user message built from [prompt]. *)
Definition generate_text (prompt : string) (model : string)
           (web_search : bool) (temperature : Q) (max_tokens : Z) : M string :=
  let url := OPENAI_BASE ++ "/chat/completions" in
  let messages := JArr [JObj [("role", JStr "user"); ("content", JStr prompt)]] in
  let payload :=
    JObj ([("model", JStr model);
           ("messages", messages);
           ("temperature", JReal temperature);
           ("max_tokens", JNum max_tokens)]
          ++ (if web_search
              then [("web_search_options", JObj [("search_context_size", JStr "large")])]
              else [])) in
  data <- _post_json url payload ;;
  let content :=
    match dict_item "choices" data with
    | Some choices =>
        match list_item 0 choices with
        | Some choice =>
            match dict_item "message" choice with
            | Some (JObj kvs) =>
                let c := match assoc "content" kvs with
                         | Some c => c
                         | None => JNull
                         end in
                if truthy c then Some c
                else
                  match assoc "parts" kvs with
                  | Some parts =>
                      match list_item 0 parts with
                      | Some (JObj p0) => assoc "text" p0
                      | _ => None
                      end
                  | None => Some JNull
                  end
            | _ => None
            end
        | None => None
        end
    | None => None
    end in
  match content with
  | Some (JStr s) =>
      if (s =? "")%string then raise (AIRequestError UnexpectedText)
      else ret (str_strip s)
  | _ => raise (AIRequestError UnexpectedText)
  end.

(** [tts_speech]. *)
Definition tts_speech (input_text_or_ssml : json) (out_path : string) : M string :=
  let url := TTS_BASE ++ "/audio/speech" in
  let payload :=
    JObj [("model", JStr "gemini-2.5-flash-preview-tts");
          ("input", input_text_or_ssml);
          ("voice", JStr "Zephyr")] in
  stream_to_file (POST_stream url payload) out_path.

End Transport.

(** *** VeoClient *)
Section VeoClient.
Context {lib : PyLib} {env : Env}.

Definition base : string := GEMINI_V1BETA_BASE.
Definition download_base : string := GEMINI_DOWNLOAD_BASE.

Definition start_url : string :=
  base ++ "/models/veo-3.0-generate-001:predictLongRunning".

Definition _start_job (payload : json) : M string :=
  emit (EPrintPayload payload) ;;
  data <- _post_json start_url payload ;;
  match data with
  | JObj kvs =>
      match assoc "name" kvs with
      | Some name =>
          if truthy name then
            ret (match name with JStr s => s | other => json_dumps other end)
          else raise (AIRequestError NoOperationName)
      | None => raise (AIRequestError NoOperationName)
      end
  | _ => raise AttributeError
  end.

(** [data["response"]["generateVideoResponse"]["generatedSamples"][0]["video"]["uri"]] *)
Definition video_uri (data : json) : option json :=
  match dict_item "response" data with
  | Some r =>
      match dict_item "generateVideoResponse" r with
      | Some g =>
          match dict_item "generatedSamples" g with
          | Some samples =>
              match list_item 0 samples with
              | Some s0 =>
                  match dict_item "video" s0 with
                  | Some v => dict_item "uri" v
                  | None => None
                  end
              | None => None
              end
          | None => None
          end
      | None => None
      end
  | None => None
  end.

Definition POLL_INTERVAL : Z := 5.

(** The [while True] loop of [_poll_until_done]; [budget] bounds the number
    of iterations the model follows. *)
Fixpoint poll_loop (budget : nat) (op_url : string) (start timeout_sec : Z) : M json :=
  match budget with
  | O => diverge
  | S budget' =>
      t <- now ;;
      if t - start >? 1000 * timeout_sec then raise (AIRequestError TimedOut)
      else
        data <- _get_json op_url ;;
        match data with
        | JObj kvs =>
            let done := match assoc "done" kvs with Some d => d | None => JNull end in
            if truthy done then
              or_raise (video_uri data) (AIRequestError MissingVideoURI)
            else
              sleep POLL_INTERVAL ;;
              poll_loop budget' op_url start timeout_sec
        | _ => raise AttributeError
        end
  end.

(** Every pass through the loop sleeps five seconds, so
    [timeout_sec / 5 + 2] passes always reach the timeout check that
    raises (see [poll_loop_total]). *)
Definition poll_budget (timeout_sec : Z) : nat :=
  Z.to_nat (timeout_sec / POLL_INTERVAL) + 2.

Definition _poll_until_done_within (operation_name : string) (timeout_sec : Z) : M json :=
  let op_url := base ++ "/" ++ operation_name in
  start <- now ;;
  poll_loop (poll_budget timeout_sec) op_url start timeout_sec.

Definition _poll_until_done (operation_name : string) : M json :=
  _poll_until_done_within operation_name 600.

Definition google_prefix : string := "https://generativelanguage.googleapis.com/".

Definition _download (google_uri : json) (out_path : string) : M string :=
  match google_uri with
  | JStr uri =>
      let relative :=
        if startswith google_prefix uri then str_replace uri google_prefix "" else uri in
      let url := download_base ++ "/" ++ relative in
      stream_to_file (GET_stream url) out_path
  | _ => raise AttributeError
  end.

(** The submission payload: the prompt, and the reference image only when
    one was encoded. *)
Definition build_payload (prompt : string) (image : option (string * string)) : json :=
  JObj [("instances",
         JArr [JObj (("prompt", JStr prompt)
                     :: match image with
                        | Some (b64, mime) =>
                            [("image", JObj [("bytesBase64Encoded", JStr b64);
                                             ("mimeType", JStr mime)])]
                        | None => []
                        end)])].

Definition generate_video_with_image (prompt : string) (out_path : string)
           (image_path : option string) : M string :=
  if (str_strip prompt =? "")%string then raise ValueError
  else
    image <-
      match image_path with
      | Some p =>
          if (p =? "")%string then ret None
          else
            present <- exists_ p ;;
            if present then
              bytes <- read_text p ;;
              let image_b64 := b64encode bytes in
              if (image_b64 =? "")%string then ret None
              else ret (Some (image_b64,
                              if endswith ".png" (lower p) then "image/png"
                              else "image/jpeg"))
            else ret None
      | None => ret None
      end ;;
    let payload := build_payload prompt image in
    operation_name <- _start_job payload ;;
    video_uri <- _poll_until_done operation_name ;;
    _download video_uri out_path.

End VeoClient.

(** *** concat_videos *)
Section Concat.
Context {env : Env}.

(** The lines [file '<path>'] written to a concat list. *)
Definition concat_lines (paths : list string) : string :=
  String.concat "" (map (fun p => "file '" ++ p ++ "'" ++ String (ascii_of_nat 10) "") paths).

Definition tmp_file : string := "concat_list.txt".
Definition merged : string := "merged_temp.mp4".
Definition audio_concat : string := "concat_audio.txt".
Definition merged_audio : string := "merged_audio.mp3".

Definition concat_videos (video_list audio_list : list string) (output_path : string) : M unit :=
  write_file tmp_file (Text (concat_lines video_list)) ;;
  run_ffmpeg ["ffmpeg"; "-f"; "concat"; "-safe"; "0";
              "-i"; tmp_file; "-c"; "copy"; merged] merged ;;
  write_file audio_concat (Text (concat_lines audio_list)) ;;
  run_ffmpeg ["ffmpeg"; "-f"; "concat"; "-safe"; "0";
              "-i"; audio_concat; "-c"; "copy"; merged_audio] merged_audio ;;
  run_ffmpeg ["ffmpeg"; "-i"; merged; "-i"; merged_audio;
              "-c:v"; "copy"; "-map"; "0:v:0"; "-map"; "1:a:0";
              "-shortest"; output_path] output_path ;;
  unlink tmp_file ;;
  unlink audio_concat ;;
  unlink merged ;;
  unlink merged_audio.

End Concat.

End Utils.

(* ================================================================== *)
(** ** main.py *)

Module Main.
Import Utils.

(** The path up to its last slash, the slash left out. *)
Fixpoint before_last_slash (p : string) : string :=
  match p with
  | EmptyString => EmptyString
  | String c r => if no_slash r then EmptyString else String c (before_last_slash r)
  end.

(** [Path.parent]: the path without its last component; the parent of a
    bare name is the current directory, the parent of a name under the root
    is the root. *)
Definition path_parent (p : string) : string :=
  if no_slash p then "."
  else match before_last_slash p with
       | EmptyString => "/"
       | d => d
       end.

(** The dictionary [process_scene] returns. *)
Record ScenePaths : Type := mkPaths {
  audio : string;
  video : string;
  frame : string
}.

Definition audio_path (out_dir : string) (n : Z) : string :=
  path_join (path_join out_dir "audio") ("scene_" ++ fmt02d n ++ ".mp3").
Definition video_path (out_dir : string) (n : Z) : string :=
  path_join (path_join out_dir "video") ("scene_" ++ fmt02d n ++ ".mp4").
Definition frame_path (out_dir : string) (n : Z) : string :=
  path_join (path_join out_dir "frames") ("scene_" ++ fmt02d n ++ "_last.png").

Definition scene_paths (out_dir : string) (n : Z) : ScenePaths :=
  mkPaths (audio_path out_dir n) (video_path out_dir n) (frame_path out_dir n).

Definition nl : string := String (ascii_of_nat 10) "".

Definition intro_prompt : string :=
  "Generate a cinematic 8-second news introduction scene" ++ nl ++
  "        featuring a professional Vietnamese female anchor (around 30 years old) in a modern TV newsroom." ++ nl ++
  "        She smiles gently, looks directly at the camera, and greets the audience confidently." ++ nl ++
  "        She wears a red traditional áo dài with subtle golden patterns." ++ nl ++
  "        Lighting: warm and balanced, elegant studio atmosphere." ++ nl ++
  "        Camera: 35mm, eye level, slow push-in motion." ++ nl ++
  "        No on-screen text, only natural movement and environment.".

Section Stages.
Context {lib : PyLib} {env : Env}.

(** *** Step 1: the script *)

(** The three [except] clauses of [generate_full_script]; [text] is [None]
    while the variable is still unbound. *)
Definition script_handler (text : option string) (e : Exn) : M unit :=
  match e with
  | AIRequestError _ => log (ScriptApiError e) ;; log (Traceback e)
  | JSONDecodeError =>
      log ScriptParseFailed ;;
      match text with
      | Some t => log (RawOutput (take_chars 400 t))
      | None => raise UnboundLocalError
      end
  | _ => log ScriptUnexpected ;; log (Traceback e)
  end.

Definition fence : string := "```".

(** Lines 69-97: up to the moment [text] is bound. *)
Definition script_request (topic : string) (out_path : string) (skip_search : bool) : M string :=
  raw <- read_text "prompts/search_prompt.txt" ;;
  let search_prompt := str_replace raw "{topic}" topic in
  log (Phase1Search topic) ;;
  (if negb skip_search then
     search_results <- generate_text search_prompt "gemini-2.5-flash" true 0 2048 ;;
     let search_file := path_join (path_parent out_path) "search_context.txt" in
     write_file search_file (Text search_results) ;;
     log (Phase1Saved search_file)
   else ret tt) ;;
  search_results <- read_text (path_join (path_parent out_path) "search_context.txt") ;;
  log Phase2Start ;;
  compose_prompt <- read_text "prompts/compose_prompt.txt" ;;
  let final_prompt :=
    str_replace (str_replace compose_prompt "{topic}" topic) "{context}" search_results in
  let prompt :=
    final_prompt ++ nl ++ nl ++ "Here is the factual context gathered from the web:" ++ nl
    ++ take_chars 4000 search_results in
  generate_text prompt "gemini-2.5-flash" false (4 # 10) 10000.

(** Lines 99-107: the reply without its code fence. *)
Definition clean_reply (text : string) : Exn + string :=
  let cleaned := str_strip text in
  if startswith fence cleaned then
    match nth_error (str_split cleaned fence) 1 with
    | None => inl IndexError
    | Some c1 =>
        let c2 := str_strip_chars (str_replace_first c1 "json" "") (" " ++ nl) in
        if str_contains fence c2 then
          match nth_error (str_split c2 fence) 0 with
          | None => inl IndexError
          | Some c3 => inr (str_strip c3)
          end
        else inr c2
    end
  else inr cleaned.

(** Lines 99-112: cleaning, parsing and saving. *)
Definition script_save (text : string) (out_path : string) : M unit :=
  cleaned <- lift (clean_reply text) ;;
  data <- or_raise (json_loads cleaned) JSONDecodeError ;;
  write_file out_path (Doc data) ;;
  log (Phase2Saved out_path).

Definition generate_full_script (topic : string) (out_path : string)
           (skip_search : bool) : M unit :=
  fun w =>
    match script_request topic out_path skip_search w with
    | (Ret text, w1) => try_except (script_save text out_path) (script_handler (Some text)) w1
    | (Exc e, w1) => script_handler None e w1
    | (Diverge, w1) => (Diverge, w1)
    end.

(** *** Utility: the last frame *)

Definition extract_last_frame (video_path frame_path : string) : M unit :=
  try_except
    (run_ffmpeg ["ffmpeg"; "-sseof"; "-1"; "-i"; video_path;
                 "-update"; "1"; "-q:v"; "2"; frame_path; "-y"] frame_path)
    (fun e =>
       match e with
       | CalledProcessError => log (FrameExtractFailed video_path)
       | _ => log (Traceback e)
       end).

(** *** Step 2: one scene *)

(** Lines 165-206: the work of a scene that is not skipped. *)
Definition render_scene (scene_id ssml visual_desc transition_hint : json)
           (n : Z) (prev_scene : option json) (out_dir : string) : M unit :=
  let audio_path := audio_path out_dir n in
  let video_path := video_path out_dir n in
  let frame_path := frame_path out_dir n in
  log (TtsStart scene_id) ;;
  tts_speech ssml audio_path ;;
  log (TtsDone audio_path) ;;
  pi <-
    (if n =? 1 then ret (intro_prompt, @None string)
     else
       base_prompt <- read_text "prompts/scene_prompt.txt" ;;
       prev_visual <-
         match prev_scene with
         | Some p => if truthy p then or_raise (dict_item "visual_desc" p) (subscript_error p)
                     else ret (JStr "")
         | None => ret (JStr "")
         end ;;
       prompt <- lift (str_format base_prompt
                             [("prev_visual", prev_visual);
                              ("transition_hint", transition_hint);
                              ("main_visual", visual_desc)]) ;;
       image_ref <-
         match prev_scene with
         | Some p =>
             if truthy p then
               pid <- or_raise (dict_item "scene_id" p) (subscript_error p) ;;
               pn <- or_raise (as_int pid) (format_error pid) ;;
               ret (Some (Main.frame_path out_dir pn))
             else ret None
         | None => ret None
         end ;;
       let image_ref : option string := None in
       ret (prompt, image_ref)) ;;
  let prompt := fst pi in
  let image_ref := snd pi in
  log (VeoStart scene_id) ;;
  image_path <-
    match image_ref with
    | Some r => present <- exists_ r ;; ret (if present then Some r else None)
    | None => ret None
    end ;;
  generate_video_with_image prompt video_path image_path ;;
  log (VeoDone video_path) ;;
  extract_last_frame video_path frame_path ;;
  log (FrameExtracted scene_id).

Definition process_scene (scene : json) (prev_scene : option json)
           (out_dir : string) : M (option ScenePaths) :=
  scene_id <- or_raise (dict_item "scene_id" scene) (subscript_error scene) ;;
  ssml <- or_raise (dict_item "ssml" scene) (subscript_error scene) ;;
  visual_desc <- or_raise (dict_item "visual_desc" scene) (subscript_error scene) ;;
  let transition_hint :=
    match dict_item "transition_hint" scene with
    | Some h => h
    | None => JStr ""
    end in
  n <- or_raise (as_int scene_id) (format_error scene_id) ;;
  let paths := scene_paths out_dir n in
  log (SceneStarted scene_id) ;;
  try_except
    (a <- exists_ (audio paths) ;;
     v <- exists_ (video paths) ;;
     if a && v then
       log (SceneSkipped scene_id) ;;
       ret (Some paths)
     else
       render_scene scene_id ssml visual_desc transition_hint n prev_scene out_dir ;;
       ret (Some paths))
    (fun e =>
       log (SceneError scene_id e) ;;
       log (Traceback e) ;;
       ret None).

(** *** Step 3: all scenes *)

(** The [for] loop of [generate_scenes] over the scenes it was given. *)
Fixpoint scenes_loop (scenes : list json) (generated : list ScenePaths)
         (prev_scene : option json) (out_dir : string) : M (list ScenePaths) :=
  match scenes with
  | [] => ret generated
  | scene :: rest =>
      r <- process_scene scene prev_scene out_dir ;;
      match r with
      | Some paths => scenes_loop rest (generated ++ [paths]) (Some scene) out_dir
      | None =>
          sid <- or_raise (dict_item "scene_id" scene) (subscript_error scene) ;;
          log (SceneSkippedErrors sid) ;;
          scenes_loop rest generated prev_scene out_dir
      end
  end.

(** [scenes[:2]] on what [json.load] returned. *)
Definition first_two (scenes : json) : M (list json) :=
  match scenes with
  | JArr l => ret (firstn 2 l)
  | JStr s => if (s =? "")%string then ret [] else raise TypeError
  | _ => raise TypeError
  end.

Definition generate_scenes (out_dir script_path : string) : M unit :=
  present <- exists_ script_path ;;
  if negb present then log (MissingScript script_path)
  else
    scenes <- read_json script_path ;;
    batch <- first_two scenes ;;
    generated <- scenes_loop batch [] None out_dir ;;
    match generated with
    | [] => log NoScenes
    | _ :: _ => log (Completed (List.length generated))
    end.

(** *** Step 4: the final video *)

Definition concat_final (out_dir : string) : M unit :=
  let audio_dir := path_join out_dir "audio" in
  let video_dir := path_join out_dir "video" in
  let final_path := path_join out_dir "final_video.mp4" in
  fun w =>
    let videos := sorted (glob video_dir "scene_" ".mp4" (fs w)) in
    let audios := sorted (glob audio_dir "scene_" ".mp3" (fs w)) in
    match videos, audios with
    | _ :: _, _ :: _ =>
        try_except
          (concat_videos videos audios final_path ;;
           log (FinalCreated final_path))
          (fun e => log ConcatError ;; log (Traceback e)) w
    | _, _ => log MissingSceneOutputs w
    end.

(** *** The driver

    [init_environment] (configuration and directory setup) is outside the
    model: [OUTPUT_DIR] is the directory it returns, and [stage] is the
    parsed [--stage] argument. *)

Definition stage_in (stage a b : Stage) : bool :=
  match stage, a, b with
  | StScript, StScript, _ | StScenes, StScenes, _ | StConcat, StConcat, _ => true
  | StAll, _, StAll => true
  | _, _, _ => false
  end.

Definition main (topic : string) (stage : Stage) (OUTPUT_DIR : string) : M unit :=
  let script_path := path_join (path_join OUTPUT_DIR "scripts") "script.json" in
  (if stage_in stage StScript StAll
   then generate_full_script topic script_path true else ret tt) ;;
  (if stage_in stage StScenes StAll
   then generate_scenes OUTPUT_DIR script_path else ret tt) ;;
  (if stage_in stage StConcat StAll
   then concat_final OUTPUT_DIR else ret tt) ;;
  log (Finished stage).

End Stages.
End Main.

(* ================================================================== *)
(** ** Vocabulary of the properties *)

Import Utils Main.
Local Open Scope list_scope.

(** The delays slept, in order. *)
Definition delays (evs : list Event) : list Z :=
  flat_map (fun e => match e with ESleep s => [s] | _ => [] end) evs.

(** The number of GET attempts. *)
Definition attempts (evs : list Event) : nat :=
  List.length (filter (fun e => match e with EHttp (GET _) => true | _ => false end) evs).

(** [b; 2b; 4b; ...], [m] terms. *)
Definition doubling (b : Z) (m : nat) : list Z :=
  map (fun k => b * 2 ^ Z.of_nat k) (seq 0 m).

(** The history of one call of [_get_json] that makes [a] attempts: the
    GETs, and between them the sleeps [b], [2b], [4b], ... *)
Definition backoff_history (url : string) (b : Z) (a : nat) : list Event :=
  match a with
  | O => []
  | S k => EHttp (GET url) :: flat_map (fun d => [ESleep d; EHttp (GET url)]) (doubling b k)
  end.

(** Seconds slept in all. *)
Definition total (ds : list Z) : Z := fold_right Z.add 0 ds.

(** The value of [data.get("done")]. *)
Definition done_field (kvs : list (string * json)) : json :=
  match assoc "done" kvs with Some d => d | None => JNull end.

(** A job that never reports done: every status query at [op_url] is
    answered at the first attempt, within [D] milliseconds, by a dictionary
    whose [done] is false or absent. *)
Definition never_done {env : Env} (op_url : string) (D : Z) : Prop :=
  forall tr,
    failure (http tr (GET op_url)) = None
    /\ (exists kvs, body_json (http tr (GET op_url)) = Some (JObj kvs)
                    /\ truthy (done_field kvs) = false)
    /\ Z.of_N (elapsed (http tr (GET op_url))) <= D.

(** A job that never reports done, whatever else its status service does:
    an exchange may fail, or answer with something that is not JSON or not
    a dictionary, but no successful reply carries a true [done]; every
    exchange is over within [D] milliseconds. *)
Definition pending_job {env : Env} (op_url : string) (D : Z) : Prop :=
  forall tr,
    Z.of_N (elapsed (http tr (GET op_url))) <= D
    /\ forall kvs, failure (http tr (GET op_url)) = None ->
                   body_json (http tr (GET op_url)) = Some (JObj kvs) ->
                   truthy (done_field kvs) = false.

(** The history of a poll: whole passes, each one status query of [a]
    attempts followed by the sleep of the fixed interval, then what the
    last, unfinished pass did. *)
Definition poll_history (op_url : string) (qs : list nat) (last : list Event) : list Event :=
  flat_map (fun a => backoff_history op_url DEFAULT_BACKOFF a ++ [ESleep POLL_INTERVAL]) qs
  ++ last.

(** [n] passes through the poll loop: one query, one sleep each. *)
Definition rounds (op_url : string) (n : nat) : list Event :=
  List.concat (repeat [EHttp (GET op_url); ESleep POLL_INTERVAL] n).

(** The scenes whose processing began, by the identifier logged. *)
Definition started (evs : list Event) : list json :=
  flat_map (fun e => match e with ELog (SceneStarted i) => [i] | _ => [] end) evs.

(** Requests sent to remote services. *)
Definition remote_calls (evs : list Event) : list Request :=
  flat_map (fun e => match e with EHttp r => [r] | _ => [] end) evs.

(** Runs of the media tool. *)
Definition tool_runs (evs : list Event) : list (list string) :=
  flat_map (fun e => match e with EFfmpeg a => [a] | _ => [] end) evs.

(** [m] only ever adds events satisfying [P] to the history, and returns
    values satisfying [Q]. *)
Definition emits {A} (P : Event -> Prop) (Q : A -> Prop) (m : M A) : Prop :=
  forall w, exists evs,
    trace (exec m w) = trace w ++ evs
    /\ Forall P evs
    /\ forall a, result m w = Ret a -> Q a.

Definition any {A} : A -> Prop := fun _ => True.

(** A submission payload that holds the prompt and nothing else. *)
Definition prompt_only (payload : json) : Prop :=
  exists prompt, payload = build_payload prompt None.

(** What rendering one scene may add to the history. *)
Definition render_event (e : Event) : Prop :=
  match e with
  | ELog (TtsStart _) | ELog (TtsDone _) | ELog (VeoStart _) | ELog (VeoDone _)
  | ELog (FrameExtracted _) | ELog (FrameExtractFailed _) | ELog (Traceback _) => True
  | ELog _ => False
  | EPrintPayload p => prompt_only p
  | EHttp (POST url p) => url = start_url /\ prompt_only p
  | EHttp (POST_stream url _) => url = (TTS_BASE ++ "/audio/speech")%string
  | EHttp (GET _) | EHttp (GET_stream _) => True
  | ESleep _ => True
  | EFfmpeg args => nth_error args 1 = Some "-sseof"
  | EWrite _ _ => True
  | EUnlink _ => False
  end.

(** What [process_scene] may add after its start record. *)
Definition body_event (e : Event) : Prop :=
  match e with
  | ELog (SceneSkipped _) | ELog (SceneError _ _) => True
  | _ => render_event e
  end.

(** What the loop over the scenes may add. *)
Definition loop_event (e : Event) : Prop :=
  match e with
  | ELog (SceneStarted _) | ELog (SceneSkippedErrors _) => True
  | _ => body_event e
  end.

(** What the scenes stage may add; its completion record counts at most
    two scenes. *)
Definition stage_event (e : Event) : Prop :=
  match e with
  | ELog (MissingScript _) | ELog NoScenes => True
  | ELog (Completed n) => (n <= 2)%nat
  | _ => loop_event e
  end.

(** The identifiers of the scenes of a list, for those that carry one. *)
Definition ids (scenes : list json) : list json :=
  flat_map (fun s => match dict_item "scene_id" s with Some i => [i] | None => [] end) scenes.

(** The scenes the stage gave up on, by the identifier logged. *)
Definition failures (evs : list Event) : list json :=
  flat_map (fun e => match e with ELog (SceneSkippedErrors i) => [i] | _ => [] end) evs.

(** The completion records. *)
Definition completions (evs : list Event) : list nat :=
  flat_map (fun e => match e with ELog (Completed n) => [n] | _ => [] end) evs.

(** Scene identifiers in ascending order, by insertion. *)
Fixpoint insert_id (x : Z) (l : list Z) : list Z :=
  match l with
  | [] => [x]
  | y :: r => if x <=? y then x :: l else y :: insert_id x r
  end.

Fixpoint ascending (l : list Z) : list Z :=
  match l with
  | [] => []
  | x :: r => insert_id x (ascending r)
  end.

(** An identifier that two digits can hold. *)
Definition two_digits (n : Z) : Prop := 0 <= n <= 99.

(** The concat lists may only ever hold these two contents. *)
Definition concat_event (videos audios : list string) (e : Event) : Prop :=
  match e with
  | EWrite p f =>
      (p = tmp_file /\ f = Text (concat_lines videos))
      \/ (p = audio_concat /\ f = Text (concat_lines audios))
  | EFfmpeg _ | EUnlink _ => True
  | ELog (FinalCreated _) | ELog ConcatError | ELog (Traceback _) => True
  | _ => False
  end.

Definition two_digit_ids : list Z := map Z.of_nat (seq 0 100).

Definition chat_url : string := (OPENAI_BASE ++ "/chat/completions")%string.

Definition everything : Event -> Prop := fun _ => True.

(** The prompt of the composition request of the script stage, for a
    topic, the saved search context and the compose template. *)
Definition compose_prompt {lib : PyLib} (topic ctx template : string) : string :=
  let final_prompt :=
    str_replace (str_replace template "{topic}" topic) "{context}" ctx in
  (final_prompt ++ nl ++ nl ++ "Here is the factual context gathered from the web:" ++ nl
   ++ take_chars 4000 ctx)%string.

(** The composition request. *)
Definition compose_request {lib : PyLib} (topic ctx template : string) : Request :=
  POST chat_url
    (JObj [("model", JStr "gemini-2.5-flash");
           ("messages", JArr [JObj [("role", JStr "user");
                                    ("content", JStr (compose_prompt topic ctx template))]]);
           ("temperature", JReal (4 # 10));
           ("max_tokens", JNum 10000)]).




Definition script_json (OUTPUT_DIR : string) : string :=
  path_join (path_join OUTPUT_DIR "scripts") "script.json".

(** Every GET at [url] fails: the exchange raises, or its body is not JSON. *)
Definition always_fails {env : Env} (url : string) : Prop :=
  forall tr, failure (http tr (GET url)) <> None \/ body_json (http tr (GET url)) = None.

(** [m] always comes back: it returns or raises, the loop budget of the
    model is never what stops it. *)
Definition returns {A} (m : M A) : Prop := forall w, result m w <> Diverge.

(** The reply to request [r] at history [tr] is a success that carries the
    JSON document [data]. *)
Definition answers {env : Env} (tr : list Event) (r : Request) (data : json) : Prop :=
  failure (http tr r) = None /\ body_json (http tr r) = Some data.

(** The payload [generate_text] sends. *)
Definition chat_payload (prompt model : string) (web_search : bool)
           (temperature : Q) (max_tokens : Z) : json :=
  JObj ([("model", JStr model);
         ("messages", JArr [JObj [("role", JStr "user"); ("content", JStr prompt)]]);
         ("temperature", JReal temperature);
         ("max_tokens", JNum max_tokens)]
        ++ (if web_search
            then [("web_search_options", JObj [("search_context_size", JStr "large")])]
            else [])).

(** The request [tts_speech] sends. *)
Definition tts_request (ssml : json) : Request :=
  POST_stream (TTS_BASE ++ "/audio/speech")%string
    (JObj [("model", JStr "gemini-2.5-flash-preview-tts");
           ("input", ssml);
           ("voice", JStr "Zephyr")]).

(** Passes through the poll loop, counted by their sleeps. *)
Definition passes (evs : list Event) : nat :=
  List.length (filter (fun e => match e with ESleep s => s =? POLL_INTERVAL | _ => false end) evs).

(** A scene that carries its three mandatory keys and an integer
    identifier. *)
Definition well_formed (scene scene_id ssml visual_desc : json) (n : Z) : Prop :=
  dict_item "scene_id" scene = Some scene_id
  /\ dict_item "ssml" scene = Some ssml
  /\ dict_item "visual_desc" scene = Some visual_desc
  /\ as_int scene_id = Some n.

(** Events that stay on the machine: no exchange with a remote service. *)
Definition local_event (e : Event) : Prop :=
  match e with
  | EHttp _ | ESleep _ => False
  | _ => True
  end.

(** [m] never takes the file at [p] away. *)
Definition keeps {A} (p : string) (m : M A) : Prop :=
  forall w, fs_exists p (fs w) = true -> fs_exists p (fs (exec m w)) = true.

(** When [m] returns, there is a file at [p]. *)
Definition leaves {A} (p : string) (m : M A) : Prop :=
  forall w a, result m w = Ret a -> fs_exists p (fs (exec m w)) = true.

(** What the scenes stage, run by the driver, may add to the history. *)
Definition scenes_run_event (e : Event) : Prop :=
  match e with
  | EHttp (POST url _) => url = start_url
  | EUnlink _ => False
  | EFfmpeg args => nth_error args 1 = Some "-sseof"
  | ELog (Phase1Search _) | ELog (Phase1Saved _) | ELog Phase2Start | ELog (Phase2Saved _)
  | ELog (FinalCreated _) | ELog ConcatError | ELog MissingSceneOutputs => False
  | _ => True
  end.

(* ================================================================== *)
(** The five steps of [concat_videos] that come before the removals. *)
Definition concat_steps {env : Env} (video_list audio_list : list string)
           (output_path : string) : M unit :=
  write_file tmp_file (Text (concat_lines video_list)) ;;
  run_ffmpeg ["ffmpeg"; "-f"; "concat"; "-safe"; "0";
              "-i"; tmp_file; "-c"; "copy"; merged] merged ;;
  write_file audio_concat (Text (concat_lines audio_list)) ;;
  run_ffmpeg ["ffmpeg"; "-f"; "concat"; "-safe"; "0";
              "-i"; audio_concat; "-c"; "copy"; merged_audio] merged_audio ;;
  run_ffmpeg ["ffmpeg"; "-i"; merged; "-i"; merged_audio;
              "-c:v"; "copy"; "-map"; "0:v:0"; "-map"; "1:a:0";
              "-shortest"; output_path] output_path.

(** Its four removals. *)
Definition concat_removals : M unit :=
  unlink tmp_file ;; unlink audio_concat ;; unlink merged ;; unlink merged_audio.

(** Anything but the removal of a file. *)
Definition not_removal (e : Event) : Prop :=
  match e with EUnlink _ => False | _ => True end.


(** ** Concrete services and stores *)

Definition empty_world : World := mkWorld [] 0 [].

Definition refused (ms : N) : Reply := mkReply ms (Some HTTPError) None [] true.

Definition pending_reply (ms : N) : Reply :=
  mkReply ms None (Some (JObj [("done", JBool false)])) [] true.

(** A service whose job stays pending and whose every exchange takes [ms]
    milliseconds; the media tool always succeeds and leaves [media]. *)
Definition pending_service (ms : N) : Env :=
  {| http := fun _ _ => pending_reply ms;
     ffmpeg := fun _ _ _ => mkFfReply Exit0 (Some "media");
     can_write := fun _ _ _ => true |}.

(** A status service that answers every third GET and refuses the two
    before it; every exchange takes [ms] milliseconds. *)
Definition flaky_status (ms : N) : Env :=
  {| http := fun tr _ =>
       if (Nat.modulo (attempts tr) 3 =? 2)%nat then pending_reply ms else refused ms;
     ffmpeg := fun _ _ _ => mkFfReply Exit0 (Some "media");
     can_write := fun _ _ _ => true |}.

(** A library instance for texts that carry no surrounding blanks, no
    placeholders and no code fence: on such texts [strip], [format] and
    [replace] return their argument.  The one JSON text it parses is the
    empty array. *)
Definition plain_lib : PyLib :=
  {| str_replace := fun s _ _ => s;
     str_replace_first := fun s _ _ => s;
     str_strip := fun s => s;
     str_strip_chars := fun s _ => s;
     str_split := fun s _ => [s];
     str_contains := fun _ _ => false;
     str_format := fun t _ => inr t;
     json_loads := fun s => if (s =? "[]")%string then Some (JArr []) else None;
     json_dumps := fun _ => "";
     b64encode := fun s => s |}.

Definition scene (k : Z) : json :=
  JObj [("scene_id", JNum k);
        ("ssml", JStr ("narration " ++ fmt02d k));
        ("visual_desc", JStr ("visual " ++ fmt02d k));
        ("transition_hint", JStr "cut")].

Definition script5 : json := JArr [scene 1; scene 2; scene 3; scene 4; scene 5].

Definition ok_json (j : json) : Reply := mkReply 40 None (Some j) [] true.
Definition ok_stream (bytes : string) : Reply := mkReply 40 None None [bytes] true.
Definition http_error : Reply := mkReply 40 (Some HTTPError) None [] true.

Definition done_reply : json :=
  JObj [("done", JBool true);
        ("response",
         JObj [("generateVideoResponse",
                JObj [("generatedSamples",
                       JArr [JObj [("video",
                                    JObj [("uri", JStr "https://generativelanguage.googleapis.com/v1/files/1")])]])])])].

(** A completion whose text is the empty script. *)
Definition completion_reply : json :=
  JObj [("choices", JArr [JObj [("message", JObj [("content", JStr "[]")])]])].

Definition studio_http (r : Request) : Reply :=
  match r with
  | POST_stream _ payload =>
      match dict_item "input" payload with
      | Some (JStr "narration 03") => http_error
      | _ => ok_stream "mp3"
      end
  | POST url _ =>
      if (url =? OPENAI_BASE ++ "/chat/completions")%string
      then ok_json completion_reply
      else ok_json (JObj [("name", JStr "operations/1")])
  | GET _ => ok_json done_reply
  | GET_stream _ => ok_stream "mp4"
  end.

(** A studio in which every service works, except that the speech
    synthesis of scene 3 is refused. *)
Definition studio : Env :=
  {| http := fun _ r => studio_http r;
     ffmpeg := fun _ _ _ => mkFfReply Exit0 (Some "media");
     can_write := fun _ _ _ => true |}.

(** The same studio with a media tool that exits with an error and leaves
    nothing behind. *)
Definition broken_tool : Env :=
  {| http := fun _ r => studio_http r;
     ffmpeg := fun _ _ _ => mkFfReply ExitNonzero None;
     can_write := fun _ _ _ => true |}.

(** No network: every exchange fails. *)
Definition offline : Env :=
  {| http := fun _ _ => http_error;
     ffmpeg := fun _ _ _ => mkFfReply Exit0 (Some "media");
     can_write := fun _ _ _ => true |}.

Definition script_path5 : string := "/out/scripts/script.json".

Definition world5 : World :=
  mkWorld [(script_path5, Doc script5);
           ("prompts/scene_prompt.txt", Text "Continue the broadcast.")] 0 [].

(** A store in which scene 1 is already rendered. *)
Definition world_resume : World :=
  mkWorld [(audio_path "/out" 1, Text "mp3");
           (video_path "/out" 1, Text "mp4");
           (script_path5, Doc script5)] 0 [].

(** A store that lists scene 2 before scene 1. *)
Definition world_media : World :=
  mkWorld [(video_path "/out" 2, Text "mp4");
           (audio_path "/out" 2, Text "mp3");
           (video_path "/out" 1, Text "mp4");
           (audio_path "/out" 1, Text "mp3")] 0 [].

(** A store with the artifacts of scenes 11 and 100. *)
Definition world_hundred : World :=
  mkWorld [(video_path "/out" 11, Text "mp4");
           (audio_path "/out" 11, Text "mp3");
           (video_path "/out" 100, Text "mp4");
           (audio_path "/out" 100, Text "mp3")] 0 [].

(** A store in which the script already exists, next to the inputs of the
    script stage. *)
Definition world_script : World :=
  mkWorld [(script_json "/out", Doc script5);
           ("prompts/search_prompt.txt", Text "Find facts.");
           ("prompts/compose_prompt.txt", Text "Write the script.");
           ("/out/scripts/search_context.txt", Text "Facts.")] 0 [].

(** A gateway that answers every exchange with a success whose body is
    not JSON. *)
Definition garbled : Env :=
  {| http := fun _ _ => mkReply 40 None None [] true;
     ffmpeg := fun _ _ _ => mkFfReply Exit0 (Some "media");
     can_write := fun _ _ _ => true |}.

(** A video service that accepts the submission and hands out no name. *)
Definition nameless : Env :=
  {| http := fun _ _ => ok_json (JObj [("status", JStr "accepted")]);
     ffmpeg := fun _ _ _ => mkFfReply Exit0 (Some "media");
     can_write := fun _ _ _ => true |}.

Definition done_relative : list (string * json) :=
  [("done", JBool true);
   ("response",
    JObj [("generateVideoResponse",
           JObj [("generatedSamples",
                  JArr [JObj [("video", JObj [("uri", JStr "files/7")])]])])])].

(** A video service whose job is done at the first status query and whose
    download URI is already relative. *)
Definition relay : Env :=
  {| http := fun _ r =>
       match r with
       | POST _ _ | POST_stream _ _ => ok_json (JObj [("name", JStr "operations/7")])
       | GET _ => ok_json (JObj done_relative)
       | GET_stream _ => ok_stream "mp4"
       end;
     ffmpeg := fun _ _ _ => mkFfReply Exit0 (Some "media");
     can_write := fun _ _ _ => true |}.

(** A store that holds the last frame of scene 1. *)
Definition world_frame : World :=
  mkWorld [(frame_path "/out" 1, Text "png")] 0 [].

(** A script whose first scene has no narration. *)
Definition world_malformed : World :=
  mkWorld [(script_path5, Doc (JArr [JObj [("scene_id", JNum 1)]; scene 2]))] 0 [].

(** The prompts of the script stage, and no saved search context. *)
Definition world_prompts : World :=
  mkWorld [("prompts/search_prompt.txt", Text "Find facts.");
           ("prompts/compose_prompt.txt", Text "Write the script.")] 0 [].

(** The studio with a media tool that concatenates but fails at the final
    run, the one that joins picture and sound. *)
Definition fails_at_mux : Env :=
  {| http := fun _ r => studio_http r;
     ffmpeg := fun _ _ args =>
       if existsb (String.eqb "-shortest") args
       then mkFfReply ExitNonzero None else mkFfReply Exit0 (Some "media");
     can_write := fun _ _ _ => true |}.

(** The studio on a machine where the output directories were never
    created: no file can be opened for writing. *)
Definition no_directories : Env :=
  {| http := fun _ r => studio_http r;
     ffmpeg := fun _ _ _ => mkFfReply Exit0 (Some "media");
     can_write := fun _ _ _ => false |}.

(** The [relay] service on the same machine. *)
Definition relay_no_directories : Env :=
  {| http := http (Env := relay);
     ffmpeg := fun _ _ _ => mkFfReply Exit0 (Some "media");
     can_write := fun _ _ _ => false |}.

(** A completion as the service sends it: bookkeeping fields around two
    choices, the answer in the first. *)
Definition full_completion (first second : list (string * json)) : json :=
  JObj [("id", JStr "chatcmpl-1");
        ("object", JStr "chat.completion");
        ("choices",
         JArr [JObj [("index", JNum 0);
                     ("message", JObj (("role", JStr "assistant") :: first));
                     ("finish_reason", JStr "stop")];
               JObj [("index", JNum 1);
                     ("message", JObj (("role", JStr "assistant") :: second));
                     ("finish_reason", JStr "stop")]]);
        ("usage", JObj [("total_tokens", JNum 12)])].

(** A text service that answers with two choices, [[]] in the first. *)
Definition two_choices : Env :=
  {| http := fun _ _ =>
       ok_json (full_completion [("content", JStr "[]")] [("content", JStr "second")]);
     ffmpeg := fun _ _ _ => mkFfReply Exit0 (Some "media");
     can_write := fun _ _ _ => true |}.

(** A text service whose first choice has a null content and two parts. *)
Definition two_choices_parts : Env :=
  {| http := fun _ _ =>
       ok_json (full_completion
                  [("content", JNull);
                   ("parts", JArr [JObj [("type", JStr "text"); ("text", JStr "[]")];
                                   JObj [("type", JStr "text"); ("text", JStr "more")]])]
                  [("content", JStr "second")]);
     ffmpeg := fun _ _ _ => mkFfReply Exit0 (Some "media");
     can_write := fun _ _ _ => true |}.

(** A text service that answers in prose. *)
Definition prose_service : Env :=
  {| http := fun _ _ =>
       ok_json (full_completion [("content", JStr "Sorry, I cannot help.")] []);
     ffmpeg := fun _ _ _ => mkFfReply Exit0 (Some "media");
     can_write := fun _ _ _ => true |}.

(** The inputs of the script stage for a script kept in the working
    directory. *)
Definition world_bare : World :=
  mkWorld [("prompts/search_prompt.txt", Text "Find facts.");
           ("/search_context.txt", Text "Elsewhere.")] 0 [].

(* ================================================================== *)
(** ** Facts about the monad *)

Lemma bind_run {A B} (m : M A) (k : A -> M B) w :
  bind m k w =
  match m w with
  | (Ret a, w') => k a w'
  | (Exc e, w') => (Exc e, w')
  | (Diverge, w') => (Diverge, w')
  end.
Proof. reflexivity. Qed.

Lemma bind_ret {A B} (a : A) (k : A -> M B) w : bind (ret a) k w = k a w.
Proof. reflexivity. Qed.

Lemma bind_emit {B} e (k : unit -> M B) w :
  bind (emit e) k w = k tt (mkWorld (fs w) (clock w) (trace w ++ [e])).
Proof. reflexivity. Qed.

Lemma bind_log {B} m (k : unit -> M B) w :
  bind (log m) k w = k tt (mkWorld (fs w) (clock w) (trace w ++ [ELog m])).
Proof. reflexivity. Qed.

Lemma bind_exists {B} p (k : bool -> M B) w :
  bind (exists_ p) k w = k (fs_exists p (fs w)) w.
Proof. reflexivity. Qed.

Lemma bind_raise {A B} e (k : A -> M B) w : bind (raise e) k w = (Exc e, w).
Proof. reflexivity. Qed.

Ltac run :=
  repeat first
    [ rewrite bind_ret | rewrite bind_log | rewrite bind_emit
    | rewrite bind_exists | rewrite bind_raise ];
  cbn [fs clock trace].

Lemma appended_spec {A} (m : M A) w evs :
  trace (exec m w) = trace w ++ evs -> appended m w = evs.
Proof.
  intros E. unfold appended. rewrite E.
  rewrite skipn_app, skipn_all, Nat.sub_diag. reflexivity.
Qed.

(** The artifact store. *)

Lemma fs_exists_unlink_same p s : fs_exists p (fs_unlink p s) = false.
Proof.
  unfold fs_exists, fs_lookup, fs_unlink.
  induction s as [|[k f] s IH]; [reflexivity|].
  cbn [filter fst]. destruct (String.eqb_spec k p) as [->|Hne]; cbn [negb].
  - exact IH.
  - cbn [assoc]. destruct (String.eqb_spec p k) as [->|_]; [congruence|exact IH].
Qed.

Lemma fs_exists_unlink_absent p q s :
  fs_exists p s = false -> fs_exists p (fs_unlink q s) = false.
Proof.
  unfold fs_exists, fs_lookup, fs_unlink.
  induction s as [|[k f] s IH]; [reflexivity|].
  cbn [filter fst assoc]. destruct (String.eqb_spec p k) as [->|Hne]; [discriminate|].
  intros H. destruct (negb (k =? q)%string); [|exact (IH H)].
  cbn [assoc]. destruct (String.eqb_spec p k); [congruence|exact (IH H)].
Qed.

Lemma fs_exists_write p q f s :
  fs_exists p s = true -> fs_exists p (fs_write q f s) = true.
Proof.
  unfold fs_exists, fs_lookup, fs_write. cbn [assoc].
  destruct (p =? q)%string eqn:Epq; [reflexivity|].
  unfold fs_unlink. induction s as [|[k v] s IH]; [auto|].
  cbn [assoc filter fst].
  destruct (p =? k)%string eqn:Epk.
  - intros _. apply String.eqb_eq in Epk. subst k. rewrite Epq. cbn [negb assoc].
    rewrite String.eqb_refl. reflexivity.
  - intros H. destruct (negb (k =? q)%string); [cbn [assoc]; rewrite Epk|]; auto.
Qed.

Lemma fs_exists_written p f s : fs_exists p (fs_write p f s) = true.
Proof. unfold fs_exists, fs_lookup, fs_write. cbn [assoc]. rewrite String.eqb_refl. reflexivity. Qed.

(** Paths. *)

Lemma append_assoc_s (a b c : string) : ((a ++ b) ++ c = a ++ (b ++ c))%string.
Proof. induction a as [|x a IH]; [reflexivity|]. cbn. rewrite IH. reflexivity. Qed.

Lemma length_append_s (a b : string) :
  String.length (a ++ b)%string = (String.length a + String.length b)%nat.
Proof. induction a as [|c a IH]; [reflexivity|]. cbn. rewrite IH. reflexivity. Qed.

Lemma append_inv_head_s (p a b : string) : (p ++ a = p ++ b)%string -> a = b.
Proof. induction p as [|c p IH]; [auto|]. cbn. intros E. injection E as E. auto. Qed.

Lemma append_inv_tail_s (e : string) : forall a b : string, (a ++ e = b ++ e)%string -> a = b.
Proof.
  induction a as [|c a IH]; intros [|c' b] E; cbn in E.
  - reflexivity.
  - apply (f_equal String.length) in E. cbn in E. rewrite length_append_s in E. lia.
  - apply (f_equal String.length) in E. cbn in E. rewrite length_append_s in E. lia.
  - injection E as -> E. f_equal. apply IH. exact E.
Qed.

Lemma path_join_length d name :
  (String.length name <= String.length (path_join d name))%nat.
Proof.
  unfold path_join. destruct (_ || _); [lia|].
  destruct (d =? "/")%string; rewrite ?length_append_s; cbn [String.length]; lia.
Qed.

Lemma path_join_proper d name :
  (2 <= String.length d)%nat -> path_join d name = (d ++ "/" ++ name)%string.
Proof.
  destruct d as [|c [|c' r]]; cbn [String.length]; try lia. intros _.
  unfold path_join. cbn [String.eqb]. destruct (Ascii.eqb c "."), (Ascii.eqb c "/"); reflexivity.
Qed.

(** A file of a subdirectory of the output directory. *)
Lemma path_join_nested out_dir sub name :
  (2 <= String.length sub)%nat ->
  path_join (path_join out_dir sub) name = (path_join out_dir sub ++ "/" ++ name)%string.
Proof.
  intros H. apply path_join_proper. pose proof (path_join_length out_dir sub). lia.
Qed.

Lemma sorted_nil_iff l : sorted l = [] <-> l = [].
Proof.
  split; [|intros ->; reflexivity].
  destruct l as [|x r]; [reflexivity|]. cbn [sorted].
  destruct (sorted r) as [|y t]; cbn [insert_sorted]; [discriminate|].
  destruct (String.leb x y); discriminate.
Qed.

Lemma doubling_S b m : doubling b (S m) = b :: doubling (b * 2) m.
Proof.
  unfold doubling. simpl. f_equal; [lia|].
  rewrite <- seq_shift, map_map. apply map_ext. intros k.
  rewrite Nat2Z.inj_succ, Z.pow_succ_r by lia. lia.
Qed.

Lemma doubling_sorted m : forall b, 0 <= b -> Sorted Z.le (doubling b m).
Proof.
  induction m as [|m IH]; intros b Hb.
  - constructor.
  - rewrite doubling_S. constructor; [apply IH; lia|].
    destruct m; [constructor|]. rewrite doubling_S. constructor. lia.
Qed.

(* ================================================================== *)
(** ** The transport layer *)

Section TransportFacts.
Context {env : Env}.

(** What the retry loop leaves in the history. *)
Lemma get_json_loop_history url retries todo :
  forall attempt backoff w,
  exists evs m,
    trace (exec (get_json_loop url retries todo attempt backoff) w) = trace w ++ evs
    /\ delays evs = doubling backoff m
    /\ (attempts evs <= todo)%nat
    /\ (m <= attempts evs)%nat.
Proof.
  induction todo as [|todo IH]; intros attempt backoff w.
  - exists [], 0%nat. cbn. rewrite app_nil_r. auto.
  - cbn [get_json_loop].
    unfold exec, try_except, bind, request. cbn [fst snd].
    set (rp := http (trace w) (GET url)).
    set (w1 := mkWorld (fs w) (clock w + Z.of_N (elapsed rp)) (trace w ++ [EHttp (GET url)])).
    assert (Hok : forall r : Res json * World,
               trace (snd r) = trace w1 ->
               exists evs m, trace (snd r) = trace w ++ evs
                 /\ delays evs = doubling backoff m
                 /\ (attempts evs <= S todo)%nat
                 /\ (m <= attempts evs)%nat).
    { intros r Hr. exists [EHttp (GET url)], 0%nat. rewrite Hr. cbn. repeat split; auto; lia. }
    assert (Hfail : forall e, exists evs m,
               trace (snd ((fun _ : Exn => if attempt <? retries
                        then sleep backoff;; get_json_loop url retries todo (attempt + 1) (backoff * 2)
                        else raise (AIRequestError (GetFailedAfter url retries))) e w1))
                 = trace w ++ evs
                 /\ delays evs = doubling backoff m
                 /\ (attempts evs <= S todo)%nat
                 /\ (m <= attempts evs)%nat).
    { intros e. cbn beta. destruct (attempt <? retries).
      - unfold bind, sleep. cbn [fst snd].
        set (w2 := mkWorld _ _ _).
        destruct (IH (attempt + 1) (backoff * 2) w2) as (evs & m & Ht & Hd & Ha & Hm).
        unfold exec in Ht.
        exists (EHttp (GET url) :: ESleep backoff :: evs), (S m).
        rewrite Ht. subst w2 w1. cbn [trace]. rewrite <- !app_assoc. cbn [app].
        split; [reflexivity|].
        split; [change (delays (EHttp (GET url) :: ESleep backoff :: evs))
                  with (backoff :: delays evs); rewrite Hd, doubling_S; reflexivity|].
        change (attempts (EHttp (GET url) :: ESleep backoff :: evs)) with (S (attempts evs)).
        lia.
      - exists [EHttp (GET url)], 0%nat. cbn. repeat split; auto; lia. }
    unfold json_of_reply. destruct (failure rp) as [e|].
    + exact (Hfail e).
    + unfold or_raise. destruct (body_json rp) as [j|].
      * apply (Hok (Ret j, w1)). reflexivity.
      * exact (Hfail JSONDecodeError).
Qed.

(** Time never runs backwards across the retry loop. *)
Lemma get_json_loop_clock url retries todo :
  forall attempt backoff w,
    0 <= backoff ->
    clock w <= clock (exec (get_json_loop url retries todo attempt backoff) w).
Proof.
  induction todo as [|todo IH]; intros attempt backoff w Hb.
  - cbn. lia.
  - cbn [get_json_loop].
    unfold exec, try_except, bind, request. cbn [fst snd].
    set (rp := http (trace w) (GET url)).
    set (w1 := mkWorld (fs w) (clock w + Z.of_N (elapsed rp)) (trace w ++ [EHttp (GET url)])).
    assert (H1 : clock w <= clock w1) by (subst w1; cbn [clock]; lia).
    assert (Hfail : forall e : Exn,
               clock w <= clock (snd ((fun _ : Exn => if attempt <? retries
                        then sleep backoff;; get_json_loop url retries todo (attempt + 1) (backoff * 2)
                        else raise (AIRequestError (GetFailedAfter url retries))) e w1))).
    { intros e. cbv beta. destruct (attempt <? retries); [|exact H1].
      unfold bind, sleep. cbn [fst snd].
      set (w2 := mkWorld _ _ _).
      assert (H2 : clock w1 <= clock w2) by (subst w2; cbn [clock]; lia).
      specialize (IH (attempt + 1) (backoff * 2) w2 ltac:(lia)).
      unfold exec in IH. lia. }
    unfold json_of_reply. destruct (failure rp) as [e|].
    + exact (Hfail e).
    + unfold or_raise. destruct (body_json rp) as [j|].
      * exact H1.
      * exact (Hfail JSONDecodeError).
Qed.

(** The retry loop always comes back. *)
Lemma get_json_loop_returns url retries todo :
  forall attempt backoff w,
    result (get_json_loop url retries todo attempt backoff) w <> Diverge.
Proof.
  induction todo as [|todo IH]; intros attempt backoff w.
  - cbn. discriminate.
  - cbn [get_json_loop].
    unfold result, try_except, bind, request. cbn [fst snd].
    set (rp := http (trace w) (GET url)).
    set (w1 := mkWorld (fs w) (clock w + Z.of_N (elapsed rp)) (trace w ++ [EHttp (GET url)])).
    assert (Hfail : forall e : Exn,
               fst ((fun _ : Exn => if attempt <? retries
                        then sleep backoff;; get_json_loop url retries todo (attempt + 1) (backoff * 2)
                        else raise (AIRequestError (GetFailedAfter url retries))) e w1) <> Diverge).
    { intros e. cbv beta. destruct (attempt <? retries); [|discriminate].
      unfold bind, sleep. cbn [fst snd]. apply IH. }
    unfold json_of_reply. destruct (failure rp) as [e|].
    + exact (Hfail e).
    + unfold or_raise. destruct (body_json rp) as [j|].
      * discriminate.
      * exact (Hfail JSONDecodeError).
Qed.

Lemma backoff_history_S url b a :
  backoff_history url b (S (S a))
  = EHttp (GET url) :: ESleep b :: backoff_history url (b * 2) (S a).
Proof. cbn [backoff_history]. rewrite doubling_S. reflexivity. Qed.

Lemma delays_backoff url b a : delays (backoff_history url b a) = doubling b (a - 1).
Proof.
  destruct a as [|k]; [reflexivity|].
  replace (S k - 1)%nat with k by lia. revert b.
  induction k as [|k IH]; intros b; [reflexivity|].
  rewrite backoff_history_S, doubling_S.
  change (delays (EHttp (GET url) :: ESleep b :: backoff_history url (b * 2) (S k)))
    with (b :: delays (backoff_history url (b * 2) (S k))).
  rewrite IH. reflexivity.
Qed.

Lemma attempts_backoff url b a : attempts (backoff_history url b a) = a.
Proof.
  destruct a as [|k]; [reflexivity|]. revert b.
  induction k as [|k IH]; intros b; [reflexivity|].
  rewrite backoff_history_S.
  change (attempts (EHttp (GET url) :: ESleep b :: backoff_history url (b * 2) (S k)))
    with (S (attempts (backoff_history url (b * 2) (S k)))).
  rewrite IH. reflexivity.
Qed.

(** One run of the retry loop, in full: the attempts made, the history,
    the time spent, and how it ended.  [todo] and [attempt] are in step
    the way [range(1, retries + 1)] keeps them. *)
Lemma get_json_loop_run url retries todo :
  forall attempt backoff w,
    attempt + Z.of_nat todo = retries + 1 ->
    exists a lat r w',
      get_json_loop url retries todo attempt backoff w = (r, w')
      /\ trace w' = trace w ++ backoff_history url backoff a
      /\ fs w' = fs w
      /\ (a <= todo)%nat /\ (todo <> 0 -> a <> 0)%nat
      /\ clock w' = clock w + lat + 1000 * total (doubling backoff (a - 1))
      /\ 0 <= lat
      /\ (forall D, (forall tr, Z.of_N (elapsed (http tr (GET url))) <= D) ->
                    lat <= Z.of_nat a * D)
      /\ match r with
         | Ret j => exists tr, failure (http tr (GET url)) = None
                               /\ body_json (http tr (GET url)) = Some j
         | Exc e => (todo = 0%nat /\ e = AIRequestError (GetFailed url))
                    \/ (a = todo /\ e = AIRequestError (GetFailedAfter url retries))
         | Diverge => False
         end.
Proof.
  induction todo as [|todo IH]; intros attempt backoff w Hsync.
  - exists 0%nat, 0, (Exc (AIRequestError (GetFailed url))), w.
    cbn [get_json_loop backoff_history]. rewrite app_nil_r.
    split; [reflexivity|]. split; [reflexivity|]. split; [reflexivity|].
    split; [lia|]. split; [lia|]. split; [cbn; lia|]. split; [lia|].
    split; [intros D _; lia|]. left. split; reflexivity.
  - cbn [get_json_loop]. unfold try_except. rewrite bind_run. unfold request at 1.
    set (rp := http (trace w) (GET url)).
    set (w1 := mkWorld (fs w) (clock w + Z.of_N (elapsed rp)) (trace w ++ [EHttp (GET url)])).
    assert (Hfail : forall e0 : Exn,
               exists a lat r w',
                 (if attempt <? retries
                  then sleep backoff ;;
                       get_json_loop url retries todo (attempt + 1) (backoff * 2)
                  else raise (AIRequestError (GetFailedAfter url retries))) w1 = (r, w')
                 /\ trace w' = trace w ++ backoff_history url backoff a
                 /\ fs w' = fs w
                 /\ (a <= S todo)%nat /\ (S todo <> 0 -> a <> 0)%nat
                 /\ clock w' = clock w + lat + 1000 * total (doubling backoff (a - 1))
                 /\ 0 <= lat
                 /\ (forall D, (forall tr, Z.of_N (elapsed (http tr (GET url))) <= D) ->
                               lat <= Z.of_nat a * D)
                 /\ match r with
                    | Ret j => exists tr, failure (http tr (GET url)) = None
                                          /\ body_json (http tr (GET url)) = Some j
                    | Exc e => (S todo = 0%nat /\ e = AIRequestError (GetFailed url))
                               \/ (a = S todo /\ e = AIRequestError (GetFailedAfter url retries))
                    | Diverge => False
                    end).
    { intros _. destruct (attempt <? retries) eqn:Hlt.
      - apply Z.ltb_lt in Hlt. rewrite bind_run. unfold sleep at 1. cbn [fs clock trace].
        set (w2 := mkWorld _ _ _).
        destruct (IH (attempt + 1) (backoff * 2) w2 ltac:(lia))
          as (a & lat & r & w' & Hrun & Ht & Hfs & Ha & Ha0 & Hc & Hl0 & Hl & Hr).
        assert (Hpos : a <> 0%nat) by (apply Ha0; lia).
        destruct a as [|k]; [congruence|].
        exists (S (S k)), (Z.of_N (elapsed rp) + lat), r, w'.
        split; [exact Hrun|].
        split; [rewrite Ht, backoff_history_S; subst w2 w1; cbn [trace];
                rewrite <- !app_assoc; reflexivity|].
        split; [rewrite Hfs; reflexivity|].
        split; [lia|]. split; [lia|].
        split.
        { rewrite Hc. subst w2 w1. cbn [clock].
          replace (S (S k) - 1)%nat with (S k) by lia.
          replace (S k - 1)%nat with k by lia.
          rewrite doubling_S. cbn [total fold_right]. fold (total (doubling (backoff * 2) k)).
          lia. }
        split; [lia|].
        split.
        { intros D HD. specialize (Hl D HD). pose proof (HD (trace w)) as H1. fold rp in H1.
          rewrite !Nat2Z.inj_succ in *. lia. }
        destruct r as [j|e|]; [exact Hr| |exact Hr].
        destruct Hr as [[H0 _]|[H1 H2]]; [lia|]. right. split; [lia|exact H2].
      - apply Z.ltb_ge in Hlt.
        exists 1%nat, (Z.of_N (elapsed rp)), (Exc (AIRequestError (GetFailedAfter url retries))), w1.
        split; [reflexivity|]. split; [reflexivity|]. split; [reflexivity|].
        split; [lia|]. split; [lia|].
        split; [subst w1; cbn; lia|]. split; [lia|].
        split; [intros D HD; pose proof (HD (trace w)) as H1; fold rp in H1; lia|].
        right. split; [lia|reflexivity]. }
    unfold json_of_reply. destruct (failure rp) as [e|] eqn:Hf.
    + exact (Hfail e).
    + unfold or_raise. destruct (body_json rp) as [j|] eqn:Hb.
      * exists 1%nat, (Z.of_N (elapsed rp)), (Ret j), w1.
        split; [reflexivity|]. split; [reflexivity|]. split; [reflexivity|].
        split; [lia|]. split; [lia|].
        split; [subst w1; cbn; lia|]. split; [lia|].
        split; [intros D HD; pose proof (HD (trace w)) as H1; fold rp in H1; lia|].
        exists (trace w). split; assumption.
      * exact (Hfail JSONDecodeError).
Qed.

(** C5. Whatever the service does, one call of [_get_json] makes at most
    [retries] attempts, and its history is exactly GET, sleep 2, GET,
    sleep 4, GET, ...: before each attempt after the first it sleeps, the
    first delay is 2 seconds and each delay doubles the one before, so the
    delays never decrease.  The call gives up only after the last attempt
    allowed. *)
Theorem get_json_backoff url retries w :
  0 <= retries ->
  let m := _get_json_with url retries in
  let evs := appended m w in
  evs = backoff_history url DEFAULT_BACKOFF (attempts evs)
  /\ delays evs = doubling DEFAULT_BACKOFF (attempts evs - 1)
  /\ Sorted Z.le (delays evs)
  /\ Z.of_nat (attempts evs) <= retries
  /\ (forall e, result m w = Exc e -> Z.of_nat (attempts evs) = retries).
Proof.
  intros Hr m evs.
  destruct (get_json_loop_run url retries (Z.to_nat retries) 1 DEFAULT_BACKOFF w ltac:(lia))
    as (a & lat & r & w' & Hrun & Ht & _ & Ha & Ha0 & _ & _ & _ & Hres).
  assert (E : evs = backoff_history url DEFAULT_BACKOFF a).
  { apply appended_spec. unfold exec, m, _get_json_with. rewrite Hrun. exact Ht. }
  rewrite E, attempts_backoff, delays_backoff.
  split; [reflexivity|]. split; [reflexivity|].
  split; [apply doubling_sorted; unfold DEFAULT_BACKOFF; lia|].
  split; [lia|].
  intros e. unfold result, m, _get_json_with. rewrite Hrun. cbn [fst]. intros Hx.
  subst r. destruct Hres as [[H0 _]|[H1 _]]; [|lia].
  assert (a = 0%nat) by lia. lia.
Qed.

End TransportFacts.

(* ================================================================== *)
(** ** The poll loop *)

Section PollFacts.
Context {env : Env}.

(** A status query of a job that is still running. *)
Lemma get_json_pending op_url D w :
  never_done op_url D ->
  exists kvs d,
    _get_json op_url w
    = (Ret (JObj kvs), mkWorld (fs w) (clock w + d) (trace w ++ [EHttp (GET op_url)]))
    /\ truthy (done_field kvs) = false /\ 0 <= d <= D.
Proof.
  intros H. destruct (H (trace w)) as (Hf & (kvs & Hb & Hd) & He).
  exists kvs, (Z.of_N (elapsed (http (trace w) (GET op_url)))).
  split; [|split; [exact Hd|lia]].
  unfold _get_json, _get_json_with.
  change (Z.to_nat DEFAULT_RETRIES) with 3%nat. cbn [get_json_loop].
  unfold try_except, bind, request, json_of_reply.
  rewrite Hf, Hb. reflexivity.
Qed.

(** While the job is pending the loop ends by the timeout check, and the
    check fires at most one pass after the deadline. *)
Lemma poll_loop_times_out op_url D T start :
  never_done op_url D ->
  forall budget w,
    1000 * T < (clock w - start) + 5000 * Z.of_nat budget ->
    clock w - start <= 1000 * T + 5000 + D ->
    exists n w',
      poll_loop (S budget) op_url start T w = (Exc (AIRequestError TimedOut), w')
      /\ fs w' = fs w
      /\ trace w' = trace w ++ rounds op_url n
      /\ (n <= budget)%nat
      /\ 1000 * T < clock w' - start <= 1000 * T + 5000 + D.
Proof.
  intros Hnd. induction budget as [|budget IH]; intros w Hlow Hup.
  - exists 0%nat, w. cbn [poll_loop]. rewrite bind_run. unfold now.
    replace (clock w - start >? 1000 * T) with true by (symmetry; apply Z.gtb_lt; lia).
    unfold rounds. cbn [repeat List.concat]. rewrite app_nil_r.
    repeat split; try lia.
  - change (poll_loop (S (S budget)) op_url start T w)
      with ((t <- now ;;
             if t - start >? 1000 * T then raise (AIRequestError TimedOut)
             else
               data <- _get_json op_url ;;
               match data with
               | JObj kvs =>
                   if truthy (match assoc "done" kvs with Some d => d | None => JNull end)
                   then or_raise (video_uri data) (AIRequestError MissingVideoURI)
                   else sleep POLL_INTERVAL ;; poll_loop (S budget) op_url start T
               | _ => raise AttributeError
               end) w).
    rewrite bind_run. unfold now.
    destruct (clock w - start >? 1000 * T) eqn:Hc.
    + apply Z.gtb_lt in Hc. exists 0%nat, w.
      unfold rounds. cbn [repeat List.concat]. rewrite app_nil_r.
      repeat split; try lia.
    + assert (Hle : clock w - start <= 1000 * T).
      { destruct (Z.gtb_spec (clock w - start) (1000 * T)); [discriminate|lia]. }
      destruct (get_json_pending op_url D w Hnd) as (kvs & d & Hg & Hd & Hdd).
      rewrite bind_run, Hg. fold (done_field kvs). rewrite Hd.
      rewrite bind_run. unfold sleep at 1.
      set (w2 := mkWorld _ _ _).
      destruct (IH w2) as (n & w' & Hp & Hfs & Htr & Hn & Hclk).
      { subst w2. cbn [clock]. unfold POLL_INTERVAL. lia. }
      { subst w2. cbn [clock]. unfold POLL_INTERVAL. lia. }
      exists (S n), w'. rewrite Hp.
      split; [reflexivity|]. split; [rewrite Hfs; reflexivity|].
      split; [|split; [lia|exact Hclk]].
      rewrite Htr. subst w2. cbn [trace]. unfold rounds. cbn [repeat List.concat].
      rewrite <- !app_assoc. reflexivity.
Qed.

(** The loop budget is never what ends the loop. *)
Lemma poll_loop_total op_url T start :
  forall budget w,
    1000 * T < (clock w - start) + 5000 * Z.of_nat budget ->
    result (poll_loop (S budget) op_url start T) w <> Diverge.
Proof.
  induction budget as [|budget IH]; intros w Hlow.
  - unfold result. cbn [poll_loop]. rewrite bind_run. unfold now.
    replace (clock w - start >? 1000 * T) with true by (symmetry; apply Z.gtb_lt; lia).
    discriminate.
  - unfold result.
    change (poll_loop (S (S budget)) op_url start T w)
      with ((t <- now ;;
             if t - start >? 1000 * T then raise (AIRequestError TimedOut)
             else
               data <- _get_json op_url ;;
               match data with
               | JObj kvs =>
                   if truthy (match assoc "done" kvs with Some d => d | None => JNull end)
                   then or_raise (video_uri data) (AIRequestError MissingVideoURI)
                   else sleep POLL_INTERVAL ;; poll_loop (S budget) op_url start T
               | _ => raise AttributeError
               end) w).
    rewrite bind_run. unfold now.
    destruct (clock w - start >? 1000 * T) eqn:Hc; [discriminate|].
    rewrite bind_run.
    pose proof (get_json_loop_returns op_url DEFAULT_RETRIES (Z.to_nat DEFAULT_RETRIES) 1 DEFAULT_BACKOFF w) as Hr.
    pose proof (get_json_loop_clock op_url DEFAULT_RETRIES (Z.to_nat DEFAULT_RETRIES) 1 DEFAULT_BACKOFF w
                  ltac:(unfold DEFAULT_BACKOFF; lia)) as Hk.
    unfold result, exec in Hr, Hk. fold (_get_json_with op_url DEFAULT_RETRIES) in Hr, Hk.
    fold (_get_json op_url) in Hr, Hk.
    destruct (_get_json op_url w) as [[data|e|] w1]; cbn [fst snd] in Hr, Hk.
    + destruct data; try discriminate.
      destruct (truthy _).
      * unfold or_raise. destruct (video_uri _); discriminate.
      * rewrite bind_run. unfold sleep at 1. apply IH. cbn [clock]. unfold POLL_INTERVAL. lia.
    + discriminate.
    + congruence.
Qed.

(** [_poll_until_done] always comes back, whatever the service does. *)
Lemma poll_until_done_total operation_name T w :
  result (_poll_until_done_within operation_name T) w <> Diverge.
Proof.
  unfold result, _poll_until_done_within. rewrite bind_run. unfold now.
  unfold poll_budget. replace (Z.to_nat (T / POLL_INTERVAL) + 2)%nat
    with (S (S (Z.to_nat (T / POLL_INTERVAL)))) by lia.
  apply poll_loop_total. unfold POLL_INTERVAL.
  destruct (Z.le_gt_cases 0 T) as [HT|HT].
  - rewrite Nat2Z.inj_succ, Z2Nat.id by (apply Z.div_pos; lia).
    pose proof (Z.mul_succ_div_gt T 5 ltac:(lia)). lia.
  - lia.
Qed.

(** One status query of a job that never reports done. *)
Lemma get_json_status op_url D w :
  pending_job op_url D ->
  exists a r w',
    _get_json op_url w = (r, w')
    /\ trace w' = trace w ++ backoff_history op_url DEFAULT_BACKOFF a
    /\ fs w' = fs w
    /\ (1 <= a <= 3)%nat
    /\ clock w <= clock w' <= clock w + 3 * D + 6000
    /\ match r with
       | Ret (JObj kvs) => truthy (done_field kvs) = false
       | Ret _ => True
       | Exc e => e = AIRequestError (GetFailedAfter op_url DEFAULT_RETRIES)
       | Diverge => False
       end.
Proof.
  intros Hp.
  assert (HD : forall tr, Z.of_N (elapsed (http tr (GET op_url))) <= D)
    by (intros tr; apply (Hp tr)).
  assert (H0 : 0 <= D) by (specialize (HD []); lia).
  destruct (get_json_loop_run op_url DEFAULT_RETRIES (Z.to_nat DEFAULT_RETRIES) 1
              DEFAULT_BACKOFF w ltac:(reflexivity))
    as (a & lat & r & w' & Hrun & Ht & Hfs & Ha & Ha0 & Hc & Hl0 & Hl & Hres).
  change (Z.to_nat DEFAULT_RETRIES) with 3%nat in *.
  specialize (Hl D HD). specialize (Ha0 ltac:(discriminate)).
  exists a, r, w'. split; [exact Hrun|]. split; [exact Ht|]. split; [exact Hfs|].
  split; [lia|]. split.
  - rewrite Hc. destruct a as [|[|[|[|a]]]]; try lia;
      match goal with |- context [total ?l] => set (t := total l); vm_compute in t; subst t end;
      lia.
  - destruct r as [j|e|]; [|destruct Hres as [[H _]|[_ H]]; [discriminate|exact H]|exact Hres].
    destruct j; try exact I. destruct Hres as (tr & Hf & Hb). exact (proj2 (Hp tr) _ Hf Hb).
Qed.

(** The poll loop on a job that never reports done: it ends with an
    exception, at most one pass after the deadline. *)
Lemma poll_loop_pending op_url D T start :
  pending_job op_url D ->
  forall budget w,
    1000 * T < (clock w - start) + 5000 * Z.of_nat budget ->
    clock w - start <= 1000 * T + 5000 + 6000 + 3 * D ->
    exists e w' qs last,
      poll_loop (S budget) op_url start T w = (Exc e, w')
      /\ (e = AIRequestError TimedOut
          \/ e = AIRequestError (GetFailedAfter op_url DEFAULT_RETRIES)
          \/ e = AttributeError)
      /\ trace w' = trace w ++ poll_history op_url qs last
      /\ Forall (fun a => 1 <= a <= 3)%nat qs
      /\ (last = [] \/ exists a, (1 <= a <= 3)%nat
                                /\ last = backoff_history op_url DEFAULT_BACKOFF a)
      /\ (e = AIRequestError TimedOut -> 1000 * T < clock w' - start)
      /\ clock w' - start <= 1000 * T + 5000 + 6000 + 3 * D.
Proof.
  intros Hp. induction budget as [|budget IH]; intros w Hlow Hup.
  - exists (AIRequestError TimedOut), w, [], [].
    cbn [poll_loop]. rewrite bind_run. unfold now.
    replace (clock w - start >? 1000 * T) with true by (symmetry; apply Z.gtb_lt; lia).
    unfold poll_history. cbn [flat_map app]. rewrite app_nil_r.
    split; [reflexivity|]. split; [auto|]. split; [reflexivity|]. split; [constructor|].
    split; [auto|]. split; [intros _; lia|lia].
  - change (poll_loop (S (S budget)) op_url start T w)
      with ((t <- now ;;
             if t - start >? 1000 * T then raise (AIRequestError TimedOut)
             else
               data <- _get_json op_url ;;
               match data with
               | JObj kvs =>
                   if truthy (match assoc "done" kvs with Some d => d | None => JNull end)
                   then or_raise (video_uri data) (AIRequestError MissingVideoURI)
                   else sleep POLL_INTERVAL ;; poll_loop (S budget) op_url start T
               | _ => raise AttributeError
               end) w).
    rewrite bind_run. unfold now.
    destruct (clock w - start >? 1000 * T) eqn:Hc.
    + apply Z.gtb_lt in Hc. exists (AIRequestError TimedOut), w, [], [].
      unfold poll_history. cbn [flat_map app]. rewrite app_nil_r.
      split; [reflexivity|]. split; [auto|]. split; [reflexivity|]. split; [constructor|].
      split; [auto|]. split; [intros _; lia|lia].
    + assert (Hle : clock w - start <= 1000 * T).
      { destruct (Z.gtb_spec (clock w - start) (1000 * T)); [discriminate|lia]. }
      destruct (get_json_status op_url D w Hp) as (a & r & w1 & Hg & Ht1 & Hfs1 & Ha & Hc1 & Hr).
      rewrite bind_run, Hg.
      assert (Hstop : forall e,
                 e = AIRequestError (GetFailedAfter op_url DEFAULT_RETRIES) \/ e = AttributeError ->
                 exists e' w' qs last,
                   (Exc e, w1) = (@Exc json e', w')
                   /\ (e' = AIRequestError TimedOut
                       \/ e' = AIRequestError (GetFailedAfter op_url DEFAULT_RETRIES)
                       \/ e' = AttributeError)
                   /\ trace w' = trace w ++ poll_history op_url qs last
                   /\ Forall (fun a => 1 <= a <= 3)%nat qs
                   /\ (last = [] \/ exists a, (1 <= a <= 3)%nat
                                             /\ last = backoff_history op_url DEFAULT_BACKOFF a)
                   /\ (e' = AIRequestError TimedOut -> 1000 * T < clock w' - start)
                   /\ clock w' - start <= 1000 * T + 5000 + 6000 + 3 * D).
      { intros e He. exists e, w1, [], (backoff_history op_url DEFAULT_BACKOFF a).
        split; [reflexivity|]. split; [tauto|]. split; [exact Ht1|]. split; [constructor|].
        split; [right; exists a; auto|].
        split; [destruct He as [->| ->]; discriminate|lia]. }
      destruct r as [data|e|]; [|subst e; apply Hstop; auto|contradiction].
      destruct data as [ | | | | | |kvs]; try (apply Hstop; auto).
      fold (done_field kvs). rewrite Hr.
      rewrite bind_run. unfold sleep at 1.
      set (w2 := mkWorld _ _ _).
      destruct (IH w2) as (e & w' & qs & last & Hrun & He & Ht & Hqs & Hlast & Hto & Hbound).
      { subst w2. cbn [clock]. unfold POLL_INTERVAL. lia. }
      { subst w2. cbn [clock]. unfold POLL_INTERVAL. lia. }
      exists e, w', (a :: qs), last.
      split; [exact Hrun|]. split; [exact He|].
      split.
      { rewrite Ht. subst w2. cbn [trace]. rewrite Ht1. unfold poll_history.
        cbn [flat_map]. rewrite <- !app_assoc. reflexivity. }
      split; [constructor; [exact Ha|exact Hqs]|].
      split; [exact Hlast|]. split; [exact Hto|exact Hbound].
Qed.

(** C4 (amended). For a job that never reports done, whose status
    exchanges each take at most [D] milliseconds, polling never goes on
    for ever: it ends with an exception no later than [timeout_sec] plus
    one more pass, that is the poll interval, the 2 s and 4 s retry sleeps
    of one status query and its three exchanges.  The exception is the
    timeout error, raised only after the deadline, unless a status query
    fails three times in a row or answers with something that is not a
    dictionary.  The history is a sequence of passes, each one status
    query (one to three GETs with the backoff between them) followed by
    one sleep of the fixed interval.  When every status query is answered
    at the first attempt, the error is the timeout, every pass is one GET
    and one sleep, and the bound is [timeout_sec + poll_interval + D]. *)
Theorem poll_timeout_bound operation_name T D w :
  0 <= T ->
  pending_job (base ++ "/" ++ operation_name)%string D ->
  let op_url := (base ++ "/" ++ operation_name)%string in
  let m := _poll_until_done_within operation_name T in
  let spent := clock (exec m w) - clock w in
  (exists e, result m w = Exc e
             /\ (e = AIRequestError TimedOut
                 \/ e = AIRequestError (GetFailedAfter op_url DEFAULT_RETRIES)
                 \/ e = AttributeError)
             /\ (e = AIRequestError TimedOut -> 1000 * T < spent))
  /\ spent <= 1000 * T + 1000 * POLL_INTERVAL + 6000 + 3 * D
  /\ (exists qs last,
        appended m w = poll_history op_url qs last
        /\ Forall (fun a => 1 <= a <= 3)%nat qs
        /\ (last = [] \/ exists a, (1 <= a <= 3)%nat
                                  /\ last = backoff_history op_url DEFAULT_BACKOFF a))
  /\ (never_done op_url D ->
      result m w = Exc (AIRequestError TimedOut)
      /\ (exists n, appended m w = rounds op_url n)
      /\ 1000 * T < spent <= 1000 * T + 1000 * POLL_INTERVAL + D).
Proof.
  intros HT Hp op_url m spent.
  assert (H0 : 0 <= D) by (destruct (Hp []) as [He _]; lia).
  assert (Hbudget : 1000 * T
                    < clock w - clock w + 5000 * Z.of_nat (S (Z.to_nat (T / POLL_INTERVAL)))).
  { unfold POLL_INTERVAL. rewrite Nat2Z.inj_succ, Z2Nat.id by (apply Z.div_pos; lia).
    pose proof (Z.mul_succ_div_gt T 5 ltac:(lia)). lia. }
  assert (Hm : m w = poll_loop (S (S (Z.to_nat (T / POLL_INTERVAL)))) op_url (clock w) T w).
  { unfold m, _poll_until_done_within. rewrite bind_run. unfold now.
    unfold poll_budget. replace (Z.to_nat (T / POLL_INTERVAL) + 2)%nat
      with (S (S (Z.to_nat (T / POLL_INTERVAL)))) by lia. reflexivity. }
  destruct (poll_loop_pending op_url D T (clock w) Hp (S (Z.to_nat (T / POLL_INTERVAL))) w
              Hbudget ltac:(lia))
    as (e & w' & qs & last & Hrun & He & Ht & Hqs & Hlast & Hto & Hbound).
  assert (Hw : exec m w = w') by (unfold exec; rewrite Hm, Hrun; reflexivity).
  assert (Hr : result m w = Exc e) by (unfold result; rewrite Hm, Hrun; reflexivity).
  unfold spent. rewrite Hw.
  split; [exists e; auto|].
  split; [unfold POLL_INTERVAL; lia|].
  split.
  { exists qs, last. split; [|split; assumption].
    apply appended_spec. rewrite Hw. exact Ht. }
  intros Hnd.
  destruct (poll_loop_times_out op_url D T (clock w) Hnd (S (Z.to_nat (T / POLL_INTERVAL))) w
              Hbudget ltac:(lia))
    as (n & w'' & Hrun' & _ & Ht' & _ & Hclk).
  rewrite Hrun in Hrun'. injection Hrun' as -> <-.
  split; [exact Hr|]. split.
  - exists n. apply appended_spec. rewrite Hw. exact Ht'.
  - unfold POLL_INTERVAL. lia.
Qed.

End PollFacts.

(** *** The bound on concrete services *)

Lemma poll_timeout_bound_witness :
  let op_url := (base ++ "/" ++ "operations/7")%string in
  let m := _poll_until_done_within (env := flaky_status 100) "operations/7" 600 in
  let spent := clock (exec m empty_world) - clock empty_world in
  let m1 := _poll_until_done_within (env := pending_service 1000) "operations/7" 600 in
  let spent1 := clock (exec m1 empty_world) - clock empty_world in
  ((exists e, result m empty_world = Exc e
              /\ (e = AIRequestError TimedOut
                  \/ e = AIRequestError (GetFailedAfter op_url DEFAULT_RETRIES)
                  \/ e = AttributeError)
              /\ (e = AIRequestError TimedOut -> 1000 * 600 < spent))
   /\ spent <= 1000 * 600 + 1000 * POLL_INTERVAL + 6000 + 3 * 100
   /\ (exists qs last,
         appended m empty_world = poll_history op_url qs last
         /\ Forall (fun a => 1 <= a <= 3)%nat qs
         /\ (last = [] \/ exists a, (1 <= a <= 3)%nat
                                   /\ last = backoff_history op_url DEFAULT_BACKOFF a)))
  /\ (never_done (env := pending_service 1000) op_url 1000
      /\ result m1 empty_world = Exc (AIRequestError TimedOut)
      /\ (exists n, appended m1 empty_world = rounds op_url n)
      /\ 1000 * 600 < spent1 <= 1000 * 600 + 1000 * POLL_INTERVAL + 1000).
Proof.
  cbv zeta. split.
  - destruct (poll_timeout_bound (env := flaky_status 100) "operations/7" 600 100 empty_world)
      as (He & Hb & Hh & _).
    + lia.
    + intros tr. split.
      * cbn. destruct (_ =? _)%nat; cbn; lia.
      * intros kvs. cbn. destruct (_ =? _)%nat; cbn; [|discriminate].
        intros _ E. injection E as <-. reflexivity.
    + split; [exact He|]. split; [exact Hb|exact Hh].
  - assert (Hn : never_done (env := pending_service 1000)
                   (base ++ "/" ++ "operations/7")%string 1000).
    { intros tr. cbn. split; [reflexivity|]. split; [|lia].
      eexists. split; reflexivity. }
    split; [exact Hn|].
    destruct (poll_timeout_bound (env := pending_service 1000) "operations/7" 600 1000
                empty_world) as (_ & _ & _ & Hs).
    + lia.
    + intros tr. split; [cbn; lia|].
      intros kvs _ E. cbn in E. injection E as <-. reflexivity.
    + exact (Hs Hn).
Defined.

(** C4 as stated fails.  When each status query takes one second, the
    timeout error of the default 600 s budget is raised 606 s after polling
    began, later than [timeout_sec + poll_interval] = 605 s.  When each
    status query is answered at its third attempt only, a pass is three
    GETs and the sleeps 2, 4 and 5, and with exchanges of a tenth of a
    second the timeout comes after 610.2 s. *)
Lemma poll_timeout_later_than_interval :
  let m := _poll_until_done (env := pending_service 1000) "operations/7" in
  let m' := _poll_until_done (env := flaky_status 100) "operations/7" in
  never_done (env := pending_service 1000) (base ++ "/" ++ "operations/7")%string 1000
  /\ result m empty_world = Exc (AIRequestError TimedOut)
  /\ clock (exec m empty_world) - clock empty_world = 606000
  /\ 1000 * (600 + POLL_INTERVAL) < 606000
  /\ result m' empty_world = Exc (AIRequestError TimedOut)
  /\ clock (exec m' empty_world) - clock empty_world = 610200
  /\ attempts (appended m' empty_world) = 162%nat
  /\ delays (firstn 8 (appended m' empty_world)) = [2; 4; 5; 2].
Proof.
  split.
  - intros tr. cbn. split; [reflexivity|]. split; [|lia].
    eexists. split; reflexivity.
  - split; [vm_compute; reflexivity|]. split; [vm_compute; reflexivity|].
    split; [unfold POLL_INTERVAL; lia|].
    vm_compute. repeat split; reflexivity.
Qed.

(* ================================================================== *)
(** ** The stages *)

Section StageFacts.
Context {lib : PyLib} {env : Env}.

(** C1. A scene whose audio and video artifacts both exist is completed
    at once: the run returns the existing artifact paths, logs the start
    and the skip, sends nothing to any remote service, runs no media tool
    and leaves the store and the clock as they were. *)
Theorem process_scene_resumes scene prev_scene out_dir w scene_id ssml visual_desc n :
  dict_item "scene_id" scene = Some scene_id ->
  dict_item "ssml" scene = Some ssml ->
  dict_item "visual_desc" scene = Some visual_desc ->
  as_int scene_id = Some n ->
  fs_exists (audio_path out_dir n) (fs w) = true ->
  fs_exists (video_path out_dir n) (fs w) = true ->
  let m := process_scene scene prev_scene out_dir in
  result m w = Ret (Some (scene_paths out_dir n))
  /\ appended m w = [ELog (SceneStarted scene_id); ELog (SceneSkipped scene_id)]
  /\ remote_calls (appended m w) = []
  /\ tool_runs (appended m w) = []
  /\ fs (exec m w) = fs w
  /\ clock (exec m w) = clock w.
Proof.
  intros Hid Hssml Hvis Hn Ha Hv m.
  assert (E : m w = (Ret (Some (scene_paths out_dir n)),
                     mkWorld (fs w) (clock w)
                       (trace w ++ [ELog (SceneStarted scene_id); ELog (SceneSkipped scene_id)]))).
  { subst m. unfold process_scene.
    rewrite Hid, Hssml, Hvis. cbn [or_raise]. run.
    rewrite Hn. cbn [or_raise]. run.
    unfold try_except. run. cbn [scene_paths audio video].
    rewrite Ha, Hv. cbn [andb]. run. unfold ret.
    rewrite <- app_assoc. reflexivity. }
  assert (Happ : appended m w = [ELog (SceneStarted scene_id); ELog (SceneSkipped scene_id)]).
  { apply appended_spec. unfold exec. rewrite E. reflexivity. }
  unfold result, exec. rewrite Happ, E. cbn. repeat split; reflexivity.
Qed.

(** C7 (amended). With no video artifact, or no audio artifact, the concat
    stage stops at its precondition without raising anything: it records
    the missing-outputs error and returns normally, having run no media
    tool and touched no file. *)
Theorem concat_final_requires_artifacts out_dir w :
  glob (path_join out_dir "video") "scene_" ".mp4" (fs w) = []
  \/ glob (path_join out_dir "audio") "scene_" ".mp3" (fs w) = [] ->
  let m := concat_final out_dir in
  result m w = Ret tt
  /\ appended m w = [ELog MissingSceneOutputs]
  /\ tool_runs (appended m w) = []
  /\ fs (exec m w) = fs w.
Proof.
  intros H m.
  assert (E : m w = (Ret tt, mkWorld (fs w) (clock w) (trace w ++ [ELog MissingSceneOutputs]))).
  { subst m. unfold concat_final.
    destruct H as [H|H]; rewrite H; cbn [sorted].
    - reflexivity.
    - destruct (sorted _); reflexivity. }
  assert (Happ : appended m w = [ELog MissingSceneOutputs]).
  { apply appended_spec. unfold exec. rewrite E. reflexivity. }
  unfold result, exec. rewrite Happ, E. cbn. repeat split; reflexivity.
Qed.

End StageFacts.

(* ================================================================== *)
(** ** Rules for [emits] *)

Section EmitsRules.
Context {A B : Type} (P : Event -> Prop).

Lemma emits_silent (Q : A -> Prop) (m : M A) :
  (forall w, exec m w = w) ->
  (forall w a, result m w = Ret a -> Q a) ->
  emits P Q m.
Proof.
  intros Hs Hq w. exists []. rewrite Hs, app_nil_r.
  split; [reflexivity|]. split; [constructor|]. apply Hq.
Qed.

Lemma emits_ret (Q : A -> Prop) a : Q a -> emits P Q (ret a).
Proof.
  intros H. apply emits_silent; [reflexivity|].
  intros w a' E. injection E as <-. exact H.
Qed.

Lemma emits_raise (Q : A -> Prop) e : emits P Q (raise e).
Proof. apply emits_silent; [reflexivity|]. intros w a E. discriminate. Qed.

Lemma emits_diverge (Q : A -> Prop) : emits P Q diverge.
Proof. apply emits_silent; [reflexivity|]. intros w a E. discriminate. Qed.

Lemma emits_or_raise (Q : A -> Prop) o e :
  (forall a, o = Some a -> Q a) -> emits P Q (or_raise o e).
Proof.
  intros H. destruct o as [a|]; [apply emits_ret; auto|apply emits_raise].
Qed.

Lemma emits_lift (Q : A -> Prop) r :
  (forall a, r = inr a -> Q a) -> emits P Q (lift r).
Proof.
  intros H. destruct r as [e|a]; [apply emits_raise|apply emits_ret; auto].
Qed.

Lemma emits_bind (Q : A -> Prop) (R : B -> Prop) (m : M A) (k : A -> M B) :
  emits P Q m -> (forall a, Q a -> emits P R (k a)) -> emits P R (bind m k).
Proof.
  intros Hm Hk w. destruct (Hm w) as (evs & Ht & Hp & Hq).
  unfold exec, result in *. rewrite bind_run.
  destruct (m w) as [[a|e|] w1]; cbn [fst snd] in *.
  - destruct (Hk a (Hq a eq_refl) w1) as (evs2 & Ht2 & Hp2 & Hq2).
    unfold exec, result in *.
    exists (evs ++ evs2). rewrite Ht2, Ht, app_assoc.
    split; [reflexivity|]. split; [apply Forall_app; auto|exact Hq2].
  - exists evs. repeat split; auto. discriminate.
  - exists evs. repeat split; auto. discriminate.
Qed.

Lemma emits_try (Q : A -> Prop) (body : M A) (h : Exn -> M A) :
  emits P Q body -> (forall e, emits P Q (h e)) -> emits P Q (try_except body h).
Proof.
  intros Hb Hh w. destruct (Hb w) as (evs & Ht & Hp & Hq).
  unfold exec, result, try_except in *.
  destruct (body w) as [[a|e|] w1]; cbn [fst snd] in *.
  - exists evs. repeat split; auto.
  - destruct (Hh e w1) as (evs2 & Ht2 & Hp2 & Hq2).
    unfold exec, result in *.
    exists (evs ++ evs2). rewrite Ht2, Ht, app_assoc.
    split; [reflexivity|]. split; [apply Forall_app; auto|exact Hq2].
  - exists evs. repeat split; auto.
Qed.

End EmitsRules.

Section EmitsPrimitives.
Context (P : Event -> Prop).

Lemma emits_one {A} (Q : A -> Prop) (m : M A) e :
  (forall w, trace (exec m w) = trace w ++ [e]) ->
  (forall w a, result m w = Ret a -> Q a) ->
  P e -> emits P Q m.
Proof.
  intros Ht Hq Hp w. exists [e]. split; [apply Ht|]. split; [auto|apply Hq].
Qed.

Lemma emits_emit e : P e -> emits P any (emit e).
Proof. intros H. apply (emits_one any _ e); [reflexivity| exact (fun _ _ _ => I) | exact H]. Qed.

Lemma emits_log m : P (ELog m) -> emits P any (log m).
Proof. apply emits_emit. Qed.

Lemma emits_sleep s : P (ESleep s) -> emits P any (sleep s).
Proof. intros H. apply (emits_one any _ (ESleep s)); [reflexivity| exact (fun _ _ _ => I) | exact H]. Qed.

Lemma emits_write {env : Env} p f : P (EWrite p f) -> emits P any (write_file p f).
Proof.
  intros H. apply (emits_one any _ (EWrite p f)); [| exact (fun _ _ _ => I) | exact H].
  intros w. unfold exec, write_file. destruct (can_write _ _ _); reflexivity.
Qed.

Lemma emits_unlink p : P (EUnlink p) -> emits P any (unlink p).
Proof. intros H. apply (emits_one any _ (EUnlink p)); [reflexivity| exact (fun _ _ _ => I) | exact H]. Qed.

Lemma emits_now : emits P any now.
Proof. apply emits_silent; [reflexivity|exact (fun _ _ _ => I)]. Qed.

Lemma emits_exists p : emits P any (exists_ p).
Proof. apply emits_silent; [reflexivity|exact (fun _ _ _ => I)]. Qed.

Lemma emits_read_text {lib : PyLib} p : emits P any (read_text p).
Proof.
  apply emits_silent; [|exact (fun _ _ _ => I)].
  intros w. unfold exec, read_text. destruct (fs_lookup p (fs w)) as [[s|j]|]; reflexivity.
Qed.

Lemma emits_read_json {lib : PyLib} p : emits P any (read_json p).
Proof.
  apply emits_silent; [|exact (fun _ _ _ => I)].
  intros w. unfold exec, read_json.
  destruct (fs_lookup p (fs w)) as [[s|j]|]; try reflexivity.
  destruct (json_loads s); reflexivity.
Qed.

Lemma emits_request {env : Env} r : P (EHttp r) -> emits P any (request r).
Proof. intros H. apply (emits_one any _ (EHttp r)); [reflexivity| exact (fun _ _ _ => I) | exact H]. Qed.

Lemma emits_run_ffmpeg {env : Env} args out : P (EFfmpeg args) -> emits P any (run_ffmpeg args out).
Proof.
  intros H. apply (emits_one any _ (EFfmpeg args)); [| exact (fun _ _ _ => I) | exact H].
  intros w. unfold exec, run_ffmpeg. destruct (status _); reflexivity.
Qed.

End EmitsPrimitives.

Lemma bind_ret_eq {A B} (a : A) (k : A -> M B) : bind (ret a) k = k a.
Proof. reflexivity. Qed.

Lemma emits_seq {A B} (P : Event -> Prop) (R : B -> Prop) (m : M A) (k : A -> M B) :
  emits P any m -> (forall a, emits P R (k a)) -> emits P R (bind m k).
Proof. intros Hm Hk. apply (emits_bind P any); auto. Qed.

Ltac emits_tac :=
  lazymatch goal with
  | |- emits _ _ (bind _ _) => apply emits_seq; [emits_tac | intros ?; emits_tac]
  | |- emits _ _ (try_except _ _) => apply emits_try; [emits_tac | intros ?; emits_tac]
  | |- emits _ _ (ret _) => apply emits_ret; try exact I
  | |- emits _ _ (raise _) => apply emits_raise
  | |- emits _ _ diverge => apply emits_diverge
  | |- emits _ _ (or_raise _ _) => apply emits_or_raise; intros; try exact I
  | |- emits _ _ (lift _) => apply emits_lift; intros; try exact I
  | |- emits _ _ (log _) => apply emits_log; try exact I
  | |- emits _ _ (emit _) => apply emits_emit
  | |- emits _ _ (sleep _) => apply emits_sleep
  | |- emits _ _ (write_file _ _) => apply emits_write
  | |- emits _ _ (unlink _) => apply emits_unlink
  | |- emits _ _ now => apply emits_now
  | |- emits _ _ (exists_ _) => apply emits_exists
  | |- emits _ _ (read_text _) => apply emits_read_text
  | |- emits _ _ (read_json _) => apply emits_read_json
  | |- emits _ _ (request _) => apply emits_request
  | |- emits _ _ (run_ffmpeg _ _) => apply emits_run_ffmpeg
  | |- emits _ _ (if ?b then _ else _) => destruct b; emits_tac
  | |- emits _ _ (match ?x with _ => _ end) => destruct x; emits_tac
  | _ => idtac
  end.

Section EmitsUtils.
Context {lib : PyLib} {env : Env} (P : Event -> Prop).

Lemma emits_json_of_reply rp : emits P any (json_of_reply rp).
Proof. unfold json_of_reply. emits_tac. Qed.

Lemma emits_post_json url payload :
  P (EHttp (POST url payload)) -> emits P any (_post_json url payload).
Proof.
  intros H. unfold _post_json. emits_tac; [exact H|apply emits_json_of_reply].
Qed.

Lemma emits_get_json_loop url retries todo :
  P (EHttp (GET url)) -> (forall s, P (ESleep s)) ->
  forall attempt backoff, emits P any (get_json_loop url retries todo attempt backoff).
Proof.
  intros Hg Hs. induction todo as [|todo IH]; intros attempt backoff; cbn [get_json_loop].
  - apply emits_raise.
  - emits_tac; auto. apply emits_json_of_reply.
Qed.

Lemma emits_get_json url :
  P (EHttp (GET url)) -> (forall s, P (ESleep s)) -> emits P any (_get_json url).
Proof. intros. apply emits_get_json_loop; auto. Qed.

Lemma emits_poll_loop budget op_url start T :
  P (EHttp (GET op_url)) -> (forall s, P (ESleep s)) ->
  emits P any (poll_loop budget op_url start T).
Proof.
  intros Hg Hs. induction budget as [|budget IH]; cbn [poll_loop].
  - apply emits_diverge.
  - emits_tac; auto. apply emits_get_json; auto.
Qed.

Lemma emits_poll_until_done operation_name :
  (forall url, P (EHttp (GET url))) -> (forall s, P (ESleep s)) ->
  emits P any (_poll_until_done operation_name).
Proof.
  intros Hg Hs. unfold _poll_until_done, _poll_until_done_within.
  emits_tac. apply emits_poll_loop; auto.
Qed.

Lemma emits_stream_to_file r out :
  P (EHttp r) -> (forall f, P (EWrite out f)) -> emits P any (stream_to_file r out).
Proof. intros Hr Hw. unfold stream_to_file. emits_tac; auto. Qed.

Lemma emits_tts_speech ssml out :
  (forall p, P (EHttp (POST_stream (TTS_BASE ++ "/audio/speech")%string p))) ->
  (forall f, P (EWrite out f)) ->
  emits P any (tts_speech ssml out).
Proof. intros Hr Hw. unfold tts_speech. apply emits_stream_to_file; auto. Qed.

Lemma emits_start_job payload :
  P (EPrintPayload payload) -> P (EHttp (POST start_url payload)) ->
  emits P any (_start_job payload).
Proof.
  intros Hp Hr. unfold _start_job. emits_tac; auto. apply emits_post_json; auto.
Qed.

Lemma emits_download uri out :
  (forall url, P (EHttp (GET_stream url))) -> (forall f, P (EWrite out f)) ->
  emits P any (_download uri out).
Proof.
  intros Hr Hw. unfold _download. destruct uri; try apply emits_raise.
  apply emits_stream_to_file; auto.
Qed.

(** Without an image path the submission carries the prompt alone. *)
Lemma emits_generate_video_no_image prompt out :
  P (EPrintPayload (build_payload prompt None)) ->
  P (EHttp (POST start_url (build_payload prompt None))) ->
  (forall url, P (EHttp (GET url))) -> (forall s, P (ESleep s)) ->
  (forall url, P (EHttp (GET_stream url))) -> (forall f, P (EWrite out f)) ->
  emits P any (generate_video_with_image prompt out None).
Proof.
  intros Hp Hr Hg Hs Hd Hw. unfold generate_video_with_image.
  destruct (str_strip prompt =? "")%string; [apply emits_raise|].
  rewrite bind_ret_eq.
  emits_tac.
  - apply emits_start_job; auto.
  - apply emits_poll_until_done; auto.
  - apply emits_download; auto.
Qed.

End EmitsUtils.

(* ================================================================== *)
(** ** The scenes stage *)

Lemma emits_mono {A} (P P' : Event -> Prop) (Q : A -> Prop) (m : M A) :
  (forall e, P e -> P' e) -> emits P Q m -> emits P' Q m.
Proof.
  intros HP H w. destruct (H w) as (evs & Ht & Hp & Hq).
  exists evs. repeat split; auto. eapply Forall_impl; eauto.
Qed.

Lemma render_is_body e : render_event e -> body_event e.
Proof. destruct e as [[]| | | | | |]; cbn; auto. Qed.

Lemma body_is_loop e : body_event e -> loop_event e.
Proof. destruct e as [[]| | | | | |]; cbn; auto. Qed.

Lemma loop_is_stage e : loop_event e -> stage_event e.
Proof. destruct e as [[]| | | | | |]; cbn; auto; contradiction. Qed.

Lemma body_not_started evs : Forall body_event evs -> started evs = [].
Proof.
  induction 1 as [|e evs He _ IH]; [reflexivity|].
  cbn [started flat_map]. fold (started evs). rewrite IH, app_nil_r.
  destruct e as [[]| | | | | |]; cbn in He |- *; auto; contradiction.
Qed.

Section SceneFacts.
Context {lib : PyLib} {env : Env}.

Lemma emits_extract_last_frame v f : emits render_event any (extract_last_frame v f).
Proof.
  unfold extract_last_frame. emits_tac; cbn; auto.
Qed.

Lemma emits_render_scene scene_id ssml visual_desc hint n prev_scene out_dir :
  emits render_event any
    (render_scene scene_id ssml visual_desc hint n prev_scene out_dir).
Proof.
  unfold render_scene.
  apply emits_seq; [emits_tac|intros _].
  apply emits_seq; [apply emits_tts_speech; intros; cbn; auto|intros _].
  apply emits_seq; [emits_tac|intros _].
  apply (emits_bind _ (fun pi : string * option string => snd pi = None)).
  { destruct (n =? 1).
    - apply emits_ret. reflexivity.
    - apply emits_seq; [emits_tac|intros base_prompt].
      apply emits_seq; [emits_tac|intros prev_visual].
      apply emits_seq; [emits_tac|intros prompt].
      apply emits_seq; [emits_tac|intros image_ref].
      apply emits_ret. reflexivity. }
  intros [prompt image_ref] Hnone. cbn [fst snd] in *. subst image_ref.
  apply emits_seq; [emits_tac|intros _].
  rewrite bind_ret_eq.
  apply emits_seq.
  { apply emits_generate_video_no_image; intros; cbn; auto;
      try (split; [reflexivity|]); exists prompt; reflexivity. }
  intros _.
  apply emits_seq; [emits_tac|intros _].
  apply emits_seq; [apply emits_extract_last_frame|intros _].
  emits_tac.
Qed.

Lemma emits_scene_body scene_id ssml visual_desc hint n prev_scene out_dir :
  emits body_event any
    (try_except
       (a <- exists_ (audio (scene_paths out_dir n)) ;;
        v <- exists_ (video (scene_paths out_dir n)) ;;
        if a && v then
          log (SceneSkipped scene_id) ;;
          ret (Some (scene_paths out_dir n))
        else
          render_scene scene_id ssml visual_desc hint n prev_scene out_dir ;;
          ret (Some (scene_paths out_dir n)))
       (fun e =>
          log (SceneError scene_id e) ;;
          log (Traceback e) ;;
          ret None)).
Proof.
  apply emits_try.
  - apply emits_seq; [emits_tac|intros a].
    apply emits_seq; [emits_tac|intros v].
    destruct (a && v).
    + emits_tac.
    + apply emits_seq; [|intros _; emits_tac].
      apply (emits_mono render_event); [apply render_is_body|apply emits_render_scene].
  - intros e. emits_tac.
Qed.

Lemma started_app a b : started (a ++ b) = started a ++ started b.
Proof. unfold started. apply flat_map_app. Qed.

Lemma ids_length l : (List.length (ids l) <= List.length l)%nat.
Proof.
  induction l as [|s l IH]; [apply Nat.le_refl|].
  cbn [ids flat_map]. fold (ids l). rewrite length_app.
  destruct (dict_item "scene_id" s); cbn [List.length app]; lia.
Qed.

(** One scene: either the run stops before anything is recorded, or the
    history opens with the start record of that scene and goes on with
    events of its body. *)
Lemma process_scene_history scene prev_scene out_dir w :
  exists evs,
    trace (exec (process_scene scene prev_scene out_dir) w) = trace w ++ evs
    /\ ((evs = [] /\ exists e, result (process_scene scene prev_scene out_dir) w = Exc e)
        \/ (exists i rest,
              dict_item "scene_id" scene = Some i
              /\ evs = ELog (SceneStarted i) :: rest
              /\ Forall body_event rest)).
Proof.
  unfold exec, result, process_scene.
  destruct (dict_item "scene_id" scene) as [i|] eqn:Hi; cbn [or_raise];
    [|exists []; rewrite app_nil_r; split; [reflexivity|left; split; [reflexivity|eexists; reflexivity]]].
  destruct (dict_item "ssml" scene) as [ssml|]; cbn [or_raise];
    [|exists []; rewrite app_nil_r; split; [reflexivity|left; split; [reflexivity|eexists; reflexivity]]].
  destruct (dict_item "visual_desc" scene) as [vis|]; cbn [or_raise];
    [|exists []; rewrite app_nil_r; split; [reflexivity|left; split; [reflexivity|eexists; reflexivity]]].
  run.
  destruct (as_int i) as [n|]; cbn [or_raise];
    [|exists []; rewrite app_nil_r; split; [reflexivity|left; split; [reflexivity|eexists; reflexivity]]].
  run.
  set (w1 := mkWorld _ _ _).
  destruct (emits_scene_body i ssml vis
              (match dict_item "transition_hint" scene with Some h => h | None => JStr "" end)
              n prev_scene out_dir w1) as (rest & Ht & Hp & _).
  unfold exec in Ht.
  exists (ELog (SceneStarted i) :: rest). rewrite Ht. subst w1. cbn [trace].
  rewrite <- app_assoc. split; [reflexivity|].
  right. exists i, rest. repeat split; auto.
Qed.

Lemma scenes_loop_history out_dir l :
  forall generated prev_scene w,
  exists evs k,
    trace (exec (scenes_loop l generated prev_scene out_dir) w) = trace w ++ evs
    /\ Forall loop_event evs
    /\ started evs = firstn k (ids l)
    /\ (forall g, result (scenes_loop l generated prev_scene out_dir) w = Ret g ->
                  (List.length g <= List.length generated + List.length l)%nat).
Proof.
  induction l as [|scene l IH]; intros generated prev_scene w.
  - exists [], 0%nat. cbn. rewrite app_nil_r. repeat split; auto.
    intros g E. injection E as <-. lia.
  - cbn [scenes_loop].
    destruct (process_scene_history scene prev_scene out_dir w) as (evs1 & Ht1 & Hcase).
    unfold exec, result in *. rewrite bind_run.
    destruct (process_scene scene prev_scene out_dir w) as [[r|e|] w1]; cbn [fst snd] in *.
    + destruct Hcase as [[_ [e He]]|(i & rest & Hi & -> & Hrest)]; [discriminate|].
      assert (Hids : ids (scene :: l) = i :: ids l).
      { cbn [ids flat_map]. rewrite Hi. reflexivity. }
      assert (Hst : started (ELog (SceneStarted i) :: rest) = [i]).
      { change (started (ELog (SceneStarted i) :: rest)) with (i :: started rest).
        rewrite (body_not_started rest Hrest). reflexivity. }
      assert (Hloop : Forall loop_event (ELog (SceneStarted i) :: rest)).
      { constructor; [exact I|]. eapply Forall_impl; [apply body_is_loop|exact Hrest]. }
      destruct r as [paths|].
      * destruct (IH (generated ++ [paths]) (Some scene) w1) as (evs2 & k & Ht2 & Hp2 & Hs2 & Hg2).
        exists ((ELog (SceneStarted i) :: rest) ++ evs2), (S k).
        rewrite Ht2, Ht1, app_assoc. split; [reflexivity|].
        split; [apply Forall_app; auto|].
        split; [rewrite started_app, Hst, Hs2, Hids; reflexivity|].
        intros g E. specialize (Hg2 g E). rewrite length_app in Hg2. cbn [List.length] in *. lia.
      * rewrite Hi. cbn [or_raise]. run.
        match goal with
        | |- context [scenes_loop l generated prev_scene out_dir ?w2] =>
            destruct (IH generated prev_scene w2) as (evs2 & k & Ht2 & Hp2 & Hs2 & Hg2)
        end.
        exists ((ELog (SceneStarted i) :: rest) ++ ELog (SceneSkippedErrors i) :: evs2), (S k).
        split; [rewrite Ht2; cbn [trace]; rewrite Ht1, <- !app_assoc; reflexivity|].
        split; [apply Forall_app; split; [exact Hloop|constructor; [exact I|exact Hp2]]|].
        split.
        { rewrite started_app, Hst.
          change (started (ELog (SceneSkippedErrors i) :: evs2)) with (started evs2).
          rewrite Hs2, Hids. reflexivity. }
        intros g E. specialize (Hg2 g E). cbn [List.length]. lia.
    + destruct Hcase as [[-> _]|(i & rest & Hi & -> & Hrest)].
      * exists [], 0%nat. repeat split; auto. discriminate.
      * exists (ELog (SceneStarted i) :: rest), 1%nat. split; [exact Ht1|].
        split; [constructor; [exact I|eapply Forall_impl; [apply body_is_loop|exact Hrest]]|].
        split; [|discriminate].
        change (started (ELog (SceneStarted i) :: rest)) with (i :: started rest).
        rewrite (body_not_started rest Hrest). cbn [ids flat_map]. rewrite Hi. reflexivity.
    + destruct Hcase as [[-> _]|(i & rest & Hi & -> & Hrest)].
      * exists [], 0%nat. repeat split; auto. discriminate.
      * exists (ELog (SceneStarted i) :: rest), 1%nat. split; [exact Ht1|].
        split; [constructor; [exact I|eapply Forall_impl; [apply body_is_loop|exact Hrest]]|].
        split; [|discriminate].
        change (started (ELog (SceneStarted i) :: rest)) with (i :: started rest).
        rewrite (body_not_started rest Hrest). cbn [ids flat_map]. rewrite Hi. reflexivity.
Qed.

Lemma read_json_world p w : snd (read_json p w) = w.
Proof.
  unfold read_json. destruct (fs_lookup p (fs w)) as [[t|j]|]; try reflexivity.
  destruct (json_loads t); reflexivity.
Qed.

(** The scenes stage as a whole. *)
Lemma generate_scenes_history out_dir script_path w :
  exists evs,
    trace (exec (generate_scenes out_dir script_path) w) = trace w ++ evs
    /\ Forall stage_event evs
    /\ (List.length (started evs) <= 2)%nat
    /\ (forall scenes, result (read_json script_path) w = Ret (JArr scenes) ->
          exists k, started evs = firstn k (ids (firstn 2 scenes))).
Proof.
  unfold exec, result, generate_scenes. rewrite bind_exists.
  destruct (fs_exists script_path (fs w)); cbn [negb].
  2:{ exists [ELog (MissingScript script_path)]. split; [reflexivity|].
      split; [repeat constructor|]. split; [cbn; lia|].
      intros scenes _. exists 0%nat. reflexivity. }
  rewrite bind_run. pose proof (read_json_world script_path w) as Hw.
  destruct (read_json script_path w) as [[j|e|] w1]; cbn [fst snd] in *; subst w1.
  2,3: exists []; rewrite app_nil_r; split; [reflexivity|];
       split; [constructor|]; split; [cbn; lia|]; intros scenes E; discriminate.
  assert (Hnone : forall r : Res unit * World,
             snd r = w ->
             exists evs, trace (snd r) = trace w ++ evs /\ Forall stage_event evs
               /\ (List.length (started evs) <= 2)%nat
               /\ (forall scenes, Ret j = Ret (JArr scenes) ->
                     exists k, started evs = firstn k (ids (firstn 2 scenes)))).
  { intros r ->. exists []. rewrite app_nil_r. split; [reflexivity|].
    split; [constructor|]. split; [cbn; lia|].
    intros scenes E. exists 0%nat. reflexivity. }
  destruct j as [ | | | |s|l| ]; try (apply Hnone; reflexivity).
  - cbn [first_two]. destruct (s =? "")%string; [|apply Hnone; reflexivity].
    run. cbn [scenes_loop]. run.
    exists [ELog NoScenes]. split; [reflexivity|]. split; [repeat constructor|].
    split; [cbn; lia|]. intros scenes E. discriminate.
  - cbn [first_two]. run.
    destruct (scenes_loop_history out_dir (firstn 2 l) [] None w)
      as (evs & k & Ht & Hp & Hs & Hg).
    unfold exec, result in *. rewrite bind_run.
    assert (Hlen : (List.length (started evs) <= 2)%nat).
    { rewrite Hs. rewrite length_firstn.
      pose proof (ids_length (firstn 2 l)). rewrite length_firstn in H. lia. }
    assert (Hst : forall scenes, Ret (JArr l) = Ret (JArr scenes) ->
               exists k0, started evs = firstn k0 (ids (firstn 2 scenes))).
    { intros scenes E. injection E as <-. exists k. exact Hs. }
    assert (Hstage : Forall stage_event evs).
    { eapply Forall_impl; [apply loop_is_stage|exact Hp]. }
    destruct (scenes_loop (firstn 2 l) [] None out_dir w) as [[g|e|] w2]; cbn [fst snd] in *.
    + specialize (Hg g eq_refl). rewrite length_firstn in Hg. cbn [List.length] in Hg.
      assert (Hfin : forall m, stage_event (ELog m) -> started [ELog m] = [] ->
                 exists evs0, trace (snd (log m w2)) = trace w ++ evs0
                   /\ Forall stage_event evs0
                   /\ (List.length (started evs0) <= 2)%nat
                   /\ (forall scenes, Ret (JArr l) = Ret (JArr scenes) ->
                         exists k0, started evs0 = firstn k0 (ids (firstn 2 scenes)))).
      { intros m Hm Hsm. exists (evs ++ [ELog m]). cbn [log emit snd trace].
        rewrite Ht, app_assoc. split; [reflexivity|].
        split; [apply Forall_app; split; [exact Hstage|repeat constructor; exact Hm]|].
        rewrite started_app, Hsm, app_nil_r. split; [exact Hlen|exact Hst]. }
      destruct g as [|p g].
      * apply Hfin; [exact I|reflexivity].
      * apply Hfin; [cbn [stage_event]; lia|reflexivity].
    + exists evs. auto.
    + exists evs. auto.
Qed.

End SceneFacts.

(* ================================================================== *)
(** ** Which scenes are processed, and what is submitted *)

Section StageTheorems.
Context {lib : PyLib} {env : Env}.

(** C9. The scenes stage starts at most two scenes, and the scenes it
    starts are, in order, scenes among the first two of the script: a
    scene at position three or later is never processed. *)
Theorem scenes_stage_first_two out_dir script_path w :
  let evs := appended (generate_scenes out_dir script_path) w in
  (List.length (started evs) <= 2)%nat
  /\ forall scenes,
       result (read_json script_path) w = Ret (JArr scenes) ->
       exists k, started evs = firstn k (ids (firstn 2 scenes)).
Proof.
  destruct (generate_scenes_history out_dir script_path w) as (evs & Ht & _ & Hlen & Hst).
  cbv zeta. rewrite (appended_spec _ _ _ Ht). split; [exact Hlen|exact Hst].
Qed.

(** C10. Whatever the scene, the previous scene and the store (a last
    frame of the previous scene may well exist), every submission to the
    video service made while processing a scene, and every payload dumped
    before it, holds the prompt and nothing else; the same is true of the
    whole scenes stage. *)
Theorem scene_submission_has_no_image scene prev_scene out_dir script_path w :
  (forall e, In e (appended (process_scene scene prev_scene out_dir) w) ->
             match e with
             | EHttp (POST url payload) => url = start_url /\ prompt_only payload
             | EPrintPayload payload => prompt_only payload
             | _ => True
             end)
  /\ (forall e, In e (appended (generate_scenes out_dir script_path) w) ->
             match e with
             | EHttp (POST url payload) => url = start_url /\ prompt_only payload
             | EPrintPayload payload => prompt_only payload
             | _ => True
             end).
Proof.
  assert (Hstage : forall e, stage_event e ->
             match e with
             | EHttp (POST url payload) => url = start_url /\ prompt_only payload
             | EPrintPayload payload => prompt_only payload
             | _ => True
             end).
  { intros [m|p|[u|u|u p|u p]|s|a|p f|p] H; cbn in H; auto. }
  split.
  - destruct (process_scene_history scene prev_scene out_dir w) as (evs & Ht & Hcase).
    rewrite (appended_spec _ _ _ Ht). intros e He. apply Hstage.
    destruct Hcase as [[-> _]|(i & rest & _ & -> & Hrest)]; [contradiction|].
    destruct He as [<-|He]; [exact I|].
    apply loop_is_stage, body_is_loop. rewrite Forall_forall in Hrest. auto.
  - destruct (generate_scenes_history out_dir script_path w) as (evs & Ht & Hp & _).
    rewrite (appended_spec _ _ _ Ht). intros e He. apply Hstage.
    rewrite Forall_forall in Hp. auto.
Qed.

End StageTheorems.

(** C2 on the code. A script of five scenes in which the speech synthesis
    of scene 3 is refused and everything else works: the stage starts
    scenes 1 and 2 only, reports two completed scenes and no failure, and
    leaves scenes 4 and 5 without artifacts. *)
Theorem five_scenes_third_fails :
  let m := generate_scenes (lib := plain_lib) (env := studio) "/out" script_path5 in
  result m world5 = Ret tt
  /\ started (appended m world5) = [JNum 1; JNum 2]
  /\ completions (appended m world5) = [2%nat]
  /\ failures (appended m world5) = []
  /\ fs_exists (video_path "/out" 4) (fs (exec m world5)) = false
  /\ fs_exists (video_path "/out" 5) (fs (exec m world5)) = false.
Proof. vm_compute. repeat split; reflexivity. Qed.

(** The loop itself isolates the failure: given all five scenes it goes on
    after scene 3 and completes scenes 1, 2, 4 and 5.  What keeps the stage
    from doing so is the slice [scenes[:2]] it hands to the loop. *)
Lemma loop_isolates_failure :
  let m := scenes_loop (lib := plain_lib) (env := studio)
             [scene 1; scene 2; scene 3; scene 4; scene 5] [] None "/out" in
  result m world5 = Ret (map (scene_paths "/out") [1; 2; 4; 5])
  /\ started (appended m world5) = map JNum [1; 2; 3; 4; 5]
  /\ failures (appended m world5) = [JNum 3].
Proof. vm_compute. repeat split; reflexivity. Qed.

(* ================================================================== *)
(** ** The order of concatenation *)

Lemma ascii_compare_refl c : Ascii.compare c c = Eq.
Proof. unfold Ascii.compare. apply N.compare_refl. Qed.

Lemma leb_common_prefix p a b :
  String.leb (p ++ a)%string (p ++ b)%string = String.leb a b.
Proof.
  unfold String.leb. induction p as [|c p IH]; [reflexivity|].
  cbn [String.append String.compare]. rewrite ascii_compare_refl. exact IH.
Qed.

Lemma two_digits_listed n : two_digits n -> In n two_digit_ids.
Proof.
  intros [H0 H1]. unfold two_digit_ids. apply in_map_iff.
  exists (Z.to_nat n). split; [lia|]. apply in_seq. lia.
Qed.

(** On two-digit identifiers the order of the formatted numbers, followed
    by any extension, is the order of the numbers. *)
Lemma fmt02d_order ext x y :
  two_digits x -> two_digits y ->
  String.leb (fmt02d x ++ ext)%string (fmt02d y ++ ext)%string = (x <=? y).
Proof.
  intros Hx Hy.
  assert (H : forallb (fun a => forallb (fun b =>
                 match fmt02d a, fmt02d b with
                 | String a1 (String a2 EmptyString), String b1 (String b2 EmptyString) =>
                     match Ascii.compare a1 b1 with
                     | Eq => match Ascii.compare a2 b2 with
                             | Eq => a =? b
                             | Lt => a <? b
                             | Gt => b <? a
                             end
                     | Lt => a <? b
                     | Gt => b <? a
                     end
                 | _, _ => false
                 end) two_digit_ids) two_digit_ids = true) by (vm_compute; reflexivity).
  rewrite forallb_forall in H. specialize (H x (two_digits_listed x Hx)).
  rewrite forallb_forall in H. specialize (H y (two_digits_listed y Hy)).
  destruct (fmt02d x) as [|a1 [|a2 [|? ?]]]; try discriminate.
  destruct (fmt02d y) as [|b1 [|b2 [|? ?]]]; try discriminate.
  unfold String.leb. cbn [String.append String.compare].
  destruct (Ascii.compare a1 b1).
  - destruct (Ascii.compare a2 b2).
    + apply Z.eqb_eq in H. subst y.
      replace (String.compare ext ext) with Eq.
      * symmetry. apply Z.leb_le. lia.
      * symmetry. clear. induction ext as [|c e IH]; [reflexivity|].
        cbn. rewrite ascii_compare_refl. exact IH.
    + apply Z.ltb_lt in H. symmetry. apply Z.leb_le. lia.
    + apply Z.ltb_lt in H. symmetry. apply Z.leb_gt. lia.
  - apply Z.ltb_lt in H. symmetry. apply Z.leb_le. lia.
  - apply Z.ltb_lt in H. symmetry. apply Z.leb_gt. lia.
Qed.

Lemma video_path_order out_dir x y :
  two_digits x -> two_digits y ->
  String.leb (video_path out_dir x) (video_path out_dir y) = (x <=? y).
Proof.
  intros Hx Hy. unfold video_path.
  rewrite !path_join_nested by (cbn; lia). rewrite leb_common_prefix.
  change ("/" ++ "scene_" ++ fmt02d x ++ ".mp4")%string
    with ("/scene_" ++ (fmt02d x ++ ".mp4"))%string.
  change ("/" ++ "scene_" ++ fmt02d y ++ ".mp4")%string
    with ("/scene_" ++ (fmt02d y ++ ".mp4"))%string.
  rewrite leb_common_prefix. apply fmt02d_order; assumption.
Qed.

Lemma audio_path_order out_dir x y :
  two_digits x -> two_digits y ->
  String.leb (audio_path out_dir x) (audio_path out_dir y) = (x <=? y).
Proof.
  intros Hx Hy. unfold audio_path.
  rewrite !path_join_nested by (cbn; lia). rewrite leb_common_prefix.
  change ("/" ++ "scene_" ++ fmt02d x ++ ".mp3")%string
    with ("/scene_" ++ (fmt02d x ++ ".mp3"))%string.
  change ("/" ++ "scene_" ++ fmt02d y ++ ".mp3")%string
    with ("/scene_" ++ (fmt02d y ++ ".mp3"))%string.
  rewrite leb_common_prefix. apply fmt02d_order; assumption.
Qed.

Section SortFacts.
Variable name : Z -> string.
Hypothesis name_order :
  forall x y, two_digits x -> two_digits y -> String.leb (name x) (name y) = (x <=? y).

Lemma insert_id_perm x l : Permutation (insert_id x l) (x :: l).
Proof.
  induction l as [|y l IH]; [reflexivity|]. cbn [insert_id].
  destruct (x <=? y); [reflexivity|].
  rewrite IH. apply perm_swap.
Qed.

Lemma ascending_perm l : Permutation (ascending l) l.
Proof.
  induction l as [|x l IH]; [reflexivity|]. cbn [ascending].
  rewrite insert_id_perm. constructor. exact IH.
Qed.

Lemma insert_id_sorted x l : Sorted Z.le l -> Sorted Z.le (insert_id x l).
Proof.
  induction 1 as [|y l Hs IH Hd]; [repeat constructor|].
  cbn [insert_id]. destruct (Z.leb_spec x y).
  - constructor; [constructor; assumption|constructor; assumption].
  - constructor; [exact IH|].
    destruct l as [|z l]; cbn [insert_id].
    + constructor. lia.
    + destruct (x <=? z); constructor; [lia|]. inversion Hd. assumption.
Qed.

Lemma ascending_sorted l : Sorted Z.le (ascending l).
Proof.
  induction l as [|x l IH]; [constructor|]. cbn [ascending].
  apply insert_id_sorted. exact IH.
Qed.

Lemma insert_sorted_names x l :
  two_digits x -> Forall two_digits l ->
  insert_sorted (name x) (map name l) = map name (insert_id x l).
Proof.
  intros Hx. induction 1 as [|y l Hy Hl IH]; [reflexivity|].
  cbn [map insert_sorted insert_id]. rewrite name_order by assumption.
  destruct (x <=? y); [reflexivity|]. cbn [map]. rewrite IH. reflexivity.
Qed.

Lemma insert_id_two_digits x l :
  two_digits x -> Forall two_digits l -> Forall two_digits (insert_id x l).
Proof.
  intros Hx Hl. eapply Permutation_Forall; [symmetry; apply insert_id_perm|].
  constructor; assumption.
Qed.

Lemma ascending_two_digits l : Forall two_digits l -> Forall two_digits (ascending l).
Proof.
  intros Hl. eapply Permutation_Forall; [symmetry; apply ascending_perm|exact Hl].
Qed.

(** Sorting the names of two-digit scenes puts the scenes in ascending
    order of identifier. *)
Lemma sorted_names l :
  Forall two_digits l -> sorted (map name l) = map name (ascending l).
Proof.
  induction 1 as [|x l Hx Hl IH]; [reflexivity|].
  cbn [map sorted ascending]. rewrite IH.
  apply insert_sorted_names; [exact Hx|apply ascending_two_digits; exact Hl].
Qed.

(** Whatever the order of the listing. *)
Lemma sorted_listing listing l :
  Forall two_digits l -> Permutation listing (map name l) ->
  exists asc, Sorted Z.le asc /\ Permutation asc l /\ sorted listing = map name asc.
Proof.
  intros Hl Hp. destruct (Permutation_map_inv name l Hp) as (l' & -> & Hl').
  exists (ascending l'). split; [apply ascending_sorted|].
  split; [rewrite ascending_perm; symmetry; exact Hl'|].
  apply sorted_names. eapply Permutation_Forall; [exact Hl'|exact Hl].
Qed.

End SortFacts.

Section ConcatOrder.
Context {env : Env}.


(** With both kinds of artifact present the stage opens by writing the
    video list, in sorted order, and every list it writes is in sorted
    order. *)
Lemma concat_final_history out_dir w v vs a as_ :
  sorted (glob (path_join out_dir "video") "scene_" ".mp4" (fs w)) = v :: vs ->
  sorted (glob (path_join out_dir "audio") "scene_" ".mp3" (fs w)) = a :: as_ ->
  exists rest,
    appended (concat_final out_dir) w
    = EWrite tmp_file (Text (concat_lines (v :: vs))) :: rest
    /\ Forall (concat_event (v :: vs) (a :: as_)) rest.
Proof.
  intros Hv Ha.
  assert (H : exists rest,
             trace (exec (concat_final out_dir) w)
             = trace w ++ EWrite tmp_file (Text (concat_lines (v :: vs))) :: rest
             /\ Forall (concat_event (v :: vs) (a :: as_)) rest).
  { unfold exec, concat_final. rewrite Hv, Ha.
    unfold try_except. rewrite bind_run.
    unfold concat_videos at 1. rewrite bind_run. unfold write_file at 1.
    destruct (can_write (trace w) (fs w) tmp_file).
    2:{ exists [ELog ConcatError; ELog (Traceback OSError)].
        unfold bind, log, emit. cbn [snd trace]. rewrite <- !app_assoc.
        split; [reflexivity|repeat constructor]. }
    set (w1 := mkWorld _ _ _).
    set (k := bind (run_ffmpeg _ _) _).
    assert (Hk : emits (concat_event (v :: vs) (a :: as_)) any k).
    { subst k. emits_tac; cbn; auto. }
    destruct (Hk w1) as (evs & Ht & Hp & _). unfold exec in Ht.
    destruct (k w1) as [[[]|e|] w2]; cbn [snd] in Ht.
    - exists (evs ++ [ELog (FinalCreated (path_join out_dir "final_video.mp4"))]).
      cbn [log emit snd trace]. rewrite Ht. subst w1. cbn [trace].
      rewrite <- !app_assoc. split; [reflexivity|].
      apply Forall_app. split; [exact Hp|repeat constructor].
    - exists (evs ++ [ELog ConcatError; ELog (Traceback e)]).
      unfold bind, log, emit. cbn [snd trace]. rewrite Ht. subst w1. cbn [trace].
      rewrite <- !app_assoc. split; [reflexivity|].
      apply Forall_app. split; [exact Hp|repeat constructor].
    - exists evs. cbn [snd]. rewrite Ht. subst w1. cbn [trace].
      rewrite <- !app_assoc. split; [reflexivity|exact Hp]. }
  destruct H as (rest & Ht & Hp). exists rest.
  split; [apply appended_spec; exact Ht|exact Hp].
Qed.

(** C6 (amended). When the artifacts present are those of scenes whose
    identifiers fit the two digits of the zero padding, then, in whatever
    order the store lists them, the concat stage writes the video list first
    and in ascending order of identifier, and every concat list it writes
    holds its artifacts in ascending order of identifier. *)
Theorem concat_final_ascending out_dir w vids auds :
  vids <> [] -> auds <> [] ->
  Forall two_digits vids -> Forall two_digits auds ->
  Permutation (glob (path_join out_dir "video") "scene_" ".mp4" (fs w))
              (map (video_path out_dir) vids) ->
  Permutation (glob (path_join out_dir "audio") "scene_" ".mp3" (fs w))
              (map (audio_path out_dir) auds) ->
  exists vs as_,
    Sorted Z.le vs /\ Permutation vs vids
    /\ Sorted Z.le as_ /\ Permutation as_ auds
    /\ let evs := appended (concat_final out_dir) w in
       let video_list := Text (concat_lines (map (video_path out_dir) vs)) in
       let audio_list := Text (concat_lines (map (audio_path out_dir) as_)) in
       hd_error evs = Some (EWrite tmp_file video_list)
       /\ forall p f, In (EWrite p f) evs ->
            (p = tmp_file /\ f = video_list) \/ (p = audio_concat /\ f = audio_list).
Proof.
  intros Hvn Han Hv Ha Pv Pa.
  destruct (sorted_listing (video_path out_dir) (video_path_order out_dir) _ vids Hv Pv)
    as (vs & Hvs & Hvp & Ev).
  destruct (sorted_listing (audio_path out_dir) (audio_path_order out_dir) _ auds Ha Pa)
    as (as_ & Has & Hap & Ea).
  exists vs, as_. repeat (split; [assumption|]).
  destruct vs as [|v0 vs].
  { apply Permutation_nil in Hvp. contradiction. }
  destruct as_ as [|a0 as_].
  { apply Permutation_nil in Hap. contradiction. }
  cbn [map] in Ev, Ea.
  destruct (concat_final_history out_dir w _ _ _ _ Ev Ea) as (rest & Happ & Hp).
  cbv zeta. rewrite Happ. cbn [map hd_error]. split; [reflexivity|].
  intros p f [E|Hin].
  - injection E as <- <-. left. split; reflexivity.
  - rewrite Forall_forall in Hp. exact (Hp _ Hin).
Qed.

End ConcatOrder.

(* ================================================================== *)
(** ** The script stage and the driver *)

Section ScriptFacts.
Context {lib : PyLib} {env : Env}.

Lemma read_text_run p w s :
  result (read_text p) w = Ret s -> read_text p w = (Ret s, w).
Proof.
  unfold result, read_text.
  destruct (fs_lookup p (fs w)) as [[t|j]|]; cbn [fst]; intros E;
    try discriminate; injection E as <-; reflexivity.
Qed.


Lemma emits_script_save text out_path : emits everything any (script_save text out_path).
Proof. unfold script_save. emits_tac; exact I. Qed.

Lemma emits_script_handler text e : emits everything any (script_handler text e).
Proof. unfold script_handler. destruct e; emits_tac; exact I. Qed.

Lemma json_of_reply_world rp w : snd (json_of_reply rp w) = w.
Proof.
  unfold json_of_reply. destruct (failure rp); [reflexivity|].
  destruct (body_json rp); reflexivity.
Qed.

(** [generate_text] sends exactly one request. *)
Lemma generate_text_trace (prompt model : string) (ws : bool) (t : Q) (mt : Z) w :
  exists payload,
    trace (exec (generate_text prompt model ws t mt) w)
    = trace w ++ [EHttp (POST chat_url payload)]
    /\ (ws = false ->
        payload = JObj [("model", JStr model);
                        ("messages", JArr [JObj [("role", JStr "user");
                                                 ("content", JStr prompt)]]);
                        ("temperature", JReal t);
                        ("max_tokens", JNum mt)]).
Proof.
  eexists. split.
  - unfold exec, generate_text. rewrite bind_run. unfold _post_json. rewrite bind_run.
    unfold request at 1.
    set (w1 := mkWorld _ _ _).
    pose proof (json_of_reply_world (http (trace w) (POST (OPENAI_BASE ++ "/chat/completions")%string
      (JObj ([("model", JStr model);
               ("messages", JArr [JObj [("role", JStr "user"); ("content", JStr prompt)]]);
               ("temperature", JReal t);
               ("max_tokens", JNum mt)]
              ++ (if ws then [("web_search_options", JObj [("search_context_size", JStr "large")])]
                  else []))))) w1) as Hw.
    destruct (json_of_reply _ w1) as [[data|e|] w2]; cbn [snd] in Hw; subst w2;
      try reflexivity.
    match goal with
    | |- trace (snd (match ?c with _ => _ end w1)) = _ => destruct c as [[ | | | |s| | ]|]
    end; try reflexivity.
    destruct (s =? "")%string; reflexivity.
  - intros ->. reflexivity.
Qed.


(** The driver runs the stages selected, in the order script, scenes,
    concat. *)
Lemma main_dispatch topic OUTPUT_DIR w :
  main topic StScript OUTPUT_DIR w
  = (generate_full_script topic (script_json OUTPUT_DIR) true ;;
     log (Finished StScript)) w
  /\ main topic StScenes OUTPUT_DIR w
    = (generate_scenes OUTPUT_DIR (script_json OUTPUT_DIR) ;;
       log (Finished StScenes)) w
  /\ main topic StConcat OUTPUT_DIR w
    = (concat_final OUTPUT_DIR ;; log (Finished StConcat)) w
  /\ main topic StAll OUTPUT_DIR w
    = (generate_full_script topic (script_json OUTPUT_DIR) true ;;
       generate_scenes OUTPUT_DIR (script_json OUTPUT_DIR) ;;
       concat_final OUTPUT_DIR ;;
       log (Finished StAll)) w.
Proof.
  unfold main, script_json. cbn [stage_in].
  repeat split; rewrite ?bind_ret_eq; reflexivity.
Qed.

End ScriptFacts.

(* ================================================================== *)
(** ** Exhausted retries *)

Section TransportExtras.
Context {env : Env}.

Lemma get_json_attempt_fails url w :
  always_fails url ->
  exists e, (rp <- request (GET url) ;; json_of_reply rp) w
            = (Exc e, mkWorld (fs w) (clock w + Z.of_N (elapsed (http (trace w) (GET url))))
                              (trace w ++ [EHttp (GET url)])).
Proof.
  intros H. rewrite bind_run. unfold request at 1, json_of_reply.
  destruct (H (trace w)) as [Hf|Hb].
  - destruct (failure _) as [e|]; [|congruence]. exists e. reflexivity.
  - destruct (failure _) as [e|]; [exists e; reflexivity|].
    rewrite Hb. exists JSONDecodeError. reflexivity.
Qed.

Lemma get_json_loop_exhausts url retries :
  always_fails url ->
  forall todo attempt backoff w,
    attempt + Z.of_nat todo = retries ->
    exists evs,
      result (get_json_loop url retries (S todo) attempt backoff) w
      = Exc (AIRequestError (GetFailedAfter url retries))
      /\ trace (exec (get_json_loop url retries (S todo) attempt backoff) w) = trace w ++ evs
      /\ attempts evs = S todo
      /\ delays evs = doubling backoff todo.
Proof.
  intros H. induction todo as [|todo IH]; intros attempt backoff w Hsum.
  - destruct (get_json_attempt_fails url w H) as (e & E).
    exists [EHttp (GET url)].
    unfold result, exec. cbn [get_json_loop]. unfold try_except. rewrite E.
    replace (attempt <? retries) with false by (symmetry; apply Z.ltb_ge; lia).
    repeat split; reflexivity.
  - destruct (get_json_attempt_fails url w H) as (e & E).
    unfold result, exec.
    change (get_json_loop url retries (S (S todo)) attempt backoff)
      with (try_except
              (rp <- request (GET url) ;; json_of_reply rp)
              (fun _ =>
                 if attempt <? retries then
                   sleep backoff ;;
                   get_json_loop url retries (S todo) (attempt + 1) (backoff * 2)
                 else raise (AIRequestError (GetFailedAfter url retries)))).
    unfold try_except. rewrite E.
    replace (attempt <? retries) with true by (symmetry; apply Z.ltb_lt; lia).
    rewrite bind_run. unfold sleep at 1. cbn [fs clock trace].
    match goal with
    | |- context [get_json_loop url retries (S todo) (attempt + 1) (backoff * 2) ?w2] =>
        destruct (IH (attempt + 1) (backoff * 2) w2 ltac:(lia)) as (evs & Hr & Ht & Ha & Hd)
    end.
    unfold result, exec in Hr, Ht.
    exists (EHttp (GET url) :: ESleep backoff :: evs).
    split; [exact Hr|]. split; [etransitivity; [exact Ht|]; cbn [trace]; rewrite <- !app_assoc; reflexivity|].
    split.
    + change (attempts (EHttp (GET url) :: ESleep backoff :: evs)) with (S (attempts evs)).
      rewrite Ha. reflexivity.
    + change (delays (EHttp (GET url) :: ESleep backoff :: evs)) with (backoff :: delays evs).
      rewrite Hd, doubling_S. reflexivity.
Qed.

(** X1. When every GET of a URL fails (the exchange raises or its body is not
    JSON) and retries >= 1, _get_json makes exactly retries attempts, sleeps
    exactly retries - 1 times with the delays 2, 4, 8, ... and raises
    AIRequestError 'GET ... failed after <retries> attempts'. *)
Theorem get_json_exhausts_retries url retries w :
  1 <= retries ->
  always_fails url ->
  let m := _get_json_with url retries in
  result m w = Exc (AIRequestError (GetFailedAfter url retries))
  /\ Z.of_nat (attempts (appended m w)) = retries
  /\ delays (appended m w) = doubling DEFAULT_BACKOFF (Z.to_nat retries - 1).
Proof.
  intros Hr H m. subst m. unfold _get_json_with.
  replace (Z.to_nat retries) with (S (Z.to_nat retries - 1)) by lia.
  destruct (get_json_loop_exhausts url retries H (Z.to_nat retries - 1) 1 DEFAULT_BACKOFF w
              ltac:(lia)) as (evs & Hres & Ht & Ha & Hd).
  rewrite (appended_spec _ _ _ Ht). split; [exact Hres|]. split; [lia|].
  rewrite Hd. f_equal. lia.
Qed.

Lemma get_json_loop_raises_ai url retries todo :
  forall attempt backoff w e,
    result (get_json_loop url retries todo attempt backoff) w = Exc e ->
    exists why, e = AIRequestError why.
Proof.
  induction todo as [|todo IH]; intros attempt backoff w e.
  - cbn. intros E. injection E as <-. eauto.
  - cbn [get_json_loop]. unfold result, try_except.
    destruct ((rp <- request (GET url) ;; json_of_reply rp) w) as [[j|e0|] w1]; cbn [fst].
    + discriminate.
    + destruct (attempt <? retries).
      * rewrite bind_run. unfold sleep at 1. apply IH.
      * cbn. intros E. injection E as <-. eauto.
    + discriminate.
Qed.

(** X2. Whatever the service does and whatever the retry count, the only
    exception _get_json lets out is AIRequestError: every transport, status or
    JSON error is translated. *)
Theorem get_json_raises_only_request_error url retries w e :
  result (_get_json_with url retries) w = Exc e -> exists why, e = AIRequestError why.
Proof. apply get_json_loop_raises_ai. Qed.

(** X3. With a retry count of zero or less _get_json sends no request and does
    not sleep: it raises AIRequestError 'GET ... failed' at once. *)
Theorem get_json_without_attempts url retries w :
  retries <= 0 ->
  result (_get_json_with url retries) w = Exc (AIRequestError (GetFailed url))
  /\ appended (_get_json_with url retries) w = [].
Proof.
  intros H. unfold _get_json_with.
  replace (Z.to_nat retries) with 0%nat by lia. cbn [get_json_loop].
  split; [reflexivity|]. apply appended_spec. cbn. rewrite app_nil_r. reflexivity.
Qed.

End TransportExtras.

(* ================================================================== *)
(** ** Termination *)

Section ReturnsRules.
Context {A B : Type}.

Lemma returns_ret (a : A) : returns (ret a).
Proof. intros w. discriminate. Qed.

Lemma returns_raise e : returns (@raise A e).
Proof. intros w. discriminate. Qed.

Lemma returns_or_raise (o : option A) e : returns (or_raise o e).
Proof. destruct o; [apply returns_ret|apply returns_raise]. Qed.

Lemma returns_lift (r : Exn + A) : returns (lift r).
Proof. destruct r; [apply returns_raise|apply returns_ret]. Qed.

Lemma returns_bind (m : M A) (k : A -> M B) :
  returns m -> (forall a, returns (k a)) -> returns (bind m k).
Proof.
  intros Hm Hk w. specialize (Hm w). unfold result in *. rewrite bind_run.
  destruct (m w) as [[a|e|] w1]; cbn [fst] in *; [apply Hk|discriminate|congruence].
Qed.

Lemma returns_try (body : M A) (h : Exn -> M A) :
  returns body -> (forall e, returns (h e)) -> returns (try_except body h).
Proof.
  intros Hb Hh w. specialize (Hb w). unfold result, try_except in *.
  destruct (body w) as [[a|e|] w1]; cbn [fst] in *; [discriminate|apply Hh|congruence].
Qed.

End ReturnsRules.

Lemma returns_total {A} (m : M A) :
  (forall w, exists r, fst (m w) = r /\ r <> Diverge) -> returns m.
Proof. intros H w. destruct (H w) as (r & <- & Hr). exact Hr. Qed.

Lemma returns_emit e : returns (emit e).
Proof. intros w. discriminate. Qed.
Lemma returns_log m : returns (log m).
Proof. intros w. discriminate. Qed.
Lemma returns_sleep s : returns (sleep s).
Proof. intros w. discriminate. Qed.
Lemma returns_write {env : Env} p f : returns (write_file p f).
Proof. intros w. unfold result, write_file. destruct (can_write _ _ _); discriminate. Qed.
Lemma returns_unlink p : returns (unlink p).
Proof. intros w. discriminate. Qed.
Lemma returns_now : returns now.
Proof. intros w. discriminate. Qed.
Lemma returns_exists p : returns (exists_ p).
Proof. intros w. discriminate. Qed.
Lemma returns_read_text {lib : PyLib} p : returns (read_text p).
Proof.
  intros w. unfold result, read_text.
  destruct (fs_lookup p (fs w)) as [[s|j]|]; discriminate.
Qed.
Lemma returns_read_json {lib : PyLib} p : returns (read_json p).
Proof.
  intros w. unfold result, read_json.
  destruct (fs_lookup p (fs w)) as [[s|j]|]; try discriminate.
  destruct (json_loads s); discriminate.
Qed.
Lemma returns_request {env : Env} r : returns (request r).
Proof. intros w. discriminate. Qed.
Lemma returns_run_ffmpeg {env : Env} args out : returns (run_ffmpeg args out).
Proof. intros w. unfold result, run_ffmpeg. destruct (status _); discriminate. Qed.

Ltac returns_tac :=
  lazymatch goal with
  | |- returns (bind _ _) => apply returns_bind; [returns_tac | intros ?; returns_tac]
  | |- returns (try_except _ _) => apply returns_try; [returns_tac | intros ?; returns_tac]
  | |- returns (ret _) => apply returns_ret
  | |- returns (raise _) => apply returns_raise
  | |- returns (or_raise _ _) => apply returns_or_raise
  | |- returns (lift _) => apply returns_lift
  | |- returns (log _) => apply returns_log
  | |- returns (emit _) => apply returns_emit
  | |- returns (sleep _) => apply returns_sleep
  | |- returns (write_file _ _) => apply returns_write
  | |- returns (unlink _) => apply returns_unlink
  | |- returns now => apply returns_now
  | |- returns (exists_ _) => apply returns_exists
  | |- returns (read_text _) => apply returns_read_text
  | |- returns (read_json _) => apply returns_read_json
  | |- returns (request _) => apply returns_request
  | |- returns (run_ffmpeg _ _) => apply returns_run_ffmpeg
  | |- returns (if ?b then _ else _) => destruct b; returns_tac
  | |- returns (match ?x with _ => _ end) => destruct x; returns_tac
  | _ => idtac
  end.

Section ReturnsCode.
Context {lib : PyLib} {env : Env}.

Lemma returns_json_of_reply rp : returns (json_of_reply rp).
Proof. unfold json_of_reply. returns_tac. Qed.

Lemma returns_post_json url payload : returns (_post_json url payload).
Proof. unfold _post_json. returns_tac. apply returns_json_of_reply. Qed.

Lemma returns_get_json url : returns (_get_json url).
Proof. intros w. apply get_json_loop_returns. Qed.

Lemma returns_poll_until_done op : returns (_poll_until_done op).
Proof. intros w. apply poll_until_done_total. Qed.

Lemma returns_stream_to_file r out : returns (stream_to_file r out).
Proof. unfold stream_to_file. returns_tac. Qed.

Lemma returns_tts_speech ssml out : returns (tts_speech ssml out).
Proof. apply returns_stream_to_file. Qed.

Lemma returns_generate_text prompt model ws t mt : returns (generate_text prompt model ws t mt).
Proof.
  unfold generate_text. apply returns_bind; [apply returns_post_json|intros data].
  match goal with |- returns (match ?c with _ => _ end) => destruct c as [[ | | | |s| | ]|] end;
    returns_tac.
Qed.

Lemma returns_start_job payload : returns (_start_job payload).
Proof. unfold _start_job. returns_tac. apply returns_post_json. Qed.

Lemma returns_download uri out : returns (_download uri out).
Proof. unfold _download. destruct uri; returns_tac. apply returns_stream_to_file. Qed.

Lemma returns_generate_video prompt out image_path :
  returns (generate_video_with_image prompt out image_path).
Proof.
  unfold generate_video_with_image.
  destruct (str_strip prompt =? "")%string; [apply returns_raise|].
  apply returns_bind; [returns_tac|intros image].
  apply returns_bind; [apply returns_start_job|intros op].
  apply returns_bind; [apply returns_poll_until_done|intros uri].
  apply returns_download.
Qed.

Lemma returns_extract_last_frame v f : returns (extract_last_frame v f).
Proof. unfold extract_last_frame. returns_tac. Qed.

Lemma returns_render_scene scene_id ssml visual_desc hint n prev_scene out_dir :
  returns (render_scene scene_id ssml visual_desc hint n prev_scene out_dir).
Proof.
  unfold render_scene.
  apply returns_bind; [returns_tac|intros _].
  apply returns_bind; [apply returns_tts_speech|intros _].
  apply returns_bind; [returns_tac|intros _].
  apply returns_bind; [returns_tac|intros pi].
  apply returns_bind; [returns_tac|intros _].
  apply returns_bind; [returns_tac|intros image_path].
  apply returns_bind; [apply returns_generate_video|intros _].
  apply returns_bind; [returns_tac|intros _].
  apply returns_bind; [apply returns_extract_last_frame|intros _].
  returns_tac.
Qed.

Lemma returns_process_scene scene prev_scene out_dir :
  returns (process_scene scene prev_scene out_dir).
Proof.
  unfold process_scene. returns_tac. apply returns_render_scene.
Qed.

Lemma returns_scenes_loop out_dir l :
  forall generated prev_scene, returns (scenes_loop l generated prev_scene out_dir).
Proof.
  induction l as [|scene l IH]; intros generated prev_scene; cbn [scenes_loop].
  - apply returns_ret.
  - apply returns_bind; [apply returns_process_scene|intros [paths|]].
    + apply IH.
    + returns_tac. apply IH.
Qed.

Lemma returns_generate_scenes out_dir script_path :
  returns (generate_scenes out_dir script_path).
Proof.
  unfold generate_scenes. apply returns_bind; [returns_tac|intros present].
  destruct (negb present); [returns_tac|].
  apply returns_bind; [returns_tac|intros scenes].
  apply returns_bind; [unfold first_two; returns_tac|intros batch].
  apply returns_bind; [apply returns_scenes_loop|intros generated].
  returns_tac.
Qed.

Lemma returns_concat_videos videos audios out : returns (concat_videos videos audios out).
Proof. unfold concat_videos. returns_tac. Qed.

Lemma returns_concat_final out_dir : returns (concat_final out_dir).
Proof.
  intros w. unfold result, concat_final.
  destruct (sorted _) as [|v vs]; [discriminate|].
  destruct (sorted _) as [|a as_]; [discriminate|].
  apply (returns_try _ _); [|intros e; returns_tac].
  apply returns_bind; [apply returns_concat_videos|intros _; returns_tac].
Qed.

Lemma returns_script_handler text e : returns (script_handler text e).
Proof. unfold script_handler. destruct e; returns_tac. Qed.

Lemma returns_script_save text out_path : returns (script_save text out_path).
Proof. unfold script_save. returns_tac. Qed.

Lemma returns_script_request topic out_path skip : returns (script_request topic out_path skip).
Proof.
  unfold script_request.
  apply returns_bind; [returns_tac|intros raw].
  apply returns_bind; [returns_tac|intros _].
  apply returns_bind.
  { destruct (negb skip); [|apply returns_ret].
    apply returns_bind; [apply returns_generate_text|intros s]. returns_tac. }
  intros _.
  apply returns_bind; [returns_tac|intros ctx].
  apply returns_bind; [returns_tac|intros _].
  apply returns_bind; [returns_tac|intros cp].
  apply returns_generate_text.
Qed.

Lemma returns_generate_full_script topic out_path skip :
  returns (generate_full_script topic out_path skip).
Proof.
  intros w. unfold result, generate_full_script.
  pose proof (returns_script_request topic out_path skip w) as H. unfold result in H.
  destruct (script_request topic out_path skip w) as [[text|e|] w1]; cbn [fst] in H.
  - apply (returns_try _ _); [apply returns_script_save|apply returns_script_handler].
  - apply returns_script_handler.
  - congruence.
Qed.

End ReturnsCode.

(* ================================================================== *)
(** ** The text service *)

Section TextExtras.
Context {lib : PyLib} {env : Env}.

Lemma generate_text_run prompt model ws t mt w data :
  answers (trace w) (POST chat_url (chat_payload prompt model ws t mt)) data ->
  generate_text prompt model ws t mt w
  = (let k := fun d : json =>
       let content :=
         match dict_item "choices" d with
         | Some choices =>
             match list_item 0 choices with
             | Some choice =>
                 match dict_item "message" choice with
                 | Some (JObj kvs) =>
                     let c := match assoc "content" kvs with
                              | Some c => c
                              | None => JNull
                              end in
                     if truthy c then Some c
                     else
                       match assoc "parts" kvs with
                       | Some parts =>
                           match list_item 0 parts with
                           | Some (JObj p0) => assoc "text" p0
                           | _ => None
                           end
                       | None => Some JNull
                       end
                 | _ => None
                 end
             | None => None
             end
         | None => None
         end in
       match content with
       | Some (JStr s) =>
           if (s =? "")%string then raise (AIRequestError UnexpectedText)
           else ret (str_strip s)
       | _ => raise (AIRequestError UnexpectedText)
       end in
     k data
       (mkWorld (fs w)
          (clock w + Z.of_N (elapsed (http (trace w)
                                        (POST chat_url (chat_payload prompt model ws t mt)))))
          (trace w ++ [EHttp (POST chat_url (chat_payload prompt model ws t mt))]))).
Proof.
  intros [Hf Hb]. unfold generate_text. rewrite bind_run. unfold _post_json. rewrite bind_run.
  unfold request at 1, json_of_reply.
  change (OPENAI_BASE ++ "/chat/completions")%string with chat_url.
  fold (chat_payload prompt model ws t mt).
  rewrite Hf, Hb. reflexivity.
Qed.

(** X5. Whatever else the reply carries, when the message of its first
    choice holds a non-empty string content, generate_text returns that
    string stripped, after exactly one POST to /chat/completions with the
    payload built from its arguments. *)
Theorem generate_text_content prompt model ws t mt w data choices choice msg s :
  answers (trace w) (POST chat_url (chat_payload prompt model ws t mt)) data ->
  dict_item "choices" data = Some choices ->
  list_item 0 choices = Some choice ->
  dict_item "message" choice = Some (JObj msg) ->
  assoc "content" msg = Some (JStr s) ->
  s <> "" ->
  result (generate_text prompt model ws t mt) w = Ret (str_strip s)
  /\ appended (generate_text prompt model ws t mt) w
     = [EHttp (POST chat_url (chat_payload prompt model ws t mt))].
Proof.
  intros Ha Hch Hc0 Hm Hc Hs. destruct s as [|ch s']; [congruence|].
  pose proof (generate_text_run prompt model ws t mt w _ Ha) as E.
  cbv beta zeta in E. rewrite Hch, Hc0, Hm, Hc in E. cbn [truthy String.eqb negb] in E.
  unfold result. rewrite E. split; [reflexivity|].
  apply appended_spec. unfold exec. rewrite E. reflexivity.
Qed.

(** X6. When the message of the first choice has no content (absent, null
    or empty) but carries parts whose first element has a non-empty text,
    generate_text falls back to that text and returns it stripped. *)
Theorem generate_text_parts_fallback
        prompt model ws t mt w data choices choice msg c part more s :
  answers (trace w) (POST chat_url (chat_payload prompt model ws t mt)) data ->
  dict_item "choices" data = Some choices ->
  list_item 0 choices = Some choice ->
  dict_item "message" choice = Some (JObj msg) ->
  assoc "content" msg = c ->
  truthy (match c with Some v => v | None => JNull end) = false ->
  assoc "parts" msg = Some (JArr (JObj part :: more)) ->
  assoc "text" part = Some (JStr s) ->
  s <> "" ->
  result (generate_text prompt model ws t mt) w = Ret (str_strip s).
Proof.
  intros Ha Hch Hc0 Hm Hc Hfalse Hp Ht Hs. destruct s as [|ch s']; [congruence|].
  pose proof (generate_text_run prompt model ws t mt w _ Ha) as E.
  cbv beta zeta in E. rewrite Hch, Hc0, Hm, Hc in E.
  rewrite Hfalse, Hp in E. cbn [list_item nth_error] in E. rewrite Ht in E.
  unfold result. rewrite E. reflexivity.
Qed.

(** X7. generate_text raises only one of three things: the exception of the
    HTTP exchange itself, unchanged (the POST is neither retried nor wrapped),
    the JSON decoding error of a successful reply whose body is not JSON, or
    AIRequestError 'Unexpected text response' for a body of the wrong shape or
    with empty content. *)
Theorem generate_text_errors prompt model ws t mt w e :
  result (generate_text prompt model ws t mt) w = Exc e ->
  let rp := http (trace w) (POST chat_url (chat_payload prompt model ws t mt)) in
  e = AIRequestError UnexpectedText
  \/ failure rp = Some e
  \/ (failure rp = None /\ body_json rp = None /\ e = JSONDecodeError).
Proof.
  unfold result, generate_text. rewrite bind_run. unfold _post_json. rewrite bind_run.
  unfold request at 1, json_of_reply.
  change (OPENAI_BASE ++ "/chat/completions")%string with chat_url.
  fold (chat_payload prompt model ws t mt).
  cbv zeta.
  destruct (failure _) as [e0|].
  - cbn. intros E. injection E as <-. auto.
  - destruct (body_json _) as [data|].
    + cbn [or_raise ret].
      match goal with
      | |- fst (match ?c with _ => _ end _) = _ -> _ => destruct c as [[ | | | |s| | ]|]
      end; try (cbn; intros E; injection E as <-; auto).
      destruct (s =? "")%string; cbn; intros E; [injection E as <-; auto|discriminate].
    + cbn. intros E. injection E as <-. auto.
Qed.

End TextExtras.

(* ================================================================== *)
(** ** Speech and the video job *)

Section SpeechExtras.
Context {env : Env}.

(** X8. When the speech request fails (connection error or error status),
    tts_speech raises that exception after the single request and leaves the
    store untouched: no audio file is created or truncated. *)
Theorem tts_speech_refused ssml out_path w e :
  failure (http (trace w) (tts_request ssml)) = Some e ->
  result (tts_speech ssml out_path) w = Exc e
  /\ fs (exec (tts_speech ssml out_path) w) = fs w
  /\ appended (tts_speech ssml out_path) w = [EHttp (tts_request ssml)].
Proof.
  intros Hf.
  assert (E : tts_speech ssml out_path w
              = (Exc e, mkWorld (fs w)
                          (clock w + Z.of_N (elapsed (http (trace w) (tts_request ssml))))
                          (trace w ++ [EHttp (tts_request ssml)]))).
  { unfold tts_speech, stream_to_file. fold (tts_request ssml).
    rewrite bind_run. unfold request at 1. rewrite Hf. reflexivity. }
  unfold result, exec. rewrite E. cbn [fst snd fs]. repeat split.
  apply appended_spec. unfold exec. rewrite E. reflexivity.
Qed.

(** X9. When the speech request is accepted, tts_speech opens out_path for
    writing.  If the open fails (the directory is missing, say) it raises
    OSError after the request and leaves the store as it was.  Otherwise it
    writes the chunks received, concatenated in order, to out_path and
    returns out_path; if the stream breaks midway it raises, and the
    partial file stays at out_path. *)
Theorem tts_speech_streams ssml out_path w :
  failure (http (trace w) (tts_request ssml)) = None ->
  let rp := http (trace w) (tts_request ssml) in
  let audio := Text (String.concat "" (chunks rp)) in
  let m := tts_speech ssml out_path in
  appended m w = [EHttp (tts_request ssml); EWrite out_path audio]
  /\ if can_write (trace w ++ [EHttp (tts_request ssml)]) (fs w) out_path
     then result m w = (if complete rp then Ret out_path else Exc RequestException)
          /\ fs_lookup out_path (fs (exec m w)) = Some audio
     else result m w = Exc OSError /\ fs (exec m w) = fs w.
Proof.
  intros Hf rp audio m.
  assert (E : m w
              = if can_write (trace w ++ [EHttp (tts_request ssml)]) (fs w) out_path
                then (if complete rp then Ret out_path else Exc RequestException,
                      mkWorld (fs_write out_path audio (fs w))
                        (clock w + Z.of_N (elapsed rp))
                        (trace w ++ [EHttp (tts_request ssml); EWrite out_path audio]))
                else (Exc OSError,
                      mkWorld (fs w) (clock w + Z.of_N (elapsed rp))
                        (trace w ++ [EHttp (tts_request ssml); EWrite out_path audio]))).
  { unfold m, tts_speech, stream_to_file. fold (tts_request ssml).
    rewrite bind_run. unfold request at 1. rewrite Hf. fold rp.
    rewrite bind_run. unfold write_file at 1. cbn [fs clock trace]. fold audio.
    rewrite <- app_assoc.
    destruct (can_write _ _ _); [destruct (complete rp)|]; reflexivity. }
  split.
  - apply appended_spec. unfold exec. rewrite E. destruct (can_write _ _ _); reflexivity.
  - unfold result, exec. rewrite E. destruct (can_write _ _ _); cbn [fst snd fs].
    + split; [reflexivity|].
      unfold fs_lookup, fs_write. cbn [assoc]. rewrite String.eqb_refl. reflexivity.
    + split; reflexivity.
Qed.

End SpeechExtras.

Section JobExtras.
Context {lib : PyLib} {env : Env}.

(** X10. An image path that is empty or names no existing file is ignored
    silently: generate_video_with_image behaves exactly (same result, same
    requests, same store) as when called with no image. *)
Theorem missing_image_is_no_image prompt out_path p w :
  p = "" \/ fs_exists p (fs w) = false ->
  generate_video_with_image prompt out_path (Some p) w
  = generate_video_with_image prompt out_path None w.
Proof.
  intros H. unfold generate_video_with_image.
  destruct (str_strip prompt =? "")%string; [reflexivity|].
  rewrite !bind_run.
  destruct (p =? "")%string eqn:Ep; [reflexivity|].
  destruct H as [->|H]; [discriminate|].
  rewrite bind_exists, H. reflexivity.
Qed.

Lemma emits_start_job_all payload : emits everything any (_start_job payload).
Proof. apply emits_start_job; exact I. Qed.

Lemma emits_job_tail op out_path :
  emits everything any (video_uri <- _poll_until_done op ;; _download video_uri out_path).
Proof.
  apply emits_seq.
  - apply emits_poll_until_done; intros; exact I.
  - intros uri. apply emits_download; intros; exact I.
Qed.

(** X11. If the job submission POST fails, generate_video_with_image raises
    that very exception after the payload dump and the single POST: the
    submission is not retried, and no status query or download follows. *)
Theorem submission_not_retried prompt out_path w e :
  str_strip prompt <> "" ->
  failure (http (trace w ++ [EPrintPayload (build_payload prompt None)])
                (POST start_url (build_payload prompt None))) = Some e ->
  let m := generate_video_with_image prompt out_path None in
  result m w = Exc e
  /\ appended m w = [EPrintPayload (build_payload prompt None);
                     EHttp (POST start_url (build_payload prompt None))].
Proof.
  intros Hp Hf m.
  assert (E : exists w', m w = (Exc e, w')
              /\ trace w' = trace w ++ [EPrintPayload (build_payload prompt None);
                                         EHttp (POST start_url (build_payload prompt None))]).
  { subst m. unfold generate_video_with_image.
    rewrite (proj2 (String.eqb_neq _ _) Hp). rewrite bind_ret.
    rewrite bind_run. unfold _start_job. rewrite bind_emit.
    rewrite bind_run. unfold _post_json at 1. rewrite bind_run. unfold request at 1.
    cbn [fs clock trace]. unfold json_of_reply. rewrite Hf.
    eexists. split; [reflexivity|]. cbn [trace]. rewrite <- app_assoc. reflexivity. }
  destruct E as (w' & E & Ht). unfold result. rewrite E. split; [reflexivity|].
  apply appended_spec. unfold exec. rewrite E. exact Ht.
Qed.

(** X12. If the submission is answered by a dictionary whose name is absent or
    falsy, the job ends with AIRequestError 'No operation name in response'
    after the single POST; nothing is polled or downloaded. *)
Theorem submission_without_handle prompt out_path w kvs :
  str_strip prompt <> "" ->
  answers (trace w ++ [EPrintPayload (build_payload prompt None)])
          (POST start_url (build_payload prompt None)) (JObj kvs) ->
  truthy (match assoc "name" kvs with Some v => v | None => JNull end) = false ->
  let m := generate_video_with_image prompt out_path None in
  result m w = Exc (AIRequestError NoOperationName)
  /\ appended m w = [EPrintPayload (build_payload prompt None);
                     EHttp (POST start_url (build_payload prompt None))].
Proof.
  intros Hp [Hf Hb] Hn m.
  assert (E : exists w', m w = (Exc (AIRequestError NoOperationName), w')
              /\ trace w' = trace w ++ [EPrintPayload (build_payload prompt None);
                                         EHttp (POST start_url (build_payload prompt None))]).
  { subst m. unfold generate_video_with_image.
    rewrite (proj2 (String.eqb_neq _ _) Hp). rewrite bind_ret.
    rewrite bind_run. unfold _start_job. rewrite bind_emit.
    rewrite bind_run. unfold _post_json at 1. rewrite bind_run. unfold request at 1.
    cbn [fs clock trace]. unfold json_of_reply. rewrite Hf, Hb. cbn [or_raise ret].
    destruct (assoc "name" kvs) as [name|].
    - rewrite Hn. eexists. split; [reflexivity|]. cbn [trace]. rewrite <- app_assoc. reflexivity.
    - eexists. split; [reflexivity|]. cbn [trace]. rewrite <- app_assoc. reflexivity. }
  destruct E as (w' & E & Ht). unfold result. rewrite E. split; [reflexivity|].
  apply appended_spec. unfold exec. rewrite E. exact Ht.
Qed.

(** X13. If the first status query reports done, _poll_until_done makes
    exactly that one GET and no sleep, and returns the video URI found at
    response.generateVideoResponse.generatedSamples[0].video.uri, or raises
    AIRequestError 'Missing video URI' when that path is absent. *)
Theorem poll_done_at_first_query op w kvs :
  answers (trace w) (GET (base ++ "/" ++ op)%string) (JObj kvs) ->
  truthy (done_field kvs) = true ->
  result (_poll_until_done op) w
  = match video_uri (JObj kvs) with
    | Some uri => Ret uri
    | None => Exc (AIRequestError MissingVideoURI)
    end
  /\ appended (_poll_until_done op) w = [EHttp (GET (base ++ "/" ++ op)%string)].
Proof.
  intros [Hf Hb] Hd.
  assert (E : exists w', _poll_until_done op w
                = (match video_uri (JObj kvs) with
                   | Some uri => Ret uri
                   | None => Exc (AIRequestError MissingVideoURI)
                   end, w')
              /\ trace w' = trace w ++ [EHttp (GET (base ++ "/" ++ op)%string)]).
  { unfold _poll_until_done, _poll_until_done_within. rewrite bind_run. unfold now at 1.
    change (poll_budget 600) with (S (S (Z.to_nat (600 / POLL_INTERVAL)))).
    cbn [poll_loop]. rewrite bind_run. unfold now at 1.
    replace (clock w - clock w >? 1000 * 600) with false
      by (symmetry; rewrite Z.sub_diag; reflexivity).
    rewrite bind_run.
    unfold _get_json, _get_json_with. change (Z.to_nat DEFAULT_RETRIES) with 3%nat.
    cbn [get_json_loop]. unfold try_except. rewrite bind_run. unfold request at 1.
    unfold json_of_reply. rewrite Hf, Hb. cbn [or_raise ret].
    fold (done_field kvs). rewrite Hd. unfold or_raise.
    destruct (video_uri (JObj kvs)); eexists; split; reflexivity. }
  destruct E as (w' & E & Ht). unfold result. rewrite E. split; [reflexivity|].
  apply appended_spec. unfold exec. rewrite E. exact Ht.
Qed.

Lemma passes_app a b : passes (a ++ b) = (passes a + passes b)%nat.
Proof. unfold passes. rewrite filter_app, length_app. reflexivity. Qed.

Lemma passes_delays evs :
  passes evs = List.length (filter (fun s => s =? POLL_INTERVAL) (delays evs)).
Proof.
  induction evs as [|e evs IH]; [reflexivity|].
  destruct e as [m|p|r|s|a|p f|p]; try exact IH.
  unfold passes, delays in *. cbn [filter flat_map app].
  destruct (s =? POLL_INTERVAL); cbn [List.length]; rewrite IH; reflexivity.
Qed.

(** The retry sleeps of a status query are never mistaken for a pass. *)
Lemma get_json_no_pass url w :
  exists evs, trace (exec (_get_json url) w) = trace w ++ evs /\ passes evs = 0%nat.
Proof.
  destruct (get_json_loop_history url DEFAULT_RETRIES (Z.to_nat DEFAULT_RETRIES) 1
              DEFAULT_BACKOFF w) as (evs & m & Ht & Hd & Ha & Hm).
  exists evs. split; [exact Ht|]. rewrite passes_delays, Hd.
  change (Z.to_nat DEFAULT_RETRIES) with 3%nat in Ha.
  assert (Hm3 : (m <= 3)%nat) by lia.
  destruct m as [|[|[|[|m]]]]; try reflexivity. lia.
Qed.

Lemma poll_loop_passes op_url start T :
  forall budget w r w',
    poll_loop budget op_url start T w = (r, w') ->
    exists evs,
      trace w' = trace w ++ evs
      /\ (r <> Diverge -> (passes evs < budget)%nat).
Proof.
  induction budget as [|budget IH]; intros w r w' E.
  - cbn in E. injection E as <- <-. exists []. rewrite app_nil_r.
    split; [reflexivity|congruence].
  - cbn [poll_loop] in E. rewrite bind_run in E. unfold now at 1 in E.
    destruct (clock w - start >? 1000 * T).
    { cbn in E. injection E as <- <-. exists []. rewrite app_nil_r.
      split; [reflexivity|intros _; cbn; lia]. }
    rewrite bind_run in E.
    destruct (get_json_no_pass op_url w) as (evs1 & Ht1 & Hp1). unfold exec in Ht1.
    assert (Hstop : forall (x : Res json), (x, snd (_get_json op_url w)) = (r, w') ->
               exists evs, trace w' = trace w ++ evs
                           /\ (r <> Diverge -> (passes evs < S budget)%nat)).
    { intros x Ex. injection Ex as <- <-. exists evs1. split; [exact Ht1|rewrite Hp1; lia]. }
    destruct (_get_json op_url w) as [[data|e|] w1]; cbn [snd] in Ht1, Hstop;
      try (apply (Hstop _ E)).
    destruct data as [ | | | | | |kvs]; try (apply (Hstop _ E)).
    destruct (truthy _).
    + unfold or_raise in E. destruct (video_uri _); apply (Hstop _ E).
    + rewrite bind_run in E. unfold sleep at 1 in E.
      destruct (IH _ _ _ E) as (evs2 & Ht2 & Hp2). cbn [trace] in Ht2.
      exists (evs1 ++ ESleep POLL_INTERVAL :: evs2).
      split; [rewrite Ht2, Ht1, <- !app_assoc; reflexivity|].
      intros Hr. specialize (Hp2 Hr). rewrite passes_app, Hp1.
      change (passes (ESleep POLL_INTERVAL :: evs2)) with (S (passes evs2)). lia.
Qed.

(** X14. Whatever the status service answers (including failures and retries),
    polling with a timeout of T >= 0 seconds ends and goes through at most T/5
    + 1 five-second waits; the 2 s and 4 s retry sleeps of the status query
    are never counted as poll waits. *)
Theorem poll_passes_bounded op T w :
  0 <= T ->
  result (_poll_until_done_within op T) w <> Diverge
  /\ Z.of_nat (passes (appended (_poll_until_done_within op T) w)) <= T / POLL_INTERVAL + 1.
Proof.
  intros HT. pose proof (poll_until_done_total op T w) as Hr.
  split; [exact Hr|].
  unfold result, _poll_until_done_within in Hr. rewrite bind_run in Hr. unfold now at 1 in Hr.
  destruct (poll_loop (poll_budget T) (base ++ "/" ++ op)%string (clock w) T w)
    as [r w'] eqn:El.
  destruct (poll_loop_passes _ _ _ _ _ _ _ El) as (evs & Ht & Hp).
  cbn [fst] in Hr. specialize (Hp Hr).
  assert (E : appended (_poll_until_done_within op T) w = evs).
  { apply appended_spec. unfold exec, _poll_until_done_within. rewrite bind_run. unfold now at 1.
    rewrite El. exact Ht. }
  rewrite E. unfold poll_budget in Hp.
  assert (0 <= T / POLL_INTERVAL) by (apply Z.div_pos; unfold POLL_INTERVAL; lia).
  lia.
Qed.

(** X15. Given a non-blank prompt and the path of an existing, non-empty
    image, generate_video_with_image submits a payload whose instance holds
    the prompt and the image as base64 with mimeType image/png when the path
    ends in .png (case-insensitively) and image/jpeg otherwise; the dump and
    the POST carry that same payload. *)
Theorem existing_image_is_embedded prompt out_path p w bytes :
  str_strip prompt <> "" ->
  p <> "" ->
  fs_lookup p (fs w) = Some (Text bytes) ->
  b64encode bytes <> "" ->
  let payload :=
    build_payload prompt
      (Some (b64encode bytes,
             if endswith ".png" (lower p) then "image/png" else "image/jpeg")) in
  exists rest,
    appended (generate_video_with_image prompt out_path (Some p)) w
    = EPrintPayload payload :: EHttp (POST start_url payload) :: rest.
Proof.
  intros Hp Hne Hl Hb payload.
  assert (E : exists rest,
             trace (exec (generate_video_with_image prompt out_path (Some p)) w)
             = trace w ++ EPrintPayload payload :: EHttp (POST start_url payload) :: rest).
  { unfold exec, generate_video_with_image.
    rewrite (proj2 (String.eqb_neq _ _) Hp), (proj2 (String.eqb_neq _ _) Hne).
    rewrite bind_run, bind_exists. unfold fs_exists. rewrite Hl.
    rewrite bind_run. unfold read_text at 1. rewrite Hl.
    rewrite (proj2 (String.eqb_neq _ _) Hb). cbn [ret]. fold payload.
    rewrite bind_run. unfold _start_job. rewrite bind_emit.
    rewrite bind_run. unfold _post_json at 1. rewrite bind_run. unfold request at 1.
    cbn [fs clock trace].
    set (w2 := mkWorld _ _ _).
    assert (Ht2 : trace w2 = trace w ++ [EPrintPayload payload; EHttp (POST start_url payload)]).
    { subst w2. cbn [trace]. rewrite <- app_assoc. reflexivity. }
    clearbody w2.
    pose proof (json_of_reply_world
                  (http (trace w ++ [EPrintPayload payload]) (POST start_url payload)) w2) as Hw.
    destruct (json_of_reply _ w2) as [[data|e|] w3]; cbn [snd] in Hw; subst w3;
      try (exists []; cbn [snd]; rewrite Ht2; reflexivity).
    assert (Hstop : forall (r : Res string), exists rest,
               trace (snd (r, w2)) = trace w ++ EPrintPayload payload
                                       :: EHttp (POST start_url payload) :: rest).
    { intros r. exists []. cbn [snd]. rewrite Ht2. reflexivity. }
    destruct data as [ | | | | | |kvs]; try apply Hstop.
    destruct (assoc "name" kvs) as [name|]; [|apply Hstop].
    destruct (truthy name); [|apply Hstop].
    cbn [ret].
    match goal with
    | |- context [_poll_until_done ?op] =>
        destruct (emits_job_tail op out_path w2) as (rest & Ht & _)
    end.
    unfold exec in Ht. exists rest. etransitivity; [exact Ht|].
    rewrite Ht2, <- app_assoc. reflexivity. }
  destruct E as (rest & Ht). exists rest. apply appended_spec. exact Ht.
Qed.

(** X16. When the service hands out a job name, reports the job done with a
    URI at the first status query and streams the file completely,
    generate_video_with_image performs exactly: payload dump, one submission
    POST, one status GET, one streamed download GET from the download base
    (Google prefix removed from the URI), and one open of out_path for
    writing.  If that open succeeds it returns out_path and out_path holds
    the downloaded bytes; if it fails the job ends with OSError after the
    download request and the store is as it was. *)
Theorem job_submit_poll_download prompt out_path w nkvs name kvs uri bytes :
  str_strip prompt <> "" ->
  (forall tr, answers tr (POST start_url (build_payload prompt None)) (JObj nkvs)) ->
  assoc "name" nkvs = Some (JStr name) ->
  name <> "" ->
  (forall tr, answers tr (GET (base ++ "/" ++ name)%string) (JObj kvs)) ->
  truthy (done_field kvs) = true ->
  video_uri (JObj kvs) = Some (JStr uri) ->
  let url := (download_base ++ "/"
              ++ (if startswith google_prefix uri
                  then str_replace uri google_prefix "" else uri))%string in
  (forall tr, failure (http tr (GET_stream url)) = None
              /\ complete (http tr (GET_stream url)) = true
              /\ String.concat "" (chunks (http tr (GET_stream url))) = bytes) ->
  let m := generate_video_with_image prompt out_path None in
  let exchanges :=
    [EPrintPayload (build_payload prompt None);
     EHttp (POST start_url (build_payload prompt None));
     EHttp (GET (base ++ "/" ++ name)%string);
     EHttp (GET_stream url)] in
  appended m w = exchanges ++ [EWrite out_path (Text bytes)]
  /\ if can_write (trace w ++ exchanges) (fs w) out_path
     then result m w = Ret out_path
          /\ fs_lookup out_path (fs (exec m w)) = Some (Text bytes)
     else result m w = Exc OSError /\ fs (exec m w) = fs w.
Proof.
  intros Hp Hsub Hname Hne Hpoll Hdone Huri url Hdl m exchanges.
  assert (E : exists c, m w
              = if can_write (trace w ++ exchanges) (fs w) out_path
                then (Ret out_path,
                      mkWorld (fs_write out_path (Text bytes) (fs w)) c
                        (trace w ++ exchanges ++ [EWrite out_path (Text bytes)]))
                else (Exc OSError,
                      mkWorld (fs w) c
                        (trace w ++ exchanges ++ [EWrite out_path (Text bytes)]))).
  { subst m. unfold generate_video_with_image.
    rewrite (proj2 (String.eqb_neq _ _) Hp). rewrite bind_ret.
    rewrite bind_run. unfold _start_job. rewrite bind_emit.
    rewrite bind_run. unfold _post_json at 1. rewrite bind_run. unfold request at 1.
    cbn [fs clock trace]. unfold json_of_reply.
    destruct (Hsub (trace w ++ [EPrintPayload (build_payload prompt None)])) as [Hf Hb].
    rewrite Hf, Hb. cbn [or_raise ret]. rewrite Hname.
    destruct name as [|c0 name']; [congruence|]. cbn [truthy String.eqb negb ret].
    rewrite bind_run.
    match goal with
    | |- context [_poll_until_done _ ?w2] =>
        destruct (Hpoll (trace w2)) as [Hf2 Hb2]; set (wp := w2) in *
    end.
    unfold _poll_until_done, _poll_until_done_within. rewrite bind_run. unfold now at 1.
    change (poll_budget 600) with (S (S (Z.to_nat (600 / POLL_INTERVAL)))).
    cbn [poll_loop]. rewrite bind_run. unfold now at 1.
    replace (clock wp - clock wp >? 1000 * 600) with false
      by (symmetry; rewrite Z.sub_diag; reflexivity).
    rewrite bind_run.
    unfold _get_json, _get_json_with. change (Z.to_nat DEFAULT_RETRIES) with 3%nat.
    cbn [get_json_loop]. unfold try_except. rewrite bind_run. unfold request at 1.
    unfold json_of_reply. rewrite Hf2, Hb2. cbn [or_raise ret].
    fold (done_field kvs). rewrite Hdone, Huri. cbn [or_raise ret].
    unfold _download. fold url. unfold stream_to_file.
    rewrite bind_run. unfold request at 1.
    match goal with
    | |- context [http ?tr (GET_stream url)] => destruct (Hdl tr) as (Hf3 & Hc3 & Hb3)
    end.
    rewrite Hf3. rewrite bind_run. unfold write_file at 1. rewrite Hc3, Hb3.
    subst wp exchanges. cbn [fs clock trace]. rewrite <- !app_assoc. cbn [app].
    destruct (can_write _ _ _); eexists; reflexivity. }
  destruct E as (c & E). split.
  - apply appended_spec. unfold exec. rewrite E. destruct (can_write _ _ _); reflexivity.
  - unfold result, exec. rewrite E. destruct (can_write _ _ _); cbn [fst snd fs].
    + split; [reflexivity|].
      unfold fs_lookup, fs_write. cbn [assoc]. rewrite String.eqb_refl. reflexivity.
    + split; reflexivity.
Qed.

End JobExtras.

(* ================================================================== *)
(** ** One scene *)

Lemma local_no_remote evs : Forall local_event evs -> remote_calls evs = [].
Proof.
  induction 1 as [|e evs He _ IH]; [reflexivity|].
  unfold remote_calls in *. cbn [flat_map]. rewrite IH.
  destruct e; try reflexivity. contradiction.
Qed.

Lemma body_no_failure evs : Forall body_event evs -> failures evs = [].
Proof.
  induction 1 as [|e evs He _ IH]; [reflexivity|].
  cbn [failures flat_map]. fold (failures evs). rewrite IH, app_nil_r.
  destruct e as [[]| | | | | |]; cbn in He |- *; auto; contradiction.
Qed.

Lemma loop_no_completion evs : Forall loop_event evs -> completions evs = [].
Proof.
  induction 1 as [|e evs He _ IH]; [reflexivity|].
  cbn [completions flat_map]. fold (completions evs). rewrite IH, app_nil_r.
  destruct e as [[]| | | | | |]; cbn in He |- *; auto; contradiction.
Qed.

Section SceneExtras.
Context {lib : PyLib} {env : Env}.

(** X17. extract_last_frame never raises, whatever the media tool does
    (success, non-zero exit, failure to start): it returns normally after
    running ffmpeg exactly once with the -sseof -1 -i <video> -update 1 -q:v 2
    <frame> -y command line, and makes no remote call. *)
Theorem extract_last_frame_never_raises video_path frame_path w :
  let m := extract_last_frame video_path frame_path in
  result m w = Ret tt
  /\ tool_runs (appended m w)
     = [["ffmpeg"; "-sseof"; "-1"; "-i"; video_path;
         "-update"; "1"; "-q:v"; "2"; frame_path; "-y"]]
  /\ remote_calls (appended m w) = [].
Proof.
  cbv zeta. unfold extract_last_frame.
  set (args := ["ffmpeg"; "-sseof"; "-1"; "-i"; video_path;
                "-update"; "1"; "-q:v"; "2"; frame_path; "-y"]).
  assert (E : exists r msgs,
             try_except (run_ffmpeg args frame_path)
               (fun e => match e with
                         | CalledProcessError => log (FrameExtractFailed video_path)
                         | _ => log (Traceback e)
                         end) w = (Ret tt, r)
             /\ trace r = trace w ++ EFfmpeg args :: map ELog msgs).
  { unfold try_except, run_ffmpeg.
    destruct (status _).
    - eexists. exists []. split; reflexivity.
    - eexists. exists [FrameExtractFailed video_path]. split; [reflexivity|].
      cbn [log emit snd trace map]. rewrite <- app_assoc. reflexivity.
    - eexists. exists [Traceback OSError]. split; [reflexivity|].
      cbn [log emit snd trace map]. rewrite <- app_assoc. reflexivity. }
  destruct E as (r & msgs & E & Ht).
  unfold result. rewrite E. split; [reflexivity|].
  assert (Ha : appended (try_except (run_ffmpeg args frame_path)
               (fun e => match e with
                         | CalledProcessError => log (FrameExtractFailed video_path)
                         | _ => log (Traceback e)
                         end)) w = EFfmpeg args :: map ELog msgs).
  { apply appended_spec. unfold exec. rewrite E. exact Ht. }
  rewrite Ha. clear. split.
  - cbn [tool_runs flat_map app]. f_equal. induction msgs; [reflexivity|assumption].
  - cbn [remote_calls flat_map app]. induction msgs; [reflexivity|assumption].
Qed.

Lemma emits_scene_body_value scene_id ssml visual_desc hint n prev_scene out_dir :
  emits body_event (fun r => r = Some (scene_paths out_dir n))
    (a <- exists_ (audio (scene_paths out_dir n)) ;;
     v <- exists_ (video (scene_paths out_dir n)) ;;
     if a && v then
       log (SceneSkipped scene_id) ;;
       ret (Some (scene_paths out_dir n))
     else
       render_scene scene_id ssml visual_desc hint n prev_scene out_dir ;;
       ret (Some (scene_paths out_dir n))).
Proof.
  apply (emits_bind _ any); [emits_tac|intros a _].
  apply (emits_bind _ any); [emits_tac|intros v _].
  destruct (a && v).
  - apply (emits_bind _ any); [emits_tac|intros _ _]. apply emits_ret. reflexivity.
  - apply (emits_bind _ any); [|intros _ _; apply emits_ret; reflexivity].
    apply (emits_mono render_event); [apply render_is_body|apply emits_render_scene].
Qed.

(** A well-formed scene never takes the run down: whatever fails inside
    it is caught and recorded, and the scene yields either its paths or
    nothing. *)
Lemma process_scene_well_formed scene prev_scene out_dir w scene_id ssml visual_desc n :
  well_formed scene scene_id ssml visual_desc n ->
  process_scene scene prev_scene out_dir w
  = try_except
      (a <- exists_ (audio (scene_paths out_dir n)) ;;
       v <- exists_ (video (scene_paths out_dir n)) ;;
       if a && v then
         log (SceneSkipped scene_id) ;;
         ret (Some (scene_paths out_dir n))
       else
         render_scene scene_id ssml visual_desc
           (match dict_item "transition_hint" scene with Some h => h | None => JStr "" end)
           n prev_scene out_dir ;;
         ret (Some (scene_paths out_dir n)))
      (fun e =>
         log (SceneError scene_id e) ;;
         log (Traceback e) ;;
         ret None)
      (mkWorld (fs w) (clock w) (trace w ++ [ELog (SceneStarted scene_id)])).
Proof.
  intros (Hid & Hs & Hv & Hn). unfold process_scene.
  rewrite Hid, Hs, Hv. cbn [or_raise]. rewrite !bind_ret.
  rewrite Hn. cbn [or_raise]. rewrite bind_ret, bind_log. reflexivity.
Qed.

(** X18. For a scene dictionary that carries scene_id (an integer), ssml and
    visual_desc, process_scene never raises and never hangs: it returns the
    three artifact paths of the scene, or it returns None after logging 'Error
    in scene <id>' with the exception caught. *)
Theorem process_scene_contains_failures scene prev_scene out_dir w scene_id ssml visual_desc n :
  well_formed scene scene_id ssml visual_desc n ->
  let m := process_scene scene prev_scene out_dir in
  result m w = Ret (Some (scene_paths out_dir n))
  \/ (result m w = Ret None
      /\ exists e, In (ELog (SceneError scene_id e)) (appended m w)).
Proof.
  intros Hwf m.
  pose proof (returns_process_scene scene prev_scene out_dir w) as Hret.
  pose proof (process_scene_well_formed scene prev_scene out_dir w _ _ _ _ Hwf) as E.
  set (hint := match dict_item "transition_hint" scene with Some h => h | None => JStr "" end) in *.
  set (w1 := mkWorld (fs w) (clock w) (trace w ++ [ELog (SceneStarted scene_id)])) in *.
  destruct (emits_scene_body_value scene_id ssml visual_desc hint n prev_scene out_dir w1)
    as (evs & Ht & _ & Hq).
  unfold exec, result in Ht, Hq, Hret. subst m. unfold result.
  unfold try_except in E.
  match type of Ht with
  | trace (snd (?body w1)) = _ => destruct (body w1) as [[r|e|] w2] eqn:Eb
  end; cbn [fst snd] in *.
  - left. rewrite E, (Hq r eq_refl). reflexivity.
  - right. rewrite E. split; [reflexivity|]. exists e.
    assert (Ha : appended (process_scene scene prev_scene out_dir) w
                 = ELog (SceneStarted scene_id) :: evs
                   ++ [ELog (SceneError scene_id e); ELog (Traceback e)]).
    { apply appended_spec. unfold exec. rewrite E.
      cbn [bind log emit ret snd trace]. rewrite Ht. subst w1. cbn [trace].
      rewrite <- !app_assoc. reflexivity. }
    rewrite Ha. right. apply in_or_app. right. left. reflexivity.
  - rewrite E in Hret. cbn [fst] in Hret. congruence.
Qed.

(** X19. A scene dictionary lacking scene_id, ssml or visual_desc is not
    contained by the per-scene try: when it is the first scene of the script,
    generate_scenes raises KeyError without logging anything and without
    touching the store, so the remaining scenes are not processed. *)
Theorem malformed_first_scene_aborts_stage out_dir script_path w kvs rest :
  fs_exists script_path (fs w) = true ->
  result (read_json script_path) w = Ret (JArr (JObj kvs :: rest)) ->
  assoc "scene_id" kvs = None
  \/ assoc "ssml" kvs = None
  \/ assoc "visual_desc" kvs = None ->
  generate_scenes out_dir script_path w = (Exc KeyError, w).
Proof.
  intros He Hj Hk. unfold generate_scenes. rewrite bind_exists, He. cbn [negb].
  rewrite bind_run.
  pose proof (read_json_world script_path w) as Hw. unfold result in Hj.
  destruct (read_json script_path w) as [r w1]. cbn [fst snd] in *. subst r w1.
  cbn [first_two firstn]. rewrite bind_ret.
  rewrite bind_run. cbn [scenes_loop]. rewrite bind_run.
  assert (E : process_scene (JObj kvs) None out_dir w = (Exc KeyError, w)).
  { unfold process_scene. cbn [dict_item].
    destruct (assoc "scene_id" kvs) as [i|]; [|reflexivity].
    cbn [or_raise]. rewrite bind_ret.
    destruct (assoc "ssml" kvs) as [s|]; [|reflexivity].
    cbn [or_raise]. rewrite bind_ret.
    destruct (assoc "visual_desc" kvs) as [v|]; [|reflexivity].
    destruct Hk as [Hk|[Hk|Hk]]; discriminate. }
  rewrite E. reflexivity.
Qed.

Lemma emits_render_tail scene_id visual_desc hint n prev_scene out_dir :
  emits everything any
    (log (TtsDone (audio_path out_dir n)) ;;
     pi <-
       (if n =? 1 then ret (intro_prompt, @None string)
        else
          base_prompt <- read_text "prompts/scene_prompt.txt" ;;
          prev_visual <-
            match prev_scene with
            | Some p => if truthy p then or_raise (dict_item "visual_desc" p) (subscript_error p)
                        else ret (JStr "")
            | None => ret (JStr "")
            end ;;
          prompt <- lift (str_format base_prompt
                                [("prev_visual", prev_visual);
                                 ("transition_hint", hint);
                                 ("main_visual", visual_desc)]) ;;
          image_ref <-
            match prev_scene with
            | Some p =>
                if truthy p then
                  pid <- or_raise (dict_item "scene_id" p) (subscript_error p) ;;
                  pn <- or_raise (as_int pid) (format_error pid) ;;
                  ret (Some (Main.frame_path out_dir pn))
                else ret None
            | None => ret None
            end ;;
          let image_ref : option string := None in
          ret (prompt, image_ref)) ;;
     let prompt := fst pi in
     let image_ref := snd pi in
     log (VeoStart scene_id) ;;
     image_path <-
       match image_ref with
       | Some r => present <- exists_ r ;; ret (if present then Some r else None)
       | None => ret None
       end ;;
     generate_video_with_image prompt (video_path out_dir n) image_path ;;
     log (VeoDone (video_path out_dir n)) ;;
     extract_last_frame (video_path out_dir n) (frame_path out_dir n) ;;
     log (FrameExtracted scene_id)).
Proof.
  apply emits_seq; [emits_tac; exact I|intros _].
  apply emits_seq.
  { destruct (n =? 1); emits_tac; try exact I; cbv zeta; emits_tac. }
  intros pi. cbv zeta. apply emits_seq; [emits_tac; exact I|intros _].
  apply emits_seq; [emits_tac; exact I|intros ip].
  apply emits_seq.
  { unfold generate_video_with_image.
    destruct (str_strip (fst pi) =? "")%string; [apply emits_raise|].
    apply emits_seq; [emits_tac; exact I|intros image].
    apply emits_seq; [apply emits_start_job_all|intros op].
    apply emits_job_tail. }
  intros _. apply emits_seq; [emits_tac; exact I|intros _].
  apply emits_seq.
  { apply (emits_mono render_event); [intros; exact I|apply emits_extract_last_frame]. }
  intros _. emits_tac; exact I.
Qed.

(** X20. The skip gate needs both artifacts: if the audio or the video
    artifact of a well-formed scene is missing, process_scene starts over from
    speech synthesis, its history opening with the start record, the TTS
    record and the speech request for the scene's ssml (an existing audio file
    alone is regenerated). *)
Theorem gate_needs_both_artifacts scene prev_scene out_dir w scene_id ssml visual_desc n :
  well_formed scene scene_id ssml visual_desc n ->
  fs_exists (audio_path out_dir n) (fs w) && fs_exists (video_path out_dir n) (fs w) = false ->
  exists rest,
    appended (process_scene scene prev_scene out_dir) w
    = ELog (SceneStarted scene_id) :: ELog (TtsStart scene_id)
      :: EHttp (tts_request ssml) :: rest.
Proof.
  intros Hwf Hgate.
  set (head := [ELog (SceneStarted scene_id); ELog (TtsStart scene_id);
                EHttp (tts_request ssml)]).
  assert (E : exists rest,
             trace (exec (process_scene scene prev_scene out_dir) w) = trace w ++ head ++ rest).
  { unfold exec.
    rewrite (process_scene_well_formed scene prev_scene out_dir w _ _ _ _ Hwf).
    set (hint := match dict_item "transition_hint" scene with Some h => h | None => JStr "" end).
    assert (Hh : forall e (w' : World) pre,
               trace w' = trace w ++ head ++ pre ->
               exists rest,
                 trace (snd ((log (SceneError scene_id e) ;; log (Traceback e) ;;
                              ret (@None ScenePaths)) w'))
                 = trace w ++ head ++ rest).
    { intros e w' pre Hw'. exists (pre ++ [ELog (SceneError scene_id e); ELog (Traceback e)]).
      cbn [bind log emit ret snd trace]. rewrite Hw', <- !app_assoc. reflexivity. }
    unfold try_except. rewrite !bind_exists. cbn [fs scene_paths audio video].
    rewrite Hgate. rewrite bind_run. unfold render_scene. rewrite bind_log.
    rewrite bind_run. unfold tts_speech, stream_to_file. fold (tts_request ssml).
    rewrite bind_run. unfold request at 1. cbn [fs clock trace].
    set (w3 := mkWorld _ _ _).
    assert (Ht3 : trace w3 = trace w ++ head ++ []).
    { subst w3 head. cbn [trace]. rewrite <- !app_assoc. reflexivity. }
    clearbody w3.
    destruct (failure _) as [e|]; [apply (Hh e w3 []); exact Ht3|].
    rewrite bind_run. unfold write_file at 1.
    destruct (can_write _ _ _).
    2:{ eapply (Hh OSError _ [_]). cbn [trace].
        rewrite Ht3, app_nil_r, <- !app_assoc. reflexivity. }
    set (w4 := mkWorld _ _ _).
    assert (Ht4 : exists f, trace w4 = trace w ++ head ++ [f]).
    { eexists. subst w4. cbn [trace]. rewrite Ht3, app_nil_r, <- !app_assoc. reflexivity. }
    destruct Ht4 as (f & Ht4). clearbody w4.
    destruct (complete _); [|apply (Hh _ w4 [f]); exact Ht4].
    cbn [ret].
    destruct (emits_render_tail scene_id visual_desc hint n prev_scene out_dir w4)
      as (evs & Ht & _).
    unfold exec in Ht.
    match type of Ht with
    | trace (snd (?tail w4)) = _ => destruct (tail w4) as [[[]|e|] w5]
    end; cbn [snd] in Ht.
    - exists ([f] ++ evs). cbn [ret snd]. rewrite Ht, Ht4, <- !app_assoc. reflexivity.
    - apply (Hh e w5 ([f] ++ evs)). rewrite Ht, Ht4, <- !app_assoc. reflexivity.
    - exists ([f] ++ evs). cbn [snd]. rewrite Ht, Ht4, <- !app_assoc. reflexivity. }
  destruct E as (rest & Ht). exists rest. apply appended_spec. exact Ht.
Qed.

End SceneExtras.

(* ================================================================== *)
(** ** Artifacts on disk *)

Section KeepsRules.
Context {A B : Type}.

Lemma keeps_same p (m : M A) : (forall w, fs (exec m w) = fs w) -> keeps p m.
Proof. intros H w Hp. rewrite H. exact Hp. Qed.

Lemma keeps_ret p (a : A) : keeps p (ret a).
Proof. apply keeps_same. reflexivity. Qed.

Lemma keeps_raise p e : keeps p (@raise A e).
Proof. apply keeps_same. reflexivity. Qed.

Lemma keeps_or_raise p (o : option A) e : keeps p (or_raise o e).
Proof. destruct o; [apply keeps_ret|apply keeps_raise]. Qed.

Lemma keeps_lift p (r : Exn + A) : keeps p (lift r).
Proof. destruct r; [apply keeps_raise|apply keeps_ret]. Qed.

Lemma keeps_bind p (m : M A) (k : A -> M B) :
  keeps p m -> (forall a, keeps p (k a)) -> keeps p (bind m k).
Proof.
  intros Hm Hk w Hp. specialize (Hm w Hp). unfold exec in *. rewrite bind_run.
  destruct (m w) as [[a|e|] w1]; cbn [snd] in *; [apply Hk|..]; assumption.
Qed.

Lemma keeps_try p (body : M A) (h : Exn -> M A) :
  keeps p body -> (forall e, keeps p (h e)) -> keeps p (try_except body h).
Proof.
  intros Hb Hh w Hp. specialize (Hb w Hp). unfold exec, try_except in *.
  destruct (body w) as [[a|e|] w1]; cbn [snd] in *; [|apply Hh|]; assumption.
Qed.

Lemma leaves_after p (m : M A) (k : A -> M B) :
  (forall a, leaves p (k a)) -> leaves p (bind m k).
Proof.
  intros Hk w b. unfold result, exec. rewrite bind_run.
  destruct (m w) as [[a|e|] w1]; cbn [fst snd]; [apply Hk|discriminate|discriminate].
Qed.

Lemma leaves_before p (m : M A) (k : A -> M B) :
  leaves p m -> (forall a, keeps p (k a)) -> leaves p (bind m k).
Proof.
  intros Hm Hk w b. specialize (Hm w). unfold result, exec in *. rewrite bind_run.
  destruct (m w) as [[a|e|] w1]; cbn [fst snd] in *; [|discriminate|discriminate].
  intros _. apply Hk. apply (Hm a). reflexivity.
Qed.

Lemma leaves_raise p e : leaves p (@raise A e).
Proof. intros w a. discriminate. Qed.

End KeepsRules.

Lemma keeps_emit p e : keeps p (emit e).
Proof. apply keeps_same. reflexivity. Qed.
Lemma keeps_log p m : keeps p (log m).
Proof. apply keeps_same. reflexivity. Qed.
Lemma keeps_sleep p s : keeps p (sleep s).
Proof. apply keeps_same. reflexivity. Qed.
Lemma keeps_now p : keeps p now.
Proof. apply keeps_same. reflexivity. Qed.
Lemma keeps_exists p q : keeps p (exists_ q).
Proof. apply keeps_same. reflexivity. Qed.
Lemma keeps_write {env : Env} p q f : keeps p (write_file q f).
Proof.
  intros w Hp. unfold exec, write_file.
  destruct (can_write _ _ _); [apply fs_exists_write|]; exact Hp.
Qed.
Lemma keeps_read_text {lib : PyLib} p q : keeps p (read_text q).
Proof.
  apply keeps_same. intros w. unfold exec, read_text.
  destruct (fs_lookup q (fs w)) as [[s|j]|]; reflexivity.
Qed.
Lemma keeps_request {env : Env} p r : keeps p (request r).
Proof. apply keeps_same. reflexivity. Qed.
Lemma keeps_run_ffmpeg {env : Env} p args out : keeps p (run_ffmpeg args out).
Proof.
  intros w Hp. unfold exec, run_ffmpeg.
  assert (H : fs_exists p (match output (ffmpeg (trace w) (fs w) args) with
                           | Some o => fs_write out (Text o) (fs w)
                           | None => fs w
                           end) = true).
  { destruct (output _); [apply fs_exists_write|]; exact Hp. }
  destruct (status _); exact H.
Qed.

Ltac keeps_tac :=
  lazymatch goal with
  | |- keeps _ (bind _ _) => apply keeps_bind; [keeps_tac | intros ?; keeps_tac]
  | |- keeps _ (try_except _ _) => apply keeps_try; [keeps_tac | intros ?; keeps_tac]
  | |- keeps _ (ret _) => apply keeps_ret
  | |- keeps _ (raise _) => apply keeps_raise
  | |- keeps _ (or_raise _ _) => apply keeps_or_raise
  | |- keeps _ (lift _) => apply keeps_lift
  | |- keeps _ (log _) => apply keeps_log
  | |- keeps _ (emit _) => apply keeps_emit
  | |- keeps _ (sleep _) => apply keeps_sleep
  | |- keeps _ (write_file _ _) => apply keeps_write
  | |- keeps _ now => apply keeps_now
  | |- keeps _ (exists_ _) => apply keeps_exists
  | |- keeps _ (read_text _) => apply keeps_read_text
  | |- keeps _ (request _) => apply keeps_request
  | |- keeps _ (run_ffmpeg _ _) => apply keeps_run_ffmpeg
  | |- keeps _ (if ?b then _ else _) => destruct b; keeps_tac
  | |- keeps _ (match ?x with _ => _ end) => destruct x; keeps_tac
  | _ => idtac
  end.

Section ArtifactExtras.
Context {lib : PyLib} {env : Env}.

Lemma keeps_stream_to_file p r out : keeps p (stream_to_file r out).
Proof. unfold stream_to_file. keeps_tac. Qed.

Lemma leaves_stream_to_file r out : leaves out (stream_to_file r out).
Proof.
  intros w a. unfold result, exec, stream_to_file, bind, request, write_file.
  cbv beta iota zeta.
  destruct (failure _); [discriminate|].
  destruct (can_write _ _ _); [|discriminate].
  destruct (complete _); cbn [fst snd fs ret raise]; intros E;
    [apply fs_exists_written|discriminate].
Qed.

Lemma keeps_get_json_loop p url retries todo :
  forall attempt backoff, keeps p (get_json_loop url retries todo attempt backoff).
Proof.
  induction todo as [|todo IH]; intros attempt backoff; cbn [get_json_loop].
  - apply keeps_raise.
  - unfold json_of_reply. keeps_tac. apply IH.
Qed.

Lemma keeps_poll_loop p op_url start T :
  forall budget, keeps p (poll_loop budget op_url start T).
Proof.
  induction budget as [|budget IH]; cbn [poll_loop].
  - apply keeps_same. reflexivity.
  - apply keeps_bind; [keeps_tac|intros t].
    destruct (t - start >? 1000 * T); [apply keeps_raise|].
    apply keeps_bind; [apply keeps_get_json_loop|intros data].
    destruct data; keeps_tac. apply IH.
Qed.

Lemma keeps_generate_video p prompt out image_path :
  keeps p (generate_video_with_image prompt out image_path).
Proof.
  unfold generate_video_with_image.
  destruct (str_strip prompt =? "")%string; [apply keeps_raise|].
  apply keeps_bind; [keeps_tac|intros image].
  apply keeps_bind.
  { unfold _start_job, _post_json, json_of_reply. keeps_tac. }
  intros op. apply keeps_bind.
  { unfold _poll_until_done, _poll_until_done_within.
    apply keeps_bind; [keeps_tac|intros t]. apply keeps_poll_loop. }
  intros uri. unfold _download. destruct uri; keeps_tac. apply keeps_stream_to_file.
Qed.

Lemma leaves_generate_video prompt out image_path :
  leaves out (generate_video_with_image prompt out image_path).
Proof.
  unfold generate_video_with_image.
  destruct (str_strip prompt =? "")%string; [apply leaves_raise|].
  apply leaves_after. intros image. apply leaves_after. intros op.
  apply leaves_after. intros uri. unfold _download.
  destruct uri; try apply leaves_raise. apply leaves_stream_to_file.
Qed.

Lemma keeps_extract_last_frame p v f : keeps p (extract_last_frame v f).
Proof. unfold extract_last_frame. keeps_tac. Qed.

Lemma render_scene_leaves scene_id ssml visual_desc hint n prev_scene out_dir :
  leaves (audio_path out_dir n)
         (render_scene scene_id ssml visual_desc hint n prev_scene out_dir)
  /\ leaves (video_path out_dir n)
            (render_scene scene_id ssml visual_desc hint n prev_scene out_dir).
Proof.
  unfold render_scene. cbv zeta. split.
  - apply leaves_after. intros _. apply leaves_before.
    { unfold tts_speech. apply leaves_stream_to_file. }
    intros _. apply keeps_bind; [keeps_tac|intros _].
    apply keeps_bind; [keeps_tac|intros pi].
    apply keeps_bind; [keeps_tac|intros _].
    apply keeps_bind; [keeps_tac|intros ip].
    apply keeps_bind; [apply keeps_generate_video|intros _].
    apply keeps_bind; [keeps_tac|intros _].
    apply keeps_bind; [apply keeps_extract_last_frame|intros _].
    keeps_tac.
  - apply leaves_after. intros _. apply leaves_after. intros _.
    apply leaves_after. intros _. apply leaves_after. intros pi.
    apply leaves_after. intros _. apply leaves_after. intros ip.
    apply leaves_before; [apply leaves_generate_video|intros _].
    apply keeps_bind; [keeps_tac|intros _].
    apply keeps_bind; [apply keeps_extract_last_frame|intros _].
    keeps_tac.
Qed.

(** X21. Whenever process_scene returns paths for a well-formed scene, they
    are the scene's own paths and both the audio and the video artifact exist
    in the store it leaves; processing the scene again in that store (with any
    previous scene) returns the same paths after only the start and skip
    records, with the store unchanged. *)
Theorem completed_scene_is_skipped_next_time
        scene prev_scene prev_scene' out_dir w scene_id ssml visual_desc n paths :
  well_formed scene scene_id ssml visual_desc n ->
  result (process_scene scene prev_scene out_dir) w = Ret (Some paths) ->
  let w' := exec (process_scene scene prev_scene out_dir) w in
  let again := process_scene scene prev_scene' out_dir in
  paths = scene_paths out_dir n
  /\ fs_exists (audio_path out_dir n) (fs w') = true
  /\ fs_exists (video_path out_dir n) (fs w') = true
  /\ result again w' = Ret (Some paths)
  /\ appended again w' = [ELog (SceneStarted scene_id); ELog (SceneSkipped scene_id)]
  /\ fs (exec again w') = fs w'.
Proof.
  intros Hwf Hr w' again.
  assert (H : paths = scene_paths out_dir n
              /\ fs_exists (audio_path out_dir n) (fs w') = true
              /\ fs_exists (video_path out_dir n) (fs w') = true).
  { clear again. subst w'. revert Hr. unfold result, exec.
    rewrite (process_scene_well_formed scene prev_scene out_dir w _ _ _ _ Hwf).
    set (hint := match dict_item "transition_hint" scene with Some h => h | None => JStr "" end).
    set (w1 := mkWorld (fs w) (clock w) (trace w ++ [ELog (SceneStarted scene_id)])).
    destruct (render_scene_leaves scene_id ssml visual_desc hint n prev_scene out_dir)
      as [Ha Hv].
    unfold try_except. rewrite !bind_exists. cbn [scene_paths audio video].
    destruct (fs_exists (audio_path out_dir n) (fs w1)) eqn:Ea;
      destruct (fs_exists (video_path out_dir n) (fs w1)) eqn:Ev; cbn [andb].
    1:{ rewrite bind_log. cbn [ret fst snd fs]. intros E. injection E as <-.
        cbn [fs] in Ea, Ev. auto. }
    all: rewrite bind_run; specialize (Ha w1); specialize (Hv w1);
      unfold result, exec in Ha, Hv;
      destruct (render_scene scene_id ssml visual_desc hint n prev_scene out_dir w1)
        as [[[]|e|] w2]; cbn [fst snd] in *;
      [ cbn [ret fst snd]; intros E; injection E as <-;
        split; [reflexivity|split; [apply (Ha tt)|apply (Hv tt)]; reflexivity]
      | cbn [bind log emit ret fst]; discriminate
      | discriminate ]. }
  destruct H as (-> & Ha & Hv). clearbody w'.
  split; [reflexivity|]. split; [exact Ha|]. split; [exact Hv|].
  assert (E : again w'
              = (Ret (Some (scene_paths out_dir n)),
                 mkWorld (fs w') (clock w')
                   (trace w' ++ [ELog (SceneStarted scene_id); ELog (SceneSkipped scene_id)]))).
  { subst again.
    rewrite (process_scene_well_formed scene prev_scene' out_dir w' _ _ _ _ Hwf).
    unfold try_except. rewrite !bind_exists. cbn [fs scene_paths audio video].
    rewrite Ha, Hv. cbn [andb]. rewrite bind_log. cbn [ret trace].
    rewrite <- app_assoc. reflexivity. }
  unfold result, exec. rewrite E. cbn [fst snd fs]. split; [reflexivity|].
  split; [|reflexivity]. apply appended_spec. unfold exec. rewrite E. reflexivity.
Qed.

End ArtifactExtras.

(* ================================================================== *)
(** ** The report of the scenes stage *)

Section StageExtras.
Context {lib : PyLib} {env : Env}.

(** X22. Running the driver with stage scenes when the script file does not
    exist logs 'Missing script file' and then the final record, and returns
    normally: no exception, no request, store and clock unchanged. *)
Theorem scenes_stage_without_script topic OUTPUT_DIR w :
  fs_exists (script_json OUTPUT_DIR) (fs w) = false ->
  main topic StScenes OUTPUT_DIR w
  = (Ret tt, mkWorld (fs w) (clock w)
               (trace w ++ [ELog (MissingScript (script_json OUTPUT_DIR));
                            ELog (Finished StScenes)])).
Proof.
  intros H. destruct (main_dispatch topic OUTPUT_DIR w) as (_ & E & _).
  rewrite E, bind_run. unfold generate_scenes. rewrite bind_exists, H. cbn [negb].
  unfold log, emit. cbn [fs clock trace]. rewrite <- app_assoc. reflexivity.
Qed.

Lemma started_failures_app a b : failures (a ++ b) = failures a ++ failures b.
Proof. unfold failures. apply flat_map_app. Qed.

Lemma completions_app a b : completions (a ++ b) = completions a ++ completions b.
Proof. unfold completions. apply flat_map_app. Qed.

(** Every scene the loop starts ends up either in the list of results or
    among the recorded failures. *)
Lemma scenes_loop_accounts out_dir l :
  forall generated prev_scene w g w',
    scenes_loop l generated prev_scene out_dir w = (Ret g, w') ->
    exists evs,
      trace w' = trace w ++ evs
      /\ Forall loop_event evs
      /\ (List.length g + List.length (failures evs)
          = List.length generated + List.length (started evs))%nat.
Proof.
  induction l as [|scene l IH]; intros generated prev_scene w g w' E.
  - cbn in E. injection E as <- <-. exists []. rewrite app_nil_r.
    split; [reflexivity|]. split; [constructor|cbn; lia].
  - cbn [scenes_loop] in E. rewrite bind_run in E.
    destruct (process_scene_history scene prev_scene out_dir w) as (evs1 & Ht1 & Hcase).
    unfold exec, result in Ht1, Hcase.
    destruct (process_scene scene prev_scene out_dir w) as [[r|e|] w1]; cbn [fst snd] in *;
      try discriminate.
    destruct Hcase as [[_ [e He]]|(i & rest & Hi & -> & Hrest)]; [discriminate|].
    assert (Hst : started (ELog (SceneStarted i) :: rest) = [i]).
    { change (started (ELog (SceneStarted i) :: rest)) with (i :: started rest).
      rewrite (body_not_started rest Hrest). reflexivity. }
    assert (Hfl : failures (ELog (SceneStarted i) :: rest) = []).
    { change (failures (ELog (SceneStarted i) :: rest)) with (failures rest).
      apply body_no_failure. exact Hrest. }
    assert (Hloop : Forall loop_event (ELog (SceneStarted i) :: rest)).
    { constructor; [exact I|]. eapply Forall_impl; [apply body_is_loop|exact Hrest]. }
    destruct r as [paths|].
    + destruct (IH _ _ _ _ _ E) as (evs2 & Ht2 & Hp2 & Hc2).
      exists ((ELog (SceneStarted i) :: rest) ++ evs2).
      split; [rewrite Ht2, Ht1, <- app_assoc; reflexivity|].
      split; [apply Forall_app; auto|].
      rewrite started_failures_app, started_app, Hst, Hfl, !length_app in *.
      cbn [List.length app] in *. lia.
    + rewrite Hi in E. cbn [or_raise] in E. rewrite bind_ret, bind_log in E.
      destruct (IH _ _ _ _ _ E) as (evs2 & Ht2 & Hp2 & Hc2). cbn [trace] in Ht2.
      exists ((ELog (SceneStarted i) :: rest) ++ ELog (SceneSkippedErrors i) :: evs2).
      split; [rewrite Ht2, Ht1, <- !app_assoc; reflexivity|].
      split; [apply Forall_app; split; [exact Hloop|constructor; [exact I|exact Hp2]]|].
      rewrite started_failures_app, started_app, Hst, Hfl, !length_app.
      change (failures (ELog (SceneSkippedErrors i) :: evs2)) with (i :: failures evs2).
      change (started (ELog (SceneSkippedErrors i) :: evs2)) with (started evs2).
      cbn [List.length app] in *. lia.
Qed.

(** X23. Whenever the scenes stage returns normally, its report adds up: the
    number in 'Completed n scenes' plus the number of 'skipped due to errors'
    records equals the number of scenes started, and 'No scenes successfully
    generated' is logged only when every started scene was skipped. *)
Theorem scenes_stage_accounts out_dir script_path w :
  result (generate_scenes out_dir script_path) w = Ret tt ->
  let evs := appended (generate_scenes out_dir script_path) w in
  (forall n, In n (completions evs) ->
             (n + List.length (failures evs) = List.length (started evs))%nat)
  /\ (In (ELog NoScenes) evs -> List.length (failures evs) = List.length (started evs)).
Proof.
  intros Hr.
  assert (H : exists evs,
             trace (exec (generate_scenes out_dir script_path) w) = trace w ++ evs
             /\ (forall n, In n (completions evs) ->
                   (n + List.length (failures evs) = List.length (started evs))%nat)
             /\ (In (ELog NoScenes) evs -> List.length (failures evs) = List.length (started evs))).
  { unfold result, exec, generate_scenes in *. rewrite bind_exists in *.
    destruct (fs_exists script_path (fs w)); cbn [negb] in *.
    2:{ exists [ELog (MissingScript script_path)]. split; [reflexivity|].
        split; [intros n []|intros [E|[]]; discriminate]. }
    rewrite bind_run in *. pose proof (read_json_world script_path w) as Hw.
    destruct (read_json script_path w) as [[j|e|] w1]; cbn [fst snd] in *; subst w1;
      try discriminate.
    assert (Hloop : forall batch w0 u,
               (generated <- scenes_loop batch [] None out_dir ;;
                match generated with
                | [] => log NoScenes
                | _ :: _ => log (Completed (List.length generated))
                end) w0 = (Ret u, snd ((generated <- scenes_loop batch [] None out_dir ;;
                match generated with
                | [] => log NoScenes
                | _ :: _ => log (Completed (List.length generated))
                end) w0)) ->
               exists evs,
                 trace (snd ((generated <- scenes_loop batch [] None out_dir ;;
                              match generated with
                              | [] => log NoScenes
                              | _ :: _ => log (Completed (List.length generated))
                              end) w0)) = trace w0 ++ evs
                 /\ (forall n, In n (completions evs) ->
                       (n + List.length (failures evs) = List.length (started evs))%nat)
                 /\ (In (ELog NoScenes) evs ->
                     List.length (failures evs) = List.length (started evs))).
    { intros batch w0 u. rewrite bind_run.
      destruct (scenes_loop batch [] None out_dir w0) as [[g|e|] w2] eqn:El;
        try (cbn; discriminate).
      intros _. destruct (scenes_loop_accounts _ _ _ _ _ _ _ El) as (evs & Ht & Hp & Hc).
      cbn [List.length] in Hc.
      assert (Hnc : completions evs = []) by (apply loop_no_completion; exact Hp).
      assert (Hnn : ~ In (ELog NoScenes) evs).
      { intros Hin. rewrite Forall_forall in Hp. exact (Hp _ Hin). }
      destruct g as [|p g].
      - exists (evs ++ [ELog NoScenes]). cbn [log emit snd trace].
        rewrite Ht, app_assoc. split; [reflexivity|].
        rewrite completions_app, started_failures_app, started_app, Hnc.
        cbn [completions failures started flat_map app]. rewrite !app_nil_r.
        split; [intros n []|intros _]. cbn [List.length] in Hc. lia.
      - exists (evs ++ [ELog (Completed (List.length (p :: g)))]). cbn [log emit snd trace].
        rewrite Ht, app_assoc. split; [reflexivity|].
        rewrite completions_app, started_failures_app, started_app, Hnc.
        cbn [completions failures started flat_map app]. rewrite !app_nil_r.
        split.
        + intros n [<-|[]]. exact Hc.
        + intros Hin. apply in_app_or in Hin. destruct Hin as [Hin|[Hin|[]]];
            [contradiction|discriminate]. }
    destruct j as [ | | | |s|l| ]; try (cbn in Hr; discriminate).
    - cbn [first_two] in *. destruct (s =? "")%string; [|cbn in Hr; discriminate].
      rewrite bind_ret in *. apply (Hloop [] w tt).
      match goal with
      | |- ?X = (Ret tt, snd ?X) =>
          destruct X as [r w']; cbn [fst snd] in *; subst r; reflexivity
      end.
    - cbn [first_two] in *. rewrite bind_ret in *. apply (Hloop (firstn 2 l) w tt).
      match goal with
      | |- ?X = (Ret tt, snd ?X) =>
          destruct X as [r w']; cbn [fst snd] in *; subst r; reflexivity
      end. }
  destruct H as (evs & Ht & H1 & H2). cbv zeta.
  rewrite (appended_spec _ _ _ Ht). split; assumption.
Qed.

End StageExtras.

(* ================================================================== *)
(** ** The script stage, the concat stage and the driver *)

Section DriverExtras.
Context {lib : PyLib} {env : Env}.

Lemma script_handler_bound t e w : fst (script_handler (Some t) e w) = Ret tt.
Proof. destruct e; reflexivity. Qed.

Lemma script_handler_unbound e e' w :
  fst (script_handler None e w) = Exc e' -> e' = UnboundLocalError.
Proof.
  destruct e; cbn; intros E; try discriminate. injection E as <-. reflexivity.
Qed.

(** X24. The only exception generate_full_script can let out is
    UnboundLocalError, raised by its JSONDecodeError handler when it formats
    text[:400] before text was ever assigned (the text service replied with a
    body that is not JSON); every other failure is logged and the function
    returns. *)
Theorem generate_full_script_escapes topic out_path skip_search w e :
  result (generate_full_script topic out_path skip_search) w = Exc e ->
  e = UnboundLocalError.
Proof.
  unfold result, generate_full_script.
  destruct (script_request topic out_path skip_search w) as [[text|e0|] w1].
  - unfold try_except. destruct (script_save text out_path w1) as [[[]|e1|] w2].
    + discriminate.
    + rewrite script_handler_bound. discriminate.
    + discriminate.
  - apply script_handler_unbound.
  - discriminate.
Qed.

(** X25. With skip_search=True (what the driver always passes) and no saved
    search_context.txt next to the script, generate_full_script logs the
    search phase, then 'Unexpected error' with the traceback of the file
    error, and returns normally: no request is sent and nothing is written. *)
Theorem skip_search_needs_context topic out_path w sp :
  result (read_text "prompts/search_prompt.txt") w = Ret sp ->
  fs_lookup (path_join (path_parent out_path) "search_context.txt") (fs w) = None ->
  generate_full_script topic out_path true w
  = (Ret tt, mkWorld (fs w) (clock w)
               (trace w ++ [ELog (Phase1Search topic); ELog ScriptUnexpected;
                            ELog (Traceback OSError)])).
Proof.
  intros Hsp Hctx. unfold generate_full_script, script_request.
  rewrite bind_run, (read_text_run _ w sp Hsp).
  rewrite bind_log. cbn [negb]. rewrite bind_ret.
  rewrite bind_run. unfold read_text at 1. cbn [fs]. rewrite Hctx.
  cbn [script_handler]. rewrite bind_log. unfold log, emit. cbn [fs clock trace].
  rewrite <- !app_assoc. reflexivity.
Qed.

(** X26. With skip_search=False the script stage opens with the phase-1 record
    followed by the web-search request: a POST to /chat/completions for model
    gemini-2.5-flash with temperature 0, max_tokens 2048, web_search_options
    set, and the search prompt with {topic} replaced. *)
Theorem search_phase_comes_first topic out_path w sp :
  result (read_text "prompts/search_prompt.txt") w = Ret sp ->
  exists rest,
    appended (generate_full_script topic out_path false) w
    = ELog (Phase1Search topic)
      :: EHttp (POST chat_url
                  (chat_payload (str_replace sp "{topic}" topic) "gemini-2.5-flash" true 0 2048))
      :: rest.
Proof.
  intros Hsp.
  set (head := [ELog (Phase1Search topic);
                EHttp (POST chat_url
                         (chat_payload (str_replace sp "{topic}" topic)
                            "gemini-2.5-flash" true 0 2048))]).
  assert (H : exists rest,
             trace (exec (generate_full_script topic out_path false) w)
             = trace w ++ head ++ rest).
  { unfold exec, generate_full_script, script_request.
    rewrite bind_run, (read_text_run _ w sp Hsp).
    rewrite bind_log. cbn [negb].
    set (w1 := mkWorld _ _ _).
    rewrite bind_run. rewrite bind_run.
    destruct (generate_text_trace (str_replace sp "{topic}" topic) "gemini-2.5-flash"
                true 0 2048 w1) as (payload & Ht & _).
    assert (Hpl : payload = chat_payload (str_replace sp "{topic}" topic)
                              "gemini-2.5-flash" true 0 2048).
    { revert Ht. unfold exec, generate_text. rewrite bind_run. unfold _post_json.
      rewrite bind_run. unfold request at 1.
      set (w2 := mkWorld _ _ _).
      pose proof (json_of_reply_world (http (trace w1)
        (POST (OPENAI_BASE ++ "/chat/completions")%string
           (chat_payload (str_replace sp "{topic}" topic) "gemini-2.5-flash" true 0 2048))) w2)
        as Hw.
      unfold chat_payload in Hw.
      destruct (json_of_reply _ w2) as [[data|e|] w3]; cbn [snd] in Hw; subst w3.
      - match goal with
        | |- trace (snd (match ?c with _ => _ end w2)) = _ -> _ =>
            destruct c as [[ | | | |s| | ]|]
        end; try destruct (s =? "")%string; cbn [snd raise ret];
          subst w2; cbn [trace]; intros E; apply app_inv_head in E;
          injection E as E; symmetry; exact E.
      - cbn [snd]. subst w2. cbn [trace]. intros E. apply app_inv_head in E.
        injection E as E. symmetry. exact E.
      - cbn [snd]. subst w2. cbn [trace]. intros E. apply app_inv_head in E.
        injection E as E. symmetry. exact E. }
    subst payload. unfold exec in Ht.
    destruct (generate_text _ _ _ _ _ w1) as [r w2]. cbn [snd] in Ht.
    assert (Ht2 : trace w2 = trace w ++ head ++ []).
    { rewrite Ht. subst w1 head. cbn [trace]. rewrite <- !app_assoc. reflexivity. }
    clear Ht. clearbody w1.
    assert (Hh : forall t e (w' : World) pre,
               trace w' = trace w ++ head ++ pre ->
               exists rest, trace (snd (script_handler t e w')) = trace w ++ head ++ rest).
    { intros t e w' pre Hw'. destruct (emits_script_handler t e w') as (evs & Hte & _).
      unfold exec in Hte. exists (pre ++ evs). rewrite Hte, Hw', <- !app_assoc. reflexivity. }
    destruct r as [results|e|]; [|apply (Hh None e w2 []); exact Ht2
                                 |exists []; exact Ht2].
    cbv beta iota.
    set (inner := bind (write_file _ _) _).
    assert (Hinner : emits everything any inner) by (subst inner; emits_tac; exact I).
    destruct (Hinner w2) as (pre & Ht4 & _). unfold exec in Ht4.
    rewrite Ht2, app_nil_r, <- app_assoc in Ht4.
    destruct (inner w2) as [[[]|e|] w4]; cbn [snd] in Ht4;
      [|apply (Hh None e w4 pre); exact Ht4|exists pre; exact Ht4].
    set (tail := bind (read_text _) _).
    assert (Htail : emits everything any tail).
    { subst tail. apply emits_seq; [emits_tac|intros ctx].
      apply emits_seq; [emits_tac; exact I|intros _].
      apply emits_seq; [emits_tac|intros cp].
      unfold generate_text. apply emits_seq; [apply emits_post_json; exact I|intros data].
      match goal with |- emits _ _ (match ?c with _ => _ end) => destruct c as [[ | | | |s| | ]|] end;
        emits_tac. }
    destruct (Htail w4) as (evs & Hte & _). unfold exec in Hte.
    destruct (tail w4) as [[text|e|] w5]; cbn [snd] in Hte.
    - destruct (emits_try everything any (script_save text out_path)
                  (script_handler (Some text)) (emits_script_save text out_path)
                  (emits_script_handler (Some text)) w5) as (evs2 & Ht5 & _).
      unfold exec in Ht5. exists (pre ++ evs ++ evs2).
      rewrite Ht5, Hte, Ht4, <- !app_assoc. reflexivity.
    - apply (Hh None e w5 (pre ++ evs)). rewrite Hte, Ht4, <- !app_assoc. reflexivity.
    - exists (pre ++ evs). cbn [snd]. rewrite Hte, Ht4, <- !app_assoc. reflexivity. }
  destruct H as (rest & Ht). exists rest. apply appended_spec. exact Ht.
Qed.

Lemma emits_concat_final out_dir : emits local_event any (concat_final out_dir).
Proof.
  intros w. unfold exec, result, concat_final.
  destruct (sorted (glob (path_join out_dir "video") "scene_" ".mp4" (fs w))) as [|v vs].
  { exists [ELog MissingSceneOutputs]. repeat split; repeat constructor. }
  destruct (sorted (glob (path_join out_dir "audio") "scene_" ".mp3" (fs w))) as [|a as_].
  { exists [ELog MissingSceneOutputs]. repeat split; repeat constructor. }
  assert (H : emits local_event any
                (try_except
                   (concat_videos (v :: vs) (a :: as_) (path_join out_dir "final_video.mp4") ;;
                    log (FinalCreated (path_join out_dir "final_video.mp4")))
                   (fun e => log ConcatError ;; log (Traceback e)))).
  { unfold concat_videos. emits_tac; exact I. }
  exact (H w).
Qed.

Lemma concat_final_result out_dir w : result (concat_final out_dir) w = Ret tt.
Proof.
  pose proof (returns_concat_final out_dir w) as Hr.
  unfold result, concat_final in *.
  destruct (sorted _) as [|v vs]; [reflexivity|].
  destruct (sorted _) as [|a as_]; [reflexivity|].
  unfold try_except in *.
  match goal with
  | |- fst (match ?b w with _ => _ end) = _ => destruct (b w) as [[[]|e|] w1]
  end; cbn [fst] in *; [reflexivity|reflexivity|congruence].
Qed.

(** X27. Running the driver with stage concat always returns normally,
    whatever the store holds and whatever the media tool does (its failures
    are caught and logged); it makes no remote call, and its last record is
    'Pipeline finished with stage: concat'. *)
Theorem concat_stage_is_local topic OUTPUT_DIR w :
  let m := main topic StConcat OUTPUT_DIR in
  result m w = Ret tt
  /\ remote_calls (appended m w) = []
  /\ last (appended m w) (ELog MissingSceneOutputs) = ELog (Finished StConcat).
Proof.
  cbv zeta.
  destruct (main_dispatch topic OUTPUT_DIR w) as (_ & _ & E & _).
  destruct (emits_concat_final OUTPUT_DIR w) as (evs & Ht & Hp & _).
  pose proof (concat_final_result OUTPUT_DIR w) as Hr.
  unfold exec, result in *.
  assert (Em : main topic StConcat OUTPUT_DIR w
               = (Ret tt, mkWorld (fs (snd (concat_final OUTPUT_DIR w)))
                            (clock (snd (concat_final OUTPUT_DIR w)))
                            (trace w ++ evs ++ [ELog (Finished StConcat)]))).
  { rewrite E, bind_run. destruct (concat_final OUTPUT_DIR w) as [r w1].
    cbn [fst snd] in *. subst r. unfold log, emit. rewrite Ht, <- app_assoc. reflexivity. }
  assert (Ha : appended (main topic StConcat OUTPUT_DIR) w = evs ++ [ELog (Finished StConcat)]).
  { apply appended_spec. unfold exec. rewrite Em. reflexivity. }
  rewrite Ha, Em. split; [reflexivity|]. split.
  - apply local_no_remote. apply Forall_app. split; [exact Hp|repeat constructor].
  - apply last_last.
Qed.

Lemma stage_is_scenes_run e : stage_event e -> scenes_run_event e.
Proof.
  destruct e as [[]| |[]| | | |]; cbn; auto; try tauto.
Qed.

(** X28. Running the driver with stage scenes never does the work of the other
    stages: every plain JSON POST goes to the video submission endpoint (the
    chat endpoint is never called), no file is ever removed, the only media-
    tool runs are last-frame extractions, and no script-stage or concat-stage
    record is logged. *)
Theorem scenes_stage_stays_in_its_lane topic OUTPUT_DIR w e :
  In e (appended (main topic StScenes OUTPUT_DIR) w) -> scenes_run_event e.
Proof.
  destruct (main_dispatch topic OUTPUT_DIR w) as (_ & E & _).
  destruct (generate_scenes_history OUTPUT_DIR (script_json OUTPUT_DIR) w)
    as (evs & Ht & Hp & _).
  unfold exec in Ht.
  assert (H : exists tl, appended (main topic StScenes OUTPUT_DIR) w = evs ++ tl
                         /\ Forall scenes_run_event tl).
  { destruct (generate_scenes OUTPUT_DIR (script_json OUTPUT_DIR) w) as [[[]|x|] w1] eqn:Eg;
      cbn [snd] in Ht.
    - exists [ELog (Finished StScenes)]. split; [|repeat constructor].
      apply appended_spec. unfold exec. rewrite E, bind_run, Eg.
      cbn [log emit snd trace]. rewrite Ht, <- app_assoc. reflexivity.
    - exists []. split; [|constructor]. rewrite app_nil_r.
      apply appended_spec. unfold exec. rewrite E, bind_run, Eg. exact Ht.
    - exists []. split; [|constructor]. rewrite app_nil_r.
      apply appended_spec. unfold exec. rewrite E, bind_run, Eg. exact Ht. }
  destruct H as (tl & -> & Htl). intros Hin. apply in_app_or in Hin.
  destruct Hin as [Hin|Hin].
  - apply stage_is_scenes_run. rewrite Forall_forall in Hp. auto.
  - rewrite Forall_forall in Htl. auto.
Qed.

End DriverExtras.

(* ================================================================== *)
(** ** Artifact paths *)

Lemma to_int_normal z : Decimal.norm (Z.to_int z) = Z.to_int z.
Proof. rewrite <- (DecimalZ.of_to z) at 2. rewrite DecimalZ.to_of. reflexivity. Qed.

Lemma decimal_of_int_inj x y :
  NilZero.string_of_int (Z.to_int x) = NilZero.string_of_int (Z.to_int y) -> x = y.
Proof.
  intros E. apply DecimalZ.to_int_inj.
  assert (H : forall z, NilZero.int_of_string (NilZero.string_of_int (Z.to_int z))
                        = Some (Z.to_int z)).
  { intros z. apply NilZero.isi; intros Hz; pose proof (to_int_normal z) as Hn;
      rewrite Hz in Hn; discriminate. }
  pose proof (H x) as Hx. rewrite E, H in Hx. injection Hx as Hx. symmetry. exact Hx.
Qed.

(** A two-character decimal never opens with a zero. *)
Lemma no_leading_zero y c :
  NilZero.string_of_int (Z.to_int y) <> String "0" (String c "").
Proof.
  intros E.
  assert (H : NilZero.int_of_string (String "0" (String c "")) = Some (Z.to_int y)).
  { rewrite <- E. apply NilZero.isi; intros Hz; pose proof (to_int_normal y) as Hn;
      rewrite Hz in Hn; discriminate. }
  pose proof (to_int_normal y) as Hn.
  destruct c as [[] [] [] [] [] [] [] []]; cbn in H; try discriminate;
    injection H as H; rewrite <- H in Hn; discriminate.
Qed.

Lemma fmt02d_inj x y : fmt02d x = fmt02d y -> x = y.
Proof.
  unfold fmt02d.
  set (sx := NilZero.string_of_int (Z.to_int x)).
  set (sy := NilZero.string_of_int (Z.to_int y)).
  assert (Hmix : forall a b (sa := NilZero.string_of_int (Z.to_int a))
                        (sb := NilZero.string_of_int (Z.to_int b)),
             (String.length sa <? 2)%nat = true -> (String.length sb <? 2)%nat = false ->
             ("0" ++ sa)%string <> sb).
  { intros a b sa sb Ha Hb E. apply Nat.ltb_lt in Ha. apply Nat.ltb_ge in Hb.
    assert (Hl : String.length sb = S (String.length sa)).
    { rewrite <- E. reflexivity. }
    destruct sa as [|c [|c' r]]; cbn in Ha, Hl; try lia.
    apply (no_leading_zero b c). fold sb. symmetry. exact E. }
  destruct (String.length sx <? 2)%nat eqn:Hx, (String.length sy <? 2)%nat eqn:Hy; intros E.
  - apply decimal_of_int_inj. cbn in E. injection E as E. exact E.
  - exfalso. exact (Hmix x y Hx Hy E).
  - exfalso. exact (Hmix y x Hy Hx (eq_sym E)).
  - apply decimal_of_int_inj. exact E.
Qed.

(** X29. Artifact paths are scene-and-kind specific for every integer scene id
    (negative and three-digit ids included): two scenes share an audio, video
    or frame path only if their ids are equal, and the audio, video and frame
    paths of any two scenes never coincide with one another. *)
Theorem artifact_paths_are_distinct out_dir a b :
  (audio_path out_dir a = audio_path out_dir b -> a = b)
  /\ (video_path out_dir a = video_path out_dir b -> a = b)
  /\ (frame_path out_dir a = frame_path out_dir b -> a = b)
  /\ audio_path out_dir a <> video_path out_dir b
  /\ audio_path out_dir a <> frame_path out_dir b
  /\ video_path out_dir a <> frame_path out_dir b.
Proof.
  unfold audio_path, video_path, frame_path.
  rewrite !path_join_nested by (cbn; lia).
  assert (Hkind : forall k1 k2 x y,
             (forall t1 t2, (k1 ++ t1)%string <> (k2 ++ t2)%string) ->
             (path_join out_dir k1 ++ x)%string <> (path_join out_dir k2 ++ y)%string).
  { intros k1 k2 x y Hk. unfold path_join.
    destruct (_ || _); [apply Hk|].
    destruct (out_dir =? "/")%string; rewrite !append_assoc_s; intros E.
    - apply (append_inv_head_s "/") in E. exact (Hk _ _ E).
    - apply (append_inv_head_s out_dir) in E. apply (append_inv_head_s "/") in E.
      exact (Hk _ _ E). }
  repeat split; try (apply Hkind; intros t1 t2; cbn; discriminate);
    intros E; apply append_inv_head_s in E; cbn in E; injection E as E;
    apply fmt02d_inj; exact (append_inv_tail_s _ _ _ E).
Qed.

(* ================================================================== *)
(** ** Cleanup after concatenation *)

Section ConcatFacts.
Context {env : Env}.

Lemma concat_videos_split videos audios out w :
  concat_videos videos audios out w
  = bind (concat_steps videos audios out) (fun _ => concat_removals) w.
Proof.
  unfold concat_steps, concat_videos, concat_removals, bind.
  destruct (write_file tmp_file _ w) as [[[]|e|] w1]; [|reflexivity|reflexivity].
  destruct (run_ffmpeg _ merged w1) as [[[]|e|] w2]; [|reflexivity|reflexivity].
  destruct (write_file audio_concat _ w2) as [[[]|e|] w3]; [|reflexivity|reflexivity].
  destruct (run_ffmpeg _ merged_audio w3) as [[[]|e|] w4]; [|reflexivity|reflexivity].
  destruct (run_ffmpeg _ out w4) as [[[]|e|] w5]; reflexivity.
Qed.

Lemma concat_removals_run w :
  concat_removals w
  = (Ret tt,
     mkWorld (fs_unlink merged_audio (fs_unlink merged (fs_unlink audio_concat
                (fs_unlink tmp_file (fs w)))))
             (clock w)
             (trace w ++ [EUnlink tmp_file; EUnlink audio_concat;
                          EUnlink merged; EUnlink merged_audio])).
Proof.
  unfold concat_removals, bind, unlink. cbn [fs clock trace].
  rewrite <- !app_assoc. reflexivity.
Qed.

Lemma emits_concat_steps videos audios out :
  emits not_removal any (concat_steps videos audios out).
Proof. unfold concat_steps. emits_tac; exact I. Qed.

Lemma keeps_concat_steps p videos audios out : keeps p (concat_steps videos audios out).
Proof. unfold concat_steps. keeps_tac. Qed.

Lemma fs_exists_tool_output p out o s :
  fs_exists p s = true ->
  fs_exists p (match o with Some x => fs_write out (Text x) s | None => s end) = true.
Proof. intros H. destruct o; [apply fs_exists_write|]; exact H. Qed.

(** Once a media-tool run has begun, the video list is on disk; once a
    second one has begun, the audio list is too. *)
Lemma concat_steps_lists videos audios out w r w' :
  concat_steps videos audios out w = (r, w') ->
  exists evs,
    trace w' = trace w ++ evs
    /\ (tool_runs evs <> [] -> fs_exists tmp_file (fs w') = true)
    /\ ((2 <= List.length (tool_runs evs))%nat -> fs_exists audio_concat (fs w') = true).
Proof.
  intros E. unfold concat_steps in E.
  rewrite bind_run in E. unfold write_file at 1 in E.
  destruct (can_write (trace w) (fs w) tmp_file).
  2:{ injection E as <- <-. eexists. split; [reflexivity|]. cbn. split; [congruence|lia]. }
  set (w1 := mkWorld _ _ _) in E.
  assert (H1 : fs_exists tmp_file (fs w1) = true) by apply fs_exists_written.
  rewrite bind_run in E. unfold run_ffmpeg at 1 in E. cbv zeta in E.
  set (w2 := mkWorld _ (clock w1) _) in E.
  assert (H2 : fs_exists tmp_file (fs w2) = true)
    by (apply fs_exists_tool_output; exact H1).
  assert (Hstop : forall x : Res unit, (x, w2) = (r, w') -> exists evs,
             trace w' = trace w ++ evs
             /\ (tool_runs evs <> [] -> fs_exists tmp_file (fs w') = true)
             /\ ((2 <= List.length (tool_runs evs))%nat ->
                 fs_exists audio_concat (fs w') = true)).
  { intros x Ex. injection Ex as <- <-. eexists.
    split; [subst w2 w1; cbn [trace]; rewrite <- app_assoc; reflexivity|].
    cbn. split; [intros _; exact H2|lia]. }
  destruct (status _); [|apply (Hstop _ E)|apply (Hstop _ E)]. clear Hstop.
  rewrite bind_run in E. unfold write_file at 1 in E.
  destruct (can_write (trace w2) (fs w2) audio_concat).
  2:{ injection E as <- <-. eexists.
      split; [subst w2 w1; cbn [trace]; rewrite <- !app_assoc; reflexivity|].
      cbn. split; [intros _; exact H2|lia]. }
  set (w3 := mkWorld _ _ _) in E.
  assert (H3 : fs_exists tmp_file (fs w3) = true) by (apply fs_exists_write; exact H2).
  assert (H3' : fs_exists audio_concat (fs w3) = true) by apply fs_exists_written.
  set (rest := bind (run_ffmpeg _ merged_audio) _) in E.
  assert (Hk : forall p, keeps p rest) by (intros p; subst rest; keeps_tac).
  assert (He : emits everything any rest) by (subst rest; emits_tac; exact I).
  destruct (He w3) as (evs & Ht & _).
  pose proof (Hk tmp_file w3 H3) as K1. pose proof (Hk audio_concat w3 H3') as K2.
  unfold exec in *. rewrite E in *. cbn [snd] in *.
  exists ([EWrite tmp_file (Text (concat_lines videos));
           EFfmpeg ["ffmpeg"; "-f"; "concat"; "-safe"; "0";
                    "-i"; tmp_file; "-c"; "copy"; merged];
           EWrite audio_concat (Text (concat_lines audios))] ++ evs).
  split; [rewrite Ht; subst w3 w2 w1; cbn [trace]; rewrite <- !app_assoc; reflexivity|].
  split; intros _; assumption.
Qed.

(** C3 (amended). Whenever the concatenation succeeds, the two concat lists
    and the two merged temporaries are gone when it returns.  Whenever it
    raises (a media-tool run fails, or a list cannot be opened), no cleanup
    takes place: nothing is removed, every file that existed is still
    there, and so are the lists written so far, the video list as soon as a
    media-tool run has begun and the audio list as soon as a second one
    has. *)
Theorem concat_videos_cleanup videos audios out w :
  let m := concat_videos videos audios out in
  let s := fs (exec m w) in
  (result m w = Ret tt ->
   fs_exists tmp_file s = false
   /\ fs_exists audio_concat s = false
   /\ fs_exists merged s = false
   /\ fs_exists merged_audio s = false)
  /\ (forall e, result m w = Exc e ->
        (forall p, ~ In (EUnlink p) (appended m w))
        /\ (forall p, fs_exists p (fs w) = true -> fs_exists p s = true)
        /\ (tool_runs (appended m w) <> [] -> fs_exists tmp_file s = true)
        /\ ((2 <= List.length (tool_runs (appended m w)))%nat ->
            fs_exists audio_concat s = true)).
Proof.
  cbv zeta.
  pose proof (concat_videos_split videos audios out w) as Em. rewrite bind_run in Em.
  destruct (emits_concat_steps videos audios out w) as (evs & Ht & Hp & _).
  assert (Hk : forall p, fs_exists p (fs w) = true ->
                         fs_exists p (fs (snd (concat_steps videos audios out w))) = true)
    by (intros p; apply (keeps_concat_steps p videos audios out w)).
  unfold exec in *.
  destruct (concat_steps videos audios out w) as [r w5] eqn:Es.
  destruct (concat_steps_lists videos audios out w _ _ Es) as (evs' & Ht' & Hl1 & Hl2).
  cbn [snd] in Ht.
  assert (evs' = evs) by (rewrite Ht in Ht'; apply app_inv_head in Ht'; congruence).
  subst evs'. clear Ht'.
  unfold result, appended, exec. rewrite Em.
  destruct r as [[]|e|]; cbn [fst snd] in *.
  - split; [|intros e; rewrite concat_removals_run; discriminate].
    intros _. rewrite concat_removals_run. cbn [snd fs].
    repeat split;
      repeat first [ apply fs_exists_unlink_same | apply fs_exists_unlink_absent ].
  - split; [discriminate|]. intros e' _.
    rewrite Ht, skipn_app, skipn_all, Nat.sub_diag. cbn [skipn app].
    split.
    + intros p Hin. rewrite Forall_forall in Hp. exact (Hp _ Hin).
    + split; [exact Hk|]. split; assumption.
  - split; discriminate.
Qed.

End ConcatFacts.


(** ** What the driver runs *)

Section DriverFacts.
Context {lib : PyLib} {env : Env}.


















End DriverFacts.


(** ** Concrete runs *)

Lemma get_json_backoff_witness :
  0 <= 3
  /\ let m := _get_json_with (env := offline) "u" 3 in
     let evs := appended m empty_world in
     evs = backoff_history "u" DEFAULT_BACKOFF (attempts evs)
     /\ delays evs = doubling DEFAULT_BACKOFF (attempts evs - 1)
     /\ Sorted Z.le (delays evs)
     /\ Z.of_nat (attempts evs) <= 3
     /\ (forall e, result m empty_world = Exc e -> Z.of_nat (attempts evs) = 3).
Proof.
  split; [lia|].
  apply (get_json_backoff (env := offline) "u" 3 empty_world). lia.
Defined.

Lemma process_scene_resumes_witness :
  fs_exists (audio_path "/out" 1) (fs world_resume) = true
  /\ fs_exists (video_path "/out" 1) (fs world_resume) = true
  /\ let m := process_scene (lib := plain_lib) (env := offline) (scene 1) None "/out" in
     result m world_resume = Ret (Some (scene_paths "/out" 1))
     /\ appended m world_resume = [ELog (SceneStarted (JNum 1)); ELog (SceneSkipped (JNum 1))]
     /\ remote_calls (appended m world_resume) = []
     /\ tool_runs (appended m world_resume) = []
     /\ fs (exec m world_resume) = fs world_resume
     /\ clock (exec m world_resume) = clock world_resume.
Proof.
  split; [reflexivity|]. split; [reflexivity|].
  apply (process_scene_resumes (lib := plain_lib) (env := offline)
           (scene 1) None "/out" world_resume
           (JNum 1) (JStr "narration 01") (JStr "visual 01") 1); reflexivity.
Defined.

Lemma concat_final_requires_artifacts_witness :
  glob (path_join "/out" "video") "scene_" ".mp4" (fs world5) = []
  /\ let m := concat_final (env := studio) "/out" in
     result m world5 = Ret tt
     /\ appended m world5 = [ELog MissingSceneOutputs]
     /\ tool_runs (appended m world5) = []
     /\ fs (exec m world5) = fs world5.
Proof.
  split; [reflexivity|].
  apply (concat_final_requires_artifacts (env := studio) "/out" world5).
  left. reflexivity.
Defined.

(** C7 as stated fails: with no artifact at all the concat stage raises
    nothing, neither MissingDependency nor any other exception.  It returns
    normally, and so does the driver, which goes on to write its final
    record as after a successful run. *)
Lemma concat_without_artifacts_is_no_error :
  let stage := concat_final (env := studio) "/out" in
  let run := main (lib := plain_lib) (env := studio) "news" StConcat "/out" in
  glob (path_join "/out" "video") "scene_" ".mp4" (fs world5) = []
  /\ glob (path_join "/out" "audio") "scene_" ".mp3" (fs world5) = []
  /\ result stage world5 = Ret tt
  /\ (forall e, result stage world5 <> Exc e)
  /\ result run world5 = Ret tt
  /\ appended run world5 = [ELog MissingSceneOutputs; ELog (Finished StConcat)].
Proof. vm_compute. repeat split; try reflexivity. intros e; discriminate. Qed.

Lemma concat_videos_cleanup_witness :
  let videos := [video_path "/out" 1] in
  let audios := [audio_path "/out" 1] in
  let good := concat_videos (env := studio) videos audios "/out/final_video.mp4" in
  let bad := concat_videos (env := broken_tool) videos audios "/out/final_video.mp4" in
  (result good world_media = Ret tt
   /\ fs_exists tmp_file (fs (exec good world_media)) = false
   /\ fs_exists audio_concat (fs (exec good world_media)) = false
   /\ fs_exists merged (fs (exec good world_media)) = false
   /\ fs_exists merged_audio (fs (exec good world_media)) = false)
  /\ (result bad world_media = Exc CalledProcessError
      /\ (forall p, ~ In (EUnlink p) (appended bad world_media))
      /\ (forall p, fs_exists p (fs world_media) = true ->
                    fs_exists p (fs (exec bad world_media)) = true)
      /\ fs_exists tmp_file (fs (exec bad world_media)) = true).
Proof.
  cbv zeta. split.
  - split; [vm_compute; reflexivity|].
    apply (proj1 (concat_videos_cleanup (env := studio)
                    [video_path "/out" 1] [audio_path "/out" 1] "/out/final_video.mp4"
                    world_media)).
    vm_compute. reflexivity.
  - split; [vm_compute; reflexivity|].
    destruct (proj2 (concat_videos_cleanup (env := broken_tool)
                       [video_path "/out" 1] [audio_path "/out" 1] "/out/final_video.mp4"
                       world_media) CalledProcessError)
      as (Hno & Hkeep & Hlist & _); [vm_compute; reflexivity|].
    split; [exact Hno|]. split; [exact Hkeep|].
    apply Hlist. vm_compute. discriminate.
Defined.

(** C3 as stated fails: when the media tool exits with an error the
    exception leaves [concat_videos] before the removals, and the video
    concat list stays on disk; the concat stage only logs the error.  The
    same holds when the failure comes later: with a tool that fails at its
    third run only, both lists and both merged temporaries stay. *)
Lemma concat_failure_leaves_list :
  let videos := [video_path "/out" 1] in
  let audios := [audio_path "/out" 1] in
  let m := concat_videos (env := broken_tool) videos audios "/out/final_video.mp4" in
  let late := concat_videos (env := fails_at_mux) videos audios "/out/final_video.mp4" in
  result m world_media = Exc CalledProcessError
  /\ fs_exists tmp_file (fs (exec m world_media)) = true
  /\ fs_exists tmp_file (fs (exec (concat_final (env := broken_tool) "/out") world_media)) = true
  /\ result late world_media = Exc CalledProcessError
  /\ map (fun p => fs_exists p (fs (exec late world_media)))
         [tmp_file; audio_concat; merged; merged_audio]
     = [true; true; true; true].
Proof. vm_compute. repeat split; reflexivity. Qed.

Lemma concat_final_ascending_witness :
  exists vs as_,
    Sorted Z.le vs /\ Permutation vs [2; 1]
    /\ Sorted Z.le as_ /\ Permutation as_ [2; 1]
    /\ let evs := appended (concat_final (env := studio) "/out") world_media in
       let video_list := Text (concat_lines (map (video_path "/out") vs)) in
       let audio_list := Text (concat_lines (map (audio_path "/out") as_)) in
       hd_error evs = Some (EWrite tmp_file video_list)
       /\ forall p f, In (EWrite p f) evs ->
            (p = tmp_file /\ f = video_list) \/ (p = audio_concat /\ f = audio_list).
Proof.
  apply (concat_final_ascending (env := studio) "/out" world_media [2; 1] [2; 1]).
  - discriminate.
  - discriminate.
  - repeat constructor; unfold two_digits; lia.
  - repeat constructor; unfold two_digits; lia.
  - vm_compute. apply Permutation_refl.
  - vm_compute. apply Permutation_refl.
Defined.

(** C6 as stated fails: the identifier 100 does not fit the two digits of
    the padding, and its artifact sorts before that of scene 11. *)
Lemma concat_order_breaks_at_hundred :
  hd_error (appended (concat_final (env := studio) "/out") world_hundred)
  = Some (EWrite tmp_file
            (Text (concat_lines [video_path "/out" 100; video_path "/out" 11]))).
Proof. vm_compute. reflexivity. Qed.



(** A reply in prose does not parse: the script stage logs the failure and
    the script stays as it was; the run ends normally. *)
Lemma unparsable_reply_keeps_script :
  let m := main (lib := plain_lib) (env := prose_service) "news" StScript "/out" in
  result m world_script = Ret tt
  /\ fs (exec m world_script) = fs world_script
  /\ In (ELog ScriptParseFailed) (appended m world_script).
Proof. vm_compute. repeat split; try reflexivity. tauto. Qed.

(** When the gateway answers the composition request with a body that is
    not JSON, the script stage lets UnboundLocalError out and the run of
    all stages ends there: no scene is started, the concat stage does not
    run and the final record is not written. *)
Lemma driver_stops_at_script_failure :
  let m := main (lib := plain_lib) (env := garbled) "news" StAll "/out" in
  result m world_script = Exc UnboundLocalError
  /\ appended m world_script
     = [ELog (Phase1Search "news"); ELog Phase2Start;
        EHttp (compose_request (lib := plain_lib) "news" "Facts." "Write the script.");
        ELog ScriptParseFailed].
Proof. vm_compute. split; reflexivity. Qed.

(** Given an image that exists, the job client does embed it: the absence
    of an image in the scenes stage comes from the stage, which passes
    none. *)
Lemma job_client_embeds_given_image :
  let w := mkWorld [(frame_path "/out" 1, Text "png")] 0 [] in
  hd_error (appended (generate_video_with_image (lib := plain_lib) (env := studio)
                        "Continue." (video_path "/out" 2) (Some (frame_path "/out" 1))) w)
  = Some (EPrintPayload (build_payload "Continue." (Some ("png", "image/png")))).
Proof. vm_compute. reflexivity. Qed.

Lemma get_json_exhausts_retries_witness :
  let m := _get_json_with (env := offline) "u" 3 in
  result m empty_world = Exc (AIRequestError (GetFailedAfter "u" 3))
  /\ Z.of_nat (attempts (appended m empty_world)) = 3
  /\ delays (appended m empty_world) = doubling DEFAULT_BACKOFF (Z.to_nat 3 - 1).
Proof.
  apply (get_json_exhausts_retries (env := offline) "u" 3 empty_world); [lia|].
  intros tr. left. discriminate.
Defined.

Lemma get_json_raises_only_request_error_witness :
  result (_get_json_with (env := offline) "u" 3) empty_world
  = Exc (AIRequestError (GetFailedAfter "u" 3))
  /\ exists why, AIRequestError (GetFailedAfter "u" 3) = AIRequestError why.
Proof.
  split; [reflexivity|].
  apply (get_json_raises_only_request_error (env := offline) "u" 3 empty_world).
  reflexivity.
Defined.

Lemma get_json_without_attempts_witness :
  result (_get_json_with (env := studio) "u" 0) empty_world = Exc (AIRequestError (GetFailed "u"))
  /\ appended (_get_json_with (env := studio) "u" 0) empty_world = [].
Proof.
  apply (get_json_without_attempts (env := studio) "u" 0 empty_world). lia.
Defined.


Lemma generate_text_content_witness :
  let m := generate_text (lib := plain_lib) (env := two_choices) "Write." "gemini-2.5-flash"
             false (4 # 10) 10000 in
  result m empty_world = Ret "[]"
  /\ appended m empty_world
     = [EHttp (POST chat_url (chat_payload "Write." "gemini-2.5-flash" false (4 # 10) 10000))].
Proof.
  eapply (generate_text_content (lib := plain_lib) (env := two_choices)
            "Write." "gemini-2.5-flash" false (4 # 10) 10000 empty_world
            (full_completion [("content", JStr "[]")] [("content", JStr "second")])
            _ _ _ "[]").
  - split; reflexivity.
  - reflexivity.
  - reflexivity.
  - reflexivity.
  - reflexivity.
  - discriminate.
Defined.

Lemma generate_text_parts_fallback_witness :
  result (generate_text (lib := plain_lib) (env := two_choices_parts) "Write."
            "gemini-2.5-flash" false (4 # 10) 10000) empty_world
  = Ret "[]".
Proof.
  eapply (generate_text_parts_fallback (lib := plain_lib) (env := two_choices_parts)
            "Write." "gemini-2.5-flash" false (4 # 10) 10000 empty_world
            (full_completion
               [("content", JNull);
                ("parts", JArr [JObj [("type", JStr "text"); ("text", JStr "[]")];
                                JObj [("type", JStr "text"); ("text", JStr "more")]])]
               [("content", JStr "second")])
            _ _ _ (Some JNull) _ _ "[]").
  - split; reflexivity.
  - reflexivity.
  - reflexivity.
  - reflexivity.
  - reflexivity.
  - reflexivity.
  - reflexivity.
  - reflexivity.
  - discriminate.
Defined.

Lemma generate_text_errors_witness :
  let rp := http (Env := garbled) (trace empty_world)
              (POST chat_url (chat_payload "Write." "gemini-2.5-flash" false (4 # 10) 10000)) in
  JSONDecodeError = AIRequestError UnexpectedText
  \/ failure rp = Some JSONDecodeError
  \/ (failure rp = None /\ body_json rp = None /\ JSONDecodeError = JSONDecodeError).
Proof.
  apply (generate_text_errors (lib := plain_lib) (env := garbled) "Write." "gemini-2.5-flash"
           false (4 # 10) 10000 empty_world JSONDecodeError).
  reflexivity.
Defined.

Lemma tts_speech_refused_witness :
  let m := tts_speech (env := offline) (JStr "narration 01") (audio_path "/out" 1) in
  result m empty_world = Exc HTTPError
  /\ fs (exec m empty_world) = fs empty_world
  /\ appended m empty_world = [EHttp (tts_request (JStr "narration 01"))].
Proof.
  apply (tts_speech_refused (env := offline) (JStr "narration 01") (audio_path "/out" 1)
           empty_world HTTPError).
  reflexivity.
Defined.

Lemma tts_speech_streams_witness :
  let out := audio_path "/out" 1 in
  let history := [EHttp (tts_request (JStr "narration 01")); EWrite out (Text "mp3")] in
  let m := tts_speech (env := studio) (JStr "narration 01") out in
  let m' := tts_speech (env := no_directories) (JStr "narration 01") out in
  (appended m empty_world = history
   /\ result m empty_world = Ret out
   /\ fs_lookup out (fs (exec m empty_world)) = Some (Text "mp3"))
  /\ (appended m' empty_world = history
      /\ result m' empty_world = Exc OSError
      /\ fs (exec m' empty_world) = fs empty_world).
Proof.
  cbv zeta. split.
  - apply (tts_speech_streams (env := studio) (JStr "narration 01") (audio_path "/out" 1)
             empty_world).
    reflexivity.
  - apply (tts_speech_streams (env := no_directories) (JStr "narration 01")
             (audio_path "/out" 1) empty_world).
    reflexivity.
Defined.

Lemma missing_image_is_no_image_witness :
  generate_video_with_image (lib := plain_lib) (env := studio)
    "Continue." (video_path "/out" 2) (Some (frame_path "/out" 1)) empty_world
  = generate_video_with_image (lib := plain_lib) (env := studio)
      "Continue." (video_path "/out" 2) None empty_world.
Proof.
  apply (missing_image_is_no_image (lib := plain_lib) (env := studio)
           "Continue." (video_path "/out" 2) (frame_path "/out" 1) empty_world).
  right. reflexivity.
Defined.

Lemma submission_not_retried_witness :
  let m := generate_video_with_image (lib := plain_lib) (env := offline)
             "Continue." (video_path "/out" 2) None in
  result m empty_world = Exc HTTPError
  /\ appended m empty_world = [EPrintPayload (build_payload "Continue." None);
                               EHttp (POST start_url (build_payload "Continue." None))].
Proof.
  apply (submission_not_retried (lib := plain_lib) (env := offline)
           "Continue." (video_path "/out" 2) empty_world HTTPError).
  - discriminate.
  - reflexivity.
Defined.

Lemma submission_without_handle_witness :
  let m := generate_video_with_image (lib := plain_lib) (env := nameless)
             "Continue." (video_path "/out" 2) None in
  result m empty_world = Exc (AIRequestError NoOperationName)
  /\ appended m empty_world = [EPrintPayload (build_payload "Continue." None);
                               EHttp (POST start_url (build_payload "Continue." None))].
Proof.
  apply (submission_without_handle (lib := plain_lib) (env := nameless)
           "Continue." (video_path "/out" 2) empty_world [("status", JStr "accepted")]).
  - discriminate.
  - split; reflexivity.
  - reflexivity.
Defined.

Lemma poll_done_at_first_query_witness :
  result (_poll_until_done (env := relay) "operations/7") empty_world = Ret (JStr "files/7")
  /\ appended (_poll_until_done (env := relay) "operations/7") empty_world
     = [EHttp (GET (base ++ "/" ++ "operations/7")%string)].
Proof.
  apply (poll_done_at_first_query (env := relay) "operations/7" empty_world done_relative).
  - split; reflexivity.
  - reflexivity.
Defined.

Lemma poll_passes_bounded_witness :
  let m := _poll_until_done_within (env := pending_service 1000) "operations/1" 600 in
  result m empty_world <> Diverge
  /\ Z.of_nat (passes (appended m empty_world)) <= 600 / POLL_INTERVAL + 1.
Proof.
  apply (poll_passes_bounded (env := pending_service 1000) "operations/1" 600 empty_world).
  lia.
Defined.

Lemma existing_image_is_embedded_witness :
  exists rest,
    appended (generate_video_with_image (lib := plain_lib) (env := studio)
                "Continue." (video_path "/out" 2) (Some (frame_path "/out" 1))) world_frame
    = EPrintPayload (build_payload "Continue." (Some ("png", "image/png")))
      :: EHttp (POST start_url (build_payload "Continue." (Some ("png", "image/png"))))
      :: rest.
Proof.
  apply (existing_image_is_embedded (lib := plain_lib) (env := studio)
           "Continue." (video_path "/out" 2) (frame_path "/out" 1) world_frame "png").
  - discriminate.
  - discriminate.
  - reflexivity.
  - discriminate.
Defined.

Lemma job_submit_poll_download_witness :
  let out := video_path "/out" 2 in
  let history :=
    [EPrintPayload (build_payload "Continue." None);
     EHttp (POST start_url (build_payload "Continue." None));
     EHttp (GET (base ++ "/" ++ "operations/7")%string);
     EHttp (GET_stream (download_base ++ "/" ++ "files/7")%string);
     EWrite out (Text "mp4")] in
  let m := generate_video_with_image (lib := plain_lib) (env := relay) "Continue." out None in
  let m' := generate_video_with_image (lib := plain_lib) (env := relay_no_directories)
              "Continue." out None in
  (appended m empty_world = history
   /\ result m empty_world = Ret out
   /\ fs_lookup out (fs (exec m empty_world)) = Some (Text "mp4"))
  /\ (appended m' empty_world = history
      /\ result m' empty_world = Exc OSError
      /\ fs (exec m' empty_world) = fs empty_world).
Proof.
  cbv zeta. split.
  - apply (job_submit_poll_download (lib := plain_lib) (env := relay)
             "Continue." (video_path "/out" 2) empty_world
             [("name", JStr "operations/7")] "operations/7" done_relative "files/7" "mp4").
    + discriminate.
    + intros tr. split; reflexivity.
    + reflexivity.
    + discriminate.
    + intros tr. split; reflexivity.
    + reflexivity.
    + reflexivity.
    + intros tr. repeat split; reflexivity.
  - apply (job_submit_poll_download (lib := plain_lib) (env := relay_no_directories)
             "Continue." (video_path "/out" 2) empty_world
             [("name", JStr "operations/7")] "operations/7" done_relative "files/7" "mp4").
    + discriminate.
    + intros tr. split; reflexivity.
    + reflexivity.
    + discriminate.
    + intros tr. split; reflexivity.
    + reflexivity.
    + reflexivity.
    + intros tr. repeat split; reflexivity.
Defined.

Lemma process_scene_contains_failures_witness :
  let m := process_scene (lib := plain_lib) (env := studio) (scene 3) (Some (scene 2)) "/out" in
  result m world5 = Ret (Some (scene_paths "/out" 3))
  \/ (result m world5 = Ret None
      /\ exists e, In (ELog (SceneError (JNum 3) e)) (appended m world5)).
Proof.
  apply (process_scene_contains_failures (lib := plain_lib) (env := studio)
           (scene 3) (Some (scene 2)) "/out" world5
           (JNum 3) (JStr "narration 03") (JStr "visual 03") 3).
  repeat split; reflexivity.
Defined.

Lemma malformed_first_scene_aborts_stage_witness :
  generate_scenes (lib := plain_lib) (env := studio) "/out" script_path5 world_malformed
  = (Exc KeyError, world_malformed).
Proof.
  apply (malformed_first_scene_aborts_stage (lib := plain_lib) (env := studio)
           "/out" script_path5 world_malformed [("scene_id", JNum 1)] [scene 2]).
  - reflexivity.
  - reflexivity.
  - right. left. reflexivity.
Defined.

Lemma gate_needs_both_artifacts_witness :
  exists rest,
    appended (process_scene (lib := plain_lib) (env := studio) (scene 1) None "/out") world5
    = ELog (SceneStarted (JNum 1)) :: ELog (TtsStart (JNum 1))
      :: EHttp (tts_request (JStr "narration 01")) :: rest.
Proof.
  apply (gate_needs_both_artifacts (lib := plain_lib) (env := studio)
           (scene 1) None "/out" world5
           (JNum 1) (JStr "narration 01") (JStr "visual 01") 1).
  - repeat split; reflexivity.
  - reflexivity.
Defined.

Lemma completed_scene_is_skipped_next_time_witness :
  let first := process_scene (lib := plain_lib) (env := studio) (scene 1) None "/out" in
  let w' := exec first world5 in
  let again := process_scene (lib := plain_lib) (env := studio) (scene 1) (Some (scene 2)) "/out" in
  scene_paths "/out" 1 = scene_paths "/out" 1
  /\ fs_exists (audio_path "/out" 1) (fs w') = true
  /\ fs_exists (video_path "/out" 1) (fs w') = true
  /\ result again w' = Ret (Some (scene_paths "/out" 1))
  /\ appended again w' = [ELog (SceneStarted (JNum 1)); ELog (SceneSkipped (JNum 1))]
  /\ fs (exec again w') = fs w'.
Proof.
  apply (completed_scene_is_skipped_next_time (lib := plain_lib) (env := studio)
           (scene 1) None (Some (scene 2)) "/out" world5
           (JNum 1) (JStr "narration 01") (JStr "visual 01") 1 (scene_paths "/out" 1)).
  - repeat split; reflexivity.
  - vm_compute. reflexivity.
Defined.

Lemma scenes_stage_without_script_witness :
  main (lib := plain_lib) (env := studio) "news" StScenes "/out" empty_world
  = (Ret tt, mkWorld [] 0 [ELog (MissingScript (script_json "/out"));
                           ELog (Finished StScenes)]).
Proof.
  apply (scenes_stage_without_script (lib := plain_lib) (env := studio)
           "news" "/out" empty_world).
  reflexivity.
Defined.

Lemma scenes_stage_accounts_witness :
  let evs := appended (generate_scenes (lib := plain_lib) (env := studio) "/out" script_path5)
               world5 in
  (forall n, In n (completions evs) ->
             (n + List.length (failures evs) = List.length (started evs))%nat)
  /\ (In (ELog NoScenes) evs -> List.length (failures evs) = List.length (started evs)).
Proof.
  apply (scenes_stage_accounts (lib := plain_lib) (env := studio) "/out" script_path5 world5).
  vm_compute. reflexivity.
Defined.

Lemma generate_full_script_escapes_witness :
  result (generate_full_script (lib := plain_lib) (env := garbled)
            "news" (script_json "/out") true) world_script
  = Exc UnboundLocalError
  /\ UnboundLocalError = UnboundLocalError.
Proof.
  split; [vm_compute; reflexivity|].
  apply (generate_full_script_escapes (lib := plain_lib) (env := garbled)
           "news" (script_json "/out") true world_script UnboundLocalError).
  vm_compute. reflexivity.
Defined.

Lemma skip_search_needs_context_witness :
  let stopped w :=
    (Ret tt, mkWorld (fs w) (clock w)
               (trace w ++ [ELog (Phase1Search "news"); ELog ScriptUnexpected;
                            ELog (Traceback OSError)])) in
  generate_full_script (lib := plain_lib) (env := studio) "news" (script_json "/out") true
    world_prompts
  = stopped world_prompts
  /\ path_join (path_parent "script.json") "search_context.txt" = "search_context.txt"
  /\ generate_full_script (lib := plain_lib) (env := studio) "news" "script.json" true
       world_bare
     = stopped world_bare.
Proof.
  cbv zeta. split; [|split; [reflexivity|]].
  - apply (skip_search_needs_context (lib := plain_lib) (env := studio)
             "news" (script_json "/out") world_prompts "Find facts.").
    + reflexivity.
    + reflexivity.
  - apply (skip_search_needs_context (lib := plain_lib) (env := studio)
             "news" "script.json" world_bare "Find facts.").
    + reflexivity.
    + reflexivity.
Defined.

Lemma search_phase_comes_first_witness :
  exists rest,
    appended (generate_full_script (lib := plain_lib) (env := studio)
                "news" (script_json "/out") false) world_prompts
    = ELog (Phase1Search "news")
      :: EHttp (POST chat_url (chat_payload "Find facts." "gemini-2.5-flash" true 0 2048))
      :: rest.
Proof.
  apply (search_phase_comes_first (lib := plain_lib) (env := studio)
           "news" (script_json "/out") world_prompts "Find facts.").
  reflexivity.
Defined.

Lemma scenes_stage_stays_in_its_lane_witness :
  In (ELog (SceneStarted (JNum 1)))
     (appended (main (lib := plain_lib) (env := offline) "news" StScenes "/out") world5)
  /\ scenes_run_event (ELog (SceneStarted (JNum 1))).
Proof.
  split; [vm_compute; left; reflexivity|].
  apply (scenes_stage_stays_in_its_lane (lib := plain_lib) (env := offline)
           "news" "/out" world5 (ELog (SceneStarted (JNum 1)))).
  vm_compute. left. reflexivity.
Defined.
